(** * Duplicated-Photo-Printscreen-Deleter: detection engine and delete executor

    A shallow embedding of [find_duplicates.py] (class [DuplicateFinder]) and
    of [delete_files.py] (function [create_backup_and_delete]), with the
    properties the specification states about them.

    Conventions of the embedding.
    - A Python [str] and a [Path] are a [string]; a path of the scanned
      directory is represented by the name of the file in it (all of them
      share the parent [source_dir]).  Strings are byte strings: the order
      of UTF-8 byte strings is the order of their code points, which is the
      order Python compares [str] with, and the order of the paths of one
      directory on a POSIX system.
    - A Python [set] is a [gset]; a [dict], whose iteration order is the
      insertion order, is an association list with distinct keys.
    - What a function prints is returned next to its result, as a list of
      [message]s; the progress lines are left out.
    - An exception is a [None]; every [try]/[except] of the source is a
      [match] on it.
    - The floats of the clusterer are rationals: [1.0 - diff / 64.0] is
      computed without rounding for every [diff] a fingerprint can give (a
      small integer over a power of two), and [>=] compares exact values. *)

From Stdlib Require Import QArith Ascii String.
From Stdlib.Strings Require Import Byte.
From stdpp Require Import base list gmap sets strings sorting pretty.

Local Open Scope nat_scope.

(** ** Python built-ins *)

Module py.

(** [enumerate(l, start)] and [enumerate(l)] *)
Definition enumerate_from {A} (start : nat) (l : list A) : list (nat * A) :=
  zip (seq start (length l)) l.

Definition enumerate {A} (l : list A) : list (nat * A) :=
  enumerate_from 0 l.

(** [d[k] = v] on a [dict]: the value is replaced where the key is, a new
    key goes last. *)
Fixpoint dict_set {V} (k : string) (v : V) (d : list (string * V))
  : list (string * V) :=
  match d with
  | [] => [(k, v)]
  | (k', v') :: d' =>
      if decide (k' = k) then (k, v) :: d' else (k', v') :: dict_set k v d'
  end.

(** [d[k].append(v)] on a [defaultdict(list)] *)
Fixpoint dict_append {V} (k : string) (v : V) (d : list (string * list V))
  : list (string * list V) :=
  match d with
  | [] => [(k, [v])]
  | (k', vs) :: d' =>
      if decide (k' = k) then (k', vs ++ [v]) :: d'
      else (k', vs) :: dict_append k v d'
  end.

(** [d.get(k)] *)
Fixpoint dict_get {V} (k : string) (d : list (string * V)) : option V :=
  match d with
  | [] => None
  | (k', v) :: d' => if decide (k' = k) then Some v else dict_get k d'
  end.

(** [s.lower()], on the ASCII letters.  Outside ASCII only U+212A (the
    Kelvin sign, lowered to [k]) is lowered to an ASCII letter, and no
    supported extension has a [k]. *)
Definition lower_ascii (c : ascii) : ascii :=
  let n := nat_of_ascii c in
  if (65 <=? n) && (n <=? 90) then ascii_of_nat (n + 32) else c.

Fixpoint lower (s : string) : string :=
  match s with
  | EmptyString => EmptyString
  | String c s' => String (lower_ascii c) (lower s')
  end.

End py.

(** ** The [imagehash] library: what the detector uses of it *)

Module imagehash.

(** An [ImageHash] holds a boolean array; here flattened, row by row. *)
Definition ImageHash := list bool.

(** [numpy.count_nonzero(a != b)] on flattened arrays of one size *)
Definition count_differing (a b : list bool) : nat :=
  length (filter (λ xy : bool * bool, xy.1 ≠ xy.2) (zip a b)).

(** [h1 - h2]: the Hamming distance; a [TypeError] when the sizes differ *)
Definition sub (h1 h2 : ImageHash) : option nat :=
  if decide (length h1 = length h2) then Some (count_differing h1 h2)
  else None.

End imagehash.

Abbreviation ImageHash := imagehash.ImageHash.

(** ** The Similarity Clusterer ([find_perceptual_duplicates], lines 145-175) *)

Module clusterer.

(** [similarity = 1.0 - (diff / 64.0)] *)
Definition similarity (diff : nat) : Q :=
  (1 - inject_Z (Z.of_nat diff) / 64)%Q.

(** The body of the [try] of the inner loop: [Some true] when [img2]
    joins, [None] when [hash1 - hash2] raises. *)
Definition joins (threshold : Q) (hash1 hash2 : ImageHash) : option bool :=
  match imagehash.sub hash1 hash2 with
  | Some diff => Some (Qle_bool threshold (similarity diff))
  | None => None
  end.

(** [img2] is appended to the group of [img1]. *)
Definition meets (threshold : Q) (hash1 hash2 : ImageHash) : bool :=
  match joins threshold hash1 hash2 with
  | Some b => b
  | None => false
  end.

(** The state of the loops: [current_group] and [processed_images] in the
    inner one, [similar_groups] and [processed_images] in the outer one. *)
Definition inner_step (threshold : Q) (hash1 : ImageHash)
    (st : list string * gset string) (kv : string * ImageHash)
  : list string * gset string :=
  let '(current_group, processed_images) := st in
  let '(img2_path, hash2) := kv in
  if decide (img2_path ∈ processed_images) then st
  else match joins threshold hash1 hash2 with
       | Some true => (current_group ++ [img2_path],
                       {[img2_path]} ∪ processed_images)
       | Some false => st
       | None => st
       end.

Definition outer_step (threshold : Q) (items : list (string * ImageHash))
    (st : list (list string) * gset string)
    (ikv : nat * (string * ImageHash))
  : list (list string) * gset string :=
  let '(similar_groups, processed_images) := st in
  let '(i, (img1_path, hash1)) := ikv in
  if decide (img1_path ∈ processed_images) then st
  else
    let '(current_group, processed_images) :=
      foldl (inner_step threshold hash1) ([img1_path], processed_images)
            (drop (i + 1) items) in
    if decide (1 < length current_group) then
      (similar_groups ++ [current_group],
       list_to_set current_group ∪ processed_images)
    else (similar_groups, processed_images).

(** The two nested loops over [image_hashes.items()] *)
Definition compare_all (threshold : Q) (items : list (string * ImageHash))
  : list (list string) * gset string :=
  foldl (outer_step threshold items) ([], ∅) (py.enumerate items).

Definition similar_groups (threshold : Q) (items : list (string * ImageHash))
  : list (list string) :=
  (compare_all threshold items).1.

End clusterer.

(** ** Library interfaces: [hashlib.md5], [PIL.Image] and [imagehash] *)

(** [hashlib.md5()]: a running digest that is fed byte strings and read
    out as text. *)
Class HashLib := {
  md5_state : Type;
  md5_new : md5_state;
  md5_update : md5_state → list byte → md5_state;
  md5_hexdigest : md5_state → string;
}.

(** [Image.open], [imagehash.dhash], [str] of an [ImageHash] and
    [imagehash.hex_to_hash].  An image is decoded when [dhash] loads it, so
    both steps can raise. *)
Class ImageLib := {
  image : Type;
  Image_open : list byte → option image;
  dhash : image → nat → option ImageHash;
  hash_str : ImageHash → string;
  hex_to_hash : string → option ImageHash;
}.

Definition is_lower_hex (c : ascii) : bool :=
  let n := nat_of_ascii c in
  ((48 <=? n) && (n <=? 57)) || ((97 <=? n) && (n <=? 102)).

Fixpoint string_forallb (f : ascii → bool) (s : string) : bool :=
  match s with
  | EmptyString => true
  | String c s' => f c && string_forallb f s'
  end.

(** What the documentation of the libraries promises and the detector
    relies on. *)
Record HashLib_ok (H : HashLib) : Prop := {
  (** feeding a digest piecewise is feeding it the concatenation *)
  md5_update_app : ∀ s a b,
    md5_update (md5_update s a) b = md5_update s (a ++ b);
  md5_update_nil : ∀ s, md5_update s [] = s;
  (** a digest reads as 32 lowercase hexadecimal digits *)
  md5_hexdigest_length : ∀ s, String.length (md5_hexdigest s) = 32;
  md5_hexdigest_hex : ∀ s, string_forallb is_lower_hex (md5_hexdigest s) = true;
}.

Record ImageLib_ok (I : ImageLib) : Prop := {
  (** [dhash(img, hash_size)] is a [hash_size] x [hash_size] array *)
  dhash_size : ∀ img n h, dhash img n = Some h → length h = n * n;
  (** the text of a 16 x 16 hash is not empty and parses back to it *)
  hash_str_nonempty : ∀ h, length h = 256 → hash_str h ≠ EmptyString;
  hex_to_hash_str : ∀ h, length h = 256 → hex_to_hash (hash_str h) = Some h;
}.

(** ** The file system the detector reads *)

Inductive node :=
| Dir
| File (readable : bool) (content : list byte).

(** [source_exists]: [Path(source_folder).exists()]; [iterdir]: the names
    [source_dir.iterdir()] yields, in its order, [None] when it raises;
    [nodes]: what is at each name. *)
Record filesystem := {
  source_exists : bool;
  iterdir : option (list string);
  nodes : gmap string node;
}.

(** What is printed, except the progress lines. *)
Inductive message :=
| AvisoInacessivel (name : string)
| ErroListar
| ErroMD5 (name : string)
| ErroPerceptual (name : string)
| ErroConverter (name : string)
| ErroPastaNaoEncontrada (folder : string).

Module pathlib.

Definition exists_ (fs : filesystem) (p : string) : bool :=
  match nodes fs !! p with Some _ => true | None => false end.

Definition is_file (fs : filesystem) (p : string) : bool :=
  match nodes fs !! p with Some (File _ _) => true | _ => false end.

(** [open(p, 'rb')]: the bytes still to be read; [None] when it raises *)
Definition open_rb (fs : filesystem) (p : string) : option (list byte) :=
  match nodes fs !! p with
  | Some (File true content) => Some content
  | _ => None
  end.

(** [f.read(n)]: the bytes read and the file after them *)
Definition read (n : nat) (f : list byte) : list byte * list byte :=
  (take n f, drop n f).

(** [iter(lambda: f.read(n), b"")]: the chunks up to the first empty one *)
Fixpoint iter_read (fuel n : nat) (f : list byte) : list (list byte) :=
  match fuel with
  | 0 => []
  | S fuel' =>
      match read n f with
      | ([], _) => []
      | (chunk, f') => chunk :: iter_read fuel' n f'
      end
  end.

Definition read_chunks (n : nat) (f : list byte) : list (list byte) :=
  iter_read (S (length f)) n f.

(** [s.rfind(c)] *)
Fixpoint rfind (c : ascii) (s : string) : option nat :=
  match s with
  | EmptyString => None
  | String a s' =>
      match rfind c s' with
      | Some i => Some (S i)
      | None => if decide (a = c) then Some 0 else None
      end
  end.

(** [s[i:]] *)
Fixpoint string_from (i : nat) (s : string) : string :=
  match i, s with
  | 0, _ => s
  | S i', String _ s' => string_from i' s'
  | S _, EmptyString => EmptyString
  end.

(** [PurePath.suffix] of a final component *)
Definition suffix (name : string) : string :=
  match rfind "."%char name with
  | Some i =>
      if (0 <? i) && (i <? String.length name - 1) then string_from i name
      else EmptyString
  | None => EmptyString
  end.

(** [s.split('/')] *)
Fixpoint split_go (acc s : string) : list string :=
  match s with
  | EmptyString => [String.rev acc]
  | String c s' =>
      if decide (c = "/"%char) then String.rev acc :: split_go EmptyString s'
      else split_go (String c acc) s'
  end.

Definition split (s : string) : list string := split_go EmptyString s.

(** The parts of a path given as a string: the components that are
    neither empty nor [.] *)
Definition parts (s : string) : list string :=
  filter (λ x, x ≠ EmptyString ∧ x ≠ ".") (split s).

(** [posixpath.splitroot]: two leading separators are kept as they are,
    one, or three and more, make one *)
Definition root (s : string) : string :=
  match s with
  | String c1 s1 =>
      if decide (c1 = "/"%char) then
        match s1 with
        | String c2 s2 =>
            if decide (c2 = "/"%char) then
              match s2 with
              | String c3 _ => if decide (c3 = "/"%char) then "/" else "//"
              | EmptyString => "//"
              end
            else "/"
        | EmptyString => "/"
        end
      else EmptyString
  | EmptyString => EmptyString
  end.

(** ['/'.join(parts)] *)
Fixpoint join (l : list string) : string :=
  match l with
  | [] => EmptyString
  | x :: l' =>
      match l' with
      | [] => x
      | _ :: _ => x +:+ "/" +:+ join l'
      end
  end.

(** [str(Path(s))]: the path as [pathlib] writes it, without doubled or
    trailing separator and without [.] component; the empty path is [.] *)
Definition Path (s : string) : string :=
  match root s, parts s with
  | EmptyString, [] => "."
  | r, t => r +:+ join t
  end.

(** A path written as [Path] writes it, with a name, without [..]
    component and without the root of two separators: the string under
    which the disk holds the file it names. *)
Definition plain (p : string) : bool :=
  bool_decide
    (Path p = p ∧ parts p ≠ [] ∧ (".." ∉ parts p) ∧ root p ≠ "//").

End pathlib.

(** ** [class DuplicateFinder] *)

Record DuplicateFinder := {
  source_dir : string;
  md5_duplicates : list (string * list string);
  perceptual_duplicates : list (list string);
  all_images : list string;
}.

(** The record [save_results_json] writes. *)
Record exact_entry := { hash : string; files : list string }.
Record similar_entry := { grupo : nat; similar_files : list string }.
Record results := {
  timestamp : string;
  total_images : nat;
  results_md5 : list (string * exact_entry);
  results_perceptual : list similar_entry;
}.

(** The file system at the three moments a run reads it. *)
Record timeline := {
  at_scan : filesystem;
  at_md5 : filesystem;
  at_phash : filesystem;
}.

Definition static (fs : filesystem) : timeline :=
  {| at_scan := fs; at_md5 := fs; at_phash := fs |}.

Module finder.
Section with_libraries.
Context {H : HashLib} {I : ImageLib}.

Definition init (source_dir : string) : DuplicateFinder :=
  {| source_dir := source_dir; md5_duplicates := [];
     perceptual_duplicates := []; all_images := [] |}.

Definition supported_formats : gset string :=
  {[ ".jpg"; ".jpeg"; ".png"; ".bmp"; ".tiff"; ".webp" ]}.

Definition safe_file_access (fs : filesystem) (file_path : string) : bool :=
  if negb (pathlib.exists_ fs file_path) then false
  else if negb (pathlib.is_file fs file_path) then false
  else match pathlib.open_rb fs file_path with
       | Some f => let _ := pathlib.read 1 f in true
       | None => false
       end.

(** A regular file of the directory with a supported extension. *)
Definition candidate (fs : filesystem) (file_path : string) : Prop :=
  pathlib.is_file fs file_path
  ∧ py.lower (pathlib.suffix file_path) ∈ supported_formats.

Global Instance candidate_dec fs file_path :
  Decision (candidate fs file_path).
Proof. unfold candidate. apply _. Defined.

Definition get_image_files_step (fs : filesystem)
    (st : gset string * list message) (file_path : string)
  : gset string * list message :=
  let '(images, out) := st in
  if pathlib.is_file fs file_path then
    let ext := py.lower (pathlib.suffix file_path) in
    if decide (ext ∈ supported_formats) then
      if safe_file_access fs file_path then ({[file_path]} ∪ images, out)
      else (images, out ++ [AvisoInacessivel file_path])
    else st
  else st.

Definition get_image_files (fs : filesystem) : list string * list message :=
  let '(images, out) :=
    match iterdir fs with
    | Some names => foldl (get_image_files_step fs) (∅, []) names
    | None => (∅, [ErroListar])
    end in
  (merge_sort String.le (elements images), out).

Definition calculate_md5 (fs : filesystem) (file_path : string)
  : string * list message :=
  if negb (safe_file_access fs file_path) then (EmptyString, [])
  else match pathlib.open_rb fs file_path with
       | Some f =>
           (md5_hexdigest (foldl md5_update md5_new (pathlib.read_chunks 4096 f)),
            [])
       | None => (EmptyString, [ErroMD5 file_path])
       end.

Definition calculate_perceptual_hash (fs : filesystem) (file_path : string)
  : string * list message :=
  if negb (safe_file_access fs file_path) then (EmptyString, [])
  else match pathlib.open_rb fs file_path with
       | Some f =>
           match Image_open f with
           | Some img =>
               match dhash img 16 with
               | Some dh => (hash_str dh, [])
               | None => (EmptyString, [ErroPerceptual file_path])
               end
           | None => (EmptyString, [ErroPerceptual file_path])
           end
       | None => (EmptyString, [ErroPerceptual file_path])
       end.

(** The loop of [find_md5_duplicates] files [img_path] under the digest
    [md5]: the digest of the file, when it is not empty. *)
Definition has_digest (fs : filesystem) (md5 : string) (img_path : string)
  : Prop :=
  md5 ≠ EmptyString ∧ (calculate_md5 fs img_path).1 = md5.

Global Instance has_digest_dec fs md5 img_path :
  Decision (has_digest fs md5 img_path).
Proof. unfold has_digest. apply _. Defined.

(** The loop of [find_md5_duplicates], lines 109-115 *)
Definition md5_step (fs : filesystem)
    (st : list (string * list string) * list message) (img_path : string)
  : list (string * list string) * list message :=
  let '(duplicates, out) := st in
  let '(md5, printed) := calculate_md5 fs img_path in
  (if decide (md5 = EmptyString) then duplicates
   else py.dict_append md5 img_path duplicates,
   out ++ printed).

Definition find_md5_duplicates (scan digest : filesystem)
    (self : DuplicateFinder) : DuplicateFinder * list message :=
  let '(images, out0) := get_image_files scan in
  let '(duplicates, out) :=
    foldl (md5_step digest) (md5_duplicates self, out0) images in
  ({| source_dir := source_dir self;
      md5_duplicates :=
        filter (λ kv : string * list string, 1 < length kv.2) duplicates;
      perceptual_duplicates := perceptual_duplicates self;
      all_images := images |},
   out).

(** The fingerprint the first loop of [find_perceptual_duplicates] stores
    for a path, if it stores one. *)
Definition fingerprint (fs : filesystem) (img_path : string)
  : option ImageHash :=
  let phash := (calculate_perceptual_hash fs img_path).1 in
  if decide (phash = EmptyString) then None else hex_to_hash phash.

(** The item of [image_hashes] for a path. *)
Definition hashed (fs : filesystem) (img_path : string)
  : option (string * ImageHash) :=
  pair img_path <$> fingerprint fs img_path.

(** The first loop of [find_perceptual_duplicates], lines 131-137 *)
Definition phash_step (fs : filesystem)
    (st : list (string * ImageHash) * list message) (img_path : string)
  : list (string * ImageHash) * list message :=
  let '(image_hashes, out) := st in
  let '(phash, printed) := calculate_perceptual_hash fs img_path in
  if decide (phash = EmptyString) then (image_hashes, out ++ printed)
  else match hex_to_hash phash with
       | Some h => (py.dict_set img_path h image_hashes, out ++ printed)
       | None => (image_hashes, out ++ printed ++ [ErroConverter img_path])
       end.

Definition find_perceptual_duplicates (fs : filesystem) (threshold : Q)
    (self : DuplicateFinder) : DuplicateFinder * list message :=
  let '(image_hashes, out) :=
    foldl (phash_step fs) ([], []) (all_images self) in
  ({| source_dir := source_dir self;
      md5_duplicates := md5_duplicates self;
      perceptual_duplicates := clusterer.similar_groups threshold image_hashes;
      all_images := all_images self |},
   out).

(** [str(f)] of the path [f] that [self.source_dir.iterdir()] yields for
    an entry of the directory, [self.source_dir] being
    [Path(source_dir)]: the directory and the entry with a separator
    between them, which a directory that is a root does not need and the
    directory [.] is left out with. *)
Definition str_path (self : DuplicateFinder) (f : string) : string :=
  let dir := pathlib.Path (source_dir self) in
  if decide (pathlib.parts (source_dir self) ≠ []) then dir +:+ "/" +:+ f
  else if decide (dir ≠ ".") then dir +:+ f
  else f.

(** The record built at lines 210-229; [now] is
    [datetime.now().isoformat()]. *)
Definition save_results_json (now : string) (self : DuplicateFinder)
  : results :=
  {| timestamp := now;
     total_images := length (all_images self);
     results_md5 :=
       foldl (λ (d : list (string * exact_entry))
                (e : nat * (string * list string)),
                py.dict_set ("grupo_" +:+ pretty e.1)
                  {| hash := e.2.1; files := str_path self <$> e.2.2 |} d)
             [] (py.enumerate_from 1 (md5_duplicates self));
     results_perceptual :=
       foldl (λ (l : list similar_entry) (e : nat * list string),
                l ++ [{| grupo := e.1;
                         similar_files := str_path self <$> e.2 |}])
             [] (py.enumerate_from 1 (perceptual_duplicates self)) |}.

(** [threshold=0.85]: the double nearest to 85/100 *)
Definition threshold_085 : Q := 7656119366529843 # 9007199254740992.

(** The two stages of [main], lines 251-261, on the file system as it is
    at each stage of the run *)
Definition stages (source_folder : string) (t : timeline)
  : DuplicateFinder * list message :=
  let finder := init source_folder in
  let '(finder, out1) :=
    find_md5_duplicates (at_scan t) (at_md5 t) finder in
  let '(finder, out2) :=
    find_perceptual_duplicates (at_phash t) threshold_085 finder in
  (finder, out1 ++ out2).

(** [main]: the record of the run, when the folder exists *)
Definition main (source_folder now : string) (t : timeline)
  : option results * list message :=
  if negb (source_exists (at_scan t)) then
    (None, [ErroPastaNaoEncontrada source_folder])
  else
    let '(finder, out) := stages source_folder t in
    (Some (save_results_json now finder), out).

(** [sum(len(group) - 1 for group in groups)], the count lines 120 and 176
    print *)
Definition total_duplicates (groups : list (list string)) : nat :=
  sum_list ((λ group : list string, length group - 1) <$> groups).

End with_libraries.
End finder.

(** ** The clusterer as the specification words it *)

Module spec.

(** Similarity between two fingerprints =
    1 - (Hamming distance / fingerprint bit-length). *)
Definition similarity (h1 h2 : ImageHash) : Q :=
  (1 - inject_Z (Z.of_nat (imagehash.count_differing h1 h2))
       / inject_Z (Z.of_nat (length h1)))%Q.

Definition similar (threshold : Q) (h1 h2 : ImageHash) : bool :=
  Qle_bool threshold (similarity h1 h2).

(** The readability probe: the file exists, is a regular file, and at
    least one byte can be read. *)
Definition passes_probe (fs : filesystem) (p : string) : Prop :=
  pathlib.exists_ fs p ∧ pathlib.is_file fs p
  ∧ ∃ f, pathlib.open_rb fs p = Some f ∧ (pathlib.read 1 f).1 ≠ [].

(** The File Enumerator returns exactly the regular files under the
    directory whose extension, case ignored, is supported and which pass
    the readability probe. *)
Definition enumerates_exactly (fs : filesystem) (images : list string)
  : Prop :=
  ∀ p, p ∈ images
       ↔ (∃ names, iterdir fs = Some names ∧ p ∈ names)
         ∧ pathlib.is_file fs p
         ∧ py.lower (pathlib.suffix p) ∈ finder.supported_formats
         ∧ passes_probe fs p.

Section greedy.
(** [meets anchor h]: the similarity of [h] to the anchor meets the
    threshold. *)
Variable meets : ImageHash → ImageHash → bool.

(** A later image joins the group of the anchor with fingerprint [h]. *)
Definition joiner (assigned : gset string) (h : ImageHash)
    (kv : string * ImageHash) : Prop :=
  (kv.1 ∉ assigned) ∧ meets h kv.2.

Global Instance joiner_dec assigned h kv : Decision (joiner assigned h kv).
Proof. unfold joiner. apply _. Defined.

(** Steps 1 to 4 of the algorithm: skip an assigned image; otherwise
    anchor a group at it, let every later image that is not assigned
    and meets the threshold join and be assigned; keep the group if it
    has two members or more. *)
Fixpoint cluster (items : list (string * ImageHash))
    (assigned : gset string) : list (list string) :=
  match items with
  | [] => []
  | (anchor, h) :: later =>
      if decide (anchor ∈ assigned) then cluster later assigned
      else
        let joiners :=
          (filter (joiner assigned h) later).*1 in
        let group := anchor :: joiners in
        if decide (2 ≤ length group) then
          group :: cluster later (list_to_set group ∪ assigned)
        else cluster later assigned
  end.
End greedy.

End spec.

(** ** The delete executor ([delete_files.py]) *)

Module deleter.

(** The disk the executor works on: what is at each path, and the paths
    that can be neither written nor removed, whatever the reason (no
    permission, file in use, no parent directory).  A file is held under
    one path, written as [pathlib.Path] writes it. *)
Record disk := {
  tree : gmap string node;
  protected : gset string;
}.

(** The operations that change the disk, in the order they succeed. *)
Inductive event :=
| Copied (src dst : string)
| Unlinked (path : string).

(** What follows the last separator *)
Fixpoint name_go (acc : string) (p : string) : string :=
  match p with
  | EmptyString => String.rev acc
  | String c p' =>
      if decide (c = "/"%char) then name_go EmptyString p'
      else name_go (String c acc) p'
  end.

(** [p.name] of a path [p] written as [Path] writes it: its last part,
    which follows the last separator; a root and [.] have no name. *)
Definition name (p : string) : string :=
  let n := name_go EmptyString p in
  if decide (n = ".") then EmptyString else n.

(** [d / child] *)
Definition joinpath (d child : string) : string := d +:+ "/" +:+ child.

Definition exists_ (d : disk) (p : string) : bool :=
  match tree d !! p with Some _ => true | None => false end.

(** [shutil.copy2(src, dst)]: into [dst] when it is a directory; raises
    when the source cannot be read as a file, when source and target are
    the same file, or when the target cannot be written.  Gives the disk
    after the copy and the path of the copy. *)
Definition copy2 (src dst : string) (d : disk) : option (disk * string) :=
  let target :=
    match tree d !! dst with
    | Some Dir => joinpath dst (name src)
    | _ => dst
    end in
  match tree d !! src with
  | Some (File true content) =>
      if decide (src = target) then None
      else if decide (target ∈ protected d) then None
      else match tree d !! target with
           | Some Dir => None
           | _ => Some ({| tree := <[target := File true content]> (tree d);
                           protected := protected d |}, target)
           end
  | _ => None
  end.

(** [p.unlink()] *)
Definition unlink (p : string) (d : disk) : option disk :=
  match tree d !! p with
  | Some (File _ _) =>
      if decide (p ∈ protected d) then None
      else Some {| tree := delete p (tree d); protected := protected d |}
  | _ => None
  end.

(** [p.mkdir(exist_ok=True)] *)
Definition mkdir (p : string) (d : disk) : option disk :=
  match tree d !! p with
  | Some Dir => Some d
  | Some (File _ _) => None
  | None =>
      if decide (p ∈ protected d) then None
      else Some {| tree := <[p := Dir]> (tree d); protected := protected d |}
  end.

(** The variables of the loop of [create_backup_and_delete], and the
    operations done so far. *)
Record state := {
  on_disk : disk;
  deleted_count : nat;
  error_count : nat;
  trace : list event;
}.

(** The body of the loop, lines 50-68, for the path
    [source_path = Path(file_path)] of line 49 *)
Definition process (backup_dir : string) (st : state) (source_path : string)
  : state :=
  if negb (exists_ (on_disk st) source_path) then
    {| on_disk := on_disk st; deleted_count := deleted_count st;
       error_count := error_count st + 1; trace := trace st |}
  else
    let backup_path := joinpath backup_dir (name source_path) in
    match copy2 source_path backup_path (on_disk st) with
    | None =>
        {| on_disk := on_disk st; deleted_count := deleted_count st;
           error_count := error_count st + 1; trace := trace st |}
    | Some (copied, target) =>
        match unlink source_path copied with
        | None =>
            {| on_disk := copied; deleted_count := deleted_count st;
               error_count := error_count st + 1;
               trace := trace st ++ [Copied source_path target] |}
        | Some removed =>
            {| on_disk := removed; deleted_count := deleted_count st + 1;
               error_count := error_count st;
               trace := trace st ++ [Copied source_path target;
                                     Unlinked source_path] |}
        end
    end.

(** The loop, lines 44-68, on the paths of the files requested *)
Definition process_all (backup_dir : string) (d : disk)
    (source_paths : list string) : state :=
  foldl (process backup_dir)
        {| on_disk := d; deleted_count := 0; error_count := 0; trace := [] |}
        source_paths.

(** [log_data], lines 71-78 *)
Record log_data := {
  log_timestamp : string;
  backup_directory : string;
  total_requested : nat;
  successfully_deleted : nat;
  errors : nat;
  deleted_files : list string;
}.

(** [create_backup_and_delete].  [request]: the list under
    ['files_to_delete'] of the request file, [None] when the file is
    missing or is not JSON; [stamp] and [now]: the two readings of the
    clock.  Gives the log when it is written, and the disk the loop
    leaves. *)
Definition create_backup_and_delete (request : option (list string))
    (stamp now : string) (d : disk) : option log_data * disk :=
  match request with
  | None => (None, d)
  | Some [] => (None, d)
  | Some files_to_delete =>
      let backup_dir := "backup_deletions_" +:+ stamp in
      match mkdir backup_dir d with
      | None => (None, d)
      | Some d1 =>
          let st :=
            process_all backup_dir d1 (pathlib.Path <$> files_to_delete) in
          let log :=
            {| log_timestamp := now;
               backup_directory := backup_dir;
               total_requested := length files_to_delete;
               successfully_deleted := deleted_count st;
               errors := error_count st;
               deleted_files :=
                 name <$> filter (λ f, exists_ (on_disk st) f = false)
                                 (pathlib.Path <$> files_to_delete) |} in
          let log_file := joinpath backup_dir "deletion_log.json" in
          if decide (log_file ∈ protected (on_disk st)) then
            (None, on_disk st)
          else match tree (on_disk st) !! log_file with
               | Some Dir => (None, on_disk st)
               | _ => (Some log, on_disk st)
               end
      end
  end.

(** [p.is_file()] *)
Definition is_file (d : disk) (p : string) : bool :=
  match tree d !! p with Some (File _ _) => true | _ => false end.

(** The folder [restore_backup] restores to, line 115: the value of the
    literal, which a path with [/] as separator keeps as it is. *)
Definition original_dir : string :=
  "C:\\Users\\henri\\Desktop\\scrape-instagram-gv\\prints".

(** The body of the loop of [restore_backup], lines 121-131 *)
Definition restore (st : nat * disk) (file_path : string) : nat * disk :=
  let '(restored_count, d) := st in
  if is_file d file_path
     && bool_decide (name file_path ≠ "deletion_log.json") then
    let dest_path := joinpath original_dir (name file_path) in
    match copy2 file_path dest_path d with
    | Some (d', _) => (restored_count + 1, d')
    | None => (restored_count, d)
    end
  else st.

(** [restore_backup].  [log]: the value of the log of the backup under
    ['successfully_deleted'], [None] when the log cannot be read, is not
    JSON or has no such entry; [listing]: the paths
    [backup_path.iterdir()] yields, [None] when it raises.  Gives the
    number of files restored, when the loop is done, and the disk. *)
Definition restore_backup (backup_dir : string) (log : option nat)
    (listing : option (list string)) (d : disk) : option nat * disk :=
  let backup_path := pathlib.Path backup_dir in
  if negb (exists_ d backup_path) then (None, d)
  else
    let log_file := joinpath backup_path "deletion_log.json" in
    if negb (exists_ d log_file) then (None, d)
    else match log, listing with
         | Some _, Some entries =>
             let '(restored_count, d') := foldl restore (0, d) entries in
             (Some restored_count, d')
         | _, _ => (None, d)
         end.

(** A string without separator: one component of a path. *)
Fixpoint component (s : string) : bool :=
  match s with
  | EmptyString => true
  | String c s' => if decide (c = "/"%char) then false else component s'
  end.

End deleter.

(** ** A small implementation of the library interfaces

    Enough of [hashlib] and of the image libraries to run the detector on
    concrete directories: a 128-bit checksum in place of MD5, and images
    stored as the 17 x 16 grey levels [dhash] samples. *)

Module sample.

Definition hex_char (n : N) : ascii :=
  if (n <? 10)%N then ascii_of_N (48 + n) else ascii_of_N (87 + n).

Fixpoint hex_digits (k : nat) (n : N) : string :=
  match k with
  | 0 => EmptyString
  | S k' => String (hex_char (n mod 16)) (hex_digits k' (n / 16))
  end.

Definition checksum (content : list byte) : N :=
  foldl (λ acc b, ((acc * 257 + Byte.to_N b + 1) mod 2 ^ 128)%N) 0%N content.

#[global] Instance hashlib : HashLib := {|
  md5_state := list byte;
  md5_new := [];
  md5_update s chunk := s ++ chunk;
  md5_hexdigest s := hex_digits 32 (checksum s);
|}.

Definition nibble_char (b3 b2 b1 b0 : bool) : ascii :=
  hex_char (N.b2n b3 * 8 + N.b2n b2 * 4 + N.b2n b1 * 2 + N.b2n b0).

Definition char_nibble (c : ascii) : option (list bool) :=
  let n := N_of_ascii c in
  let v := if ((48 <=? n) && (n <=? 57))%N then Some (n - 48)%N
           else if ((97 <=? n) && (n <=? 102))%N then Some (n - 87)%N
           else None in
  match v with
  | Some v => Some [N.testbit v 3; N.testbit v 2; N.testbit v 1; N.testbit v 0]
  | None => None
  end.

(** [str(h)]: the bits, four to a hexadecimal digit *)
Fixpoint bits_to_hex (h : list bool) : string :=
  match h with
  | b3 :: b2 :: b1 :: b0 :: h' =>
      String (nibble_char b3 b2 b1 b0) (bits_to_hex h')
  | _ => EmptyString
  end.

Fixpoint hex_to_bits (s : string) : option (list bool) :=
  match s with
  | EmptyString => Some []
  | String c s' =>
      match char_nibble c, hex_to_bits s' with
      | Some bits, Some h => Some (bits ++ h)
      | _, _ => None
      end
  end.

(** A stored image: [hash_size + 1] grey levels a row, [hash_size] rows. *)
Definition pixel (img : list byte) (row col width : nat) : N :=
  match img !! (row * width + col) with
  | Some b => Byte.to_N b
  | None => 0%N
  end.

(** The difference hash: one bit for each pair of neighbours in a row,
    set when the right one is brighter. *)
Definition row_bits (img : list byte) (n row : nat) : list bool :=
  (λ col, (pixel img row col (n + 1) <? pixel img row (col + 1) (n + 1))%N)
    <$> seq 0 n.

Definition difference_hash (img : list byte) (n : nat) : option ImageHash :=
  if decide (length img = n * (n + 1)) then
    Some (concat (row_bits img n <$> seq 0 n))
  else None.

#[global] Instance imagelib : ImageLib := {|
  image := list byte;
  Image_open content :=
    if decide (length content = 272) then Some content else None;
  dhash := difference_hash;
  hash_str := bits_to_hex;
  hex_to_hash := hex_to_bits;
|}.

(** Three images: flat grey, a ramp rising to the right in every row, and
    a ramp rising in the first two rows only. *)
Definition flat : list byte := replicate 272 Byte.x40.

Definition ramp_row : list byte :=
  [Byte.x00; Byte.x01; Byte.x02; Byte.x03; Byte.x04; Byte.x05; Byte.x06;
   Byte.x07; Byte.x08; Byte.x09; Byte.x0a; Byte.x0b; Byte.x0c; Byte.x0d;
   Byte.x0e; Byte.x0f; Byte.x10].

Definition ramp : list byte := concat (replicate 16 ramp_row).

Definition ramp2 : list byte :=
  concat (replicate 2 ramp_row) ++ replicate 238 Byte.x40.

(** Not an image. *)
Definition garbage : list byte := [Byte.x47; Byte.x49; Byte.x46].

Definition directory (entries : list (string * node)) : filesystem :=
  {| source_exists := true;
     iterdir := Some entries.*1;
     nodes := list_to_map entries |}.

(** A directory with two byte-identical images, two other images, a file
    that is not an image, a file that cannot be read, a text file and a
    sub-directory. *)
Definition mixed : filesystem :=
  directory [("b.PNG", File true ramp2); ("a.jpg", File true flat);
             ("notes.txt", File true garbage); ("d.jpeg", File true garbage);
             ("sub.png", Dir); ("c.png", File true flat);
             ("e.webp", File false flat); ("g.bmp", File true ramp)].

(** One file that is not an image, and two distinct images. *)
Definition with_corrupt : filesystem :=
  directory [("a.jpg", File true flat); ("b.png", File true ramp);
             ("c.jpg", File true garbage)].

(** One file that cannot be read, and two distinct images. *)
Definition with_unreadable : filesystem :=
  directory [("a.jpg", File true flat); ("b.png", File true ramp);
             ("c.jpg", File false garbage)].

(** [mixed] after [a.jpg] was removed. *)
Definition mixed_later : filesystem :=
  directory [("b.PNG", File true ramp2);
             ("notes.txt", File true garbage); ("d.jpeg", File true garbage);
             ("sub.png", Dir); ("c.png", File true flat);
             ("e.webp", File false flat); ("g.bmp", File true ramp)].

(** Two copies of a file that is not an image, and an image. *)
Definition two_corrupt : filesystem :=
  directory [("x.jpg", File true garbage); ("y.jpg", File true garbage);
             ("a.jpg", File true flat)].

(** Two images whose fingerprints differ in 32 bits of 256. *)
Definition two_alike : filesystem :=
  directory [("a.jpg", File true flat); ("b.png", File true ramp2)].

(** A file of no bytes. *)
Definition with_empty : filesystem :=
  directory [("empty.jpg", File true [])].

(** A disk with two images, an image that cannot be removed and a
    directory; and a deletion request on it. *)
Definition photos : deleter.disk :=
  {| deleter.tree :=
       list_to_map [("/photos/a.jpg", File true flat);
                    ("/photos/b.png", File true ramp);
                    ("/photos/locked.jpg", File true ramp2);
                    ("/photos/sub", Dir)];
     deleter.protected := {[ "/photos/locked.jpg" ]} |}.

Definition request : list string :=
  ["/photos/a.jpg"; "/photos/missing.jpg"; "/photos/locked.jpg";
   "/photos/b.png"; "/photos/sub"].

(** The finder after the first stage on [mixed]. *)
Definition scanned : DuplicateFinder :=
  (finder.find_md5_duplicates mixed mixed (finder.init "/photos")).1.

(** A disk with an image in the folder [restore_backup] restores to, and
    an image elsewhere. *)
Definition originals : deleter.disk :=
  {| deleter.tree :=
       list_to_map
         [(deleter.joinpath deleter.original_dir "a.jpg", File true flat);
          ("/other/b.png", File true ramp)];
     deleter.protected := ∅ |}.

(** A disk with two different images of the same name in two folders. *)
Definition two_folders : deleter.disk :=
  {| deleter.tree :=
       list_to_map [("/a/x.jpg", File true flat); ("/b/x.jpg", File true ramp)];
     deleter.protected := ∅ |}.

End sample.

(** * Properties *)

#[local] Set Warnings "-clear-no-such-hyp".

(** ** Lists *)

Lemma filter_ext_elem {A} (P1 P2 : A → Prop)
    `{!∀ x, Decision (P1 x), !∀ x, Decision (P2 x)} (l : list A) :
  (∀ x, x ∈ l → P1 x ↔ P2 x) → filter P1 l = filter P2 l.
Proof.
  induction l as [|a l IH]; intros Hiff; [done|].
  rewrite !filter_cons.
  assert (P1 a ↔ P2 a) by (apply Hiff; left).
  rewrite IH by (intros x Hx; apply Hiff; by right).
  repeat case_decide; tauto.
Qed.

(** A property of the state that every iteration of a loop keeps holds
    after the loop. *)
Lemma foldl_invariant {A B} (Inv : A → Prop) (Q : B → Prop)
    (f : A → B → A) (l : list B) (a : A) :
  Inv a → Forall Q l → (∀ a b, Inv a → Q b → Inv (f a b)) → Inv (foldl f a l).
Proof.
  intros Ha Hl Hstep. revert a Ha.
  induction Hl as [|b l Hb Hl IH]; intros a Ha; cbn [foldl]; auto.
Qed.

(** ** Dictionaries *)

Section dict.
Context {V : Type}.
Implicit Types (d : list (string * V)) (k : string).

Lemma dict_set_keys_fresh k (v : V) d :
  k ∉ d.*1 → py.dict_set k v d = d ++ [(k, v)].
Proof.
  induction d as [|[k' v'] d IH]; simpl; [done|].
  rewrite not_elem_of_cons. intros [Hne Hnotin].
  case_decide; [congruence|]. by rewrite IH.
Qed.

Lemma dict_set_keys_subseteq k (v : V) d x :
  x ∈ (py.dict_set k v d).*1 ↔ x = k ∨ x ∈ d.*1.
Proof.
  induction d as [|[k' v'] d IH]; simpl.
  - set_solver.
  - case_decide; subst; simpl; rewrite !elem_of_cons; [naive_solver|].
    rewrite IH. naive_solver.
Qed.

Lemma dict_set_NoDup k (v : V) d :
  NoDup d.*1 → NoDup (py.dict_set k v d).*1.
Proof.
  induction d as [|[k' v'] d IH]; simpl.
  - intros _. apply NoDup_singleton.
  - rewrite NoDup_cons. intros [Hnotin Hnd].
    case_decide; subst; simpl; rewrite NoDup_cons; [done|].
    split; [|by apply IH].
    rewrite dict_set_keys_subseteq. naive_solver.
Qed.

Lemma dict_get_elem k (v : V) d : py.dict_get k d = Some v → (k, v) ∈ d.
Proof.
  induction d as [|[k' v'] d IH]; simpl; [done|].
  case_decide; subst.
  - intros [= ->]. left.
  - intros ?%IH. by right.
Qed.

Lemma elem_dict_get k (v : V) d :
  NoDup d.*1 → (k, v) ∈ d → py.dict_get k d = Some v.
Proof.
  induction d as [|[k' v'] d IH]; simpl.
  - by intros _ ?%not_elem_of_nil.
  - rewrite NoDup_cons, elem_of_cons. intros [Hfresh Hnd] [[= -> ->]|Hin].
    + by rewrite decide_True.
    + rewrite decide_False; [by apply IH|].
      intros ->. apply Hfresh. by apply (list_elem_of_fmap_2 fst _ (k, v)).
Qed.

Lemma dict_set_Forall (P : string * V → Prop) k (v : V) d :
  P (k, v) → Forall P d → Forall P (py.dict_set k v d).
Proof.
  intros Hkv. induction d as [|[k' v'] d IH]; simpl.
  - by repeat constructor.
  - rewrite Forall_cons. intros [Hhd Htl].
    case_decide; constructor; auto.
Qed.
End dict.

Lemma enumerate_from_Forall {A} (P : A → Prop) start (l : list A) :
  Forall P l → Forall (λ e, P e.2) (py.enumerate_from start l).
Proof.
  unfold py.enumerate_from. intros Hl. revert start.
  induction Hl as [|x l Hx Hl IH]; intros start; cbn; constructor; auto.
Qed.

Section dict_of_lists.
Context {V : Type}.
Implicit Types (d : list (string * list V)) (k : string).

Lemma dict_append_keys k (v : V) d x :
  x ∈ (py.dict_append k v d).*1 ↔ x = k ∨ x ∈ d.*1.
Proof.
  induction d as [|[k' vs] d IH]; simpl.
  - set_solver.
  - case_decide; subst; simpl; rewrite !elem_of_cons; [naive_solver|].
    rewrite IH. naive_solver.
Qed.

Lemma dict_append_NoDup k (v : V) d :
  NoDup d.*1 → NoDup (py.dict_append k v d).*1.
Proof.
  induction d as [|[k' vs] d IH]; simpl.
  - intros _. apply NoDup_singleton.
  - rewrite NoDup_cons. intros [Hnotin Hnd].
    case_decide; subst; simpl; rewrite NoDup_cons; [done|].
    split; [|by apply IH].
    rewrite dict_append_keys. naive_solver.
Qed.

(** [d[k'].append(v)] seen from the key [k] *)
Lemma dict_get_append k k' (v : V) d :
  py.dict_get k (py.dict_append k' v d)
  = if decide (k' = k) then Some (default [] (py.dict_get k d) ++ [v])
    else py.dict_get k d.
Proof.
  induction d as [|[k0 vs] d IH]; simpl.
  - by repeat case_decide.
  - destruct (decide (k0 = k')) as [->|Hne]; simpl.
    + repeat case_decide; simpl; congruence.
    + rewrite IH. repeat case_decide; simpl; congruence.
Qed.
End dict_of_lists.

(** ** The Similarity Clusterer *)

Section clusterer_facts.
Variable threshold : Q.

Let meets := clusterer.meets threshold.

Lemma inner_step_joiner hash1 current_group processed kv :
  clusterer.inner_step threshold hash1 (current_group, processed) kv
  = if decide (spec.joiner meets processed hash1 kv)
    then (current_group ++ [kv.1], {[kv.1]} ∪ processed)
    else (current_group, processed).
Proof.
  destruct kv as [img2 hash2]. cbn [fst].
  destruct (decide (spec.joiner meets processed hash1 (img2, hash2)))
    as [[Hnew Hmeets]|Hno]; unfold clusterer.inner_step.
  - rewrite decide_False by done.
    unfold meets, clusterer.meets in Hmeets. cbn [snd] in Hmeets.
    by destruct (clusterer.joins threshold hash1 hash2) as [[]|].
  - destruct (decide (img2 ∈ processed)); [done|].
    destruct (clusterer.joins threshold hash1 hash2) as [[]|] eqn:Hj;
      try done.
    exfalso. apply Hno. split; [done|].
    unfold meets, clusterer.meets. cbn [snd]. by rewrite Hj.
Qed.

(** The inner loop appends the later images that are not processed and
    meet the threshold, and marks them processed. *)
Lemma inner_loop_filter hash1 later current_group processed :
  NoDup later.*1 →
  foldl (clusterer.inner_step threshold hash1) (current_group, processed) later
  = (current_group ++ (filter (spec.joiner meets processed hash1) later).*1,
     list_to_set (filter (spec.joiner meets processed hash1) later).*1
       ∪ processed).
Proof.
  revert current_group processed.
  induction later as [|kv later IH]; intros g P Hnd.
  - cbn. rewrite app_nil_r. f_equal. set_solver.
  - rewrite fmap_cons in Hnd. apply NoDup_cons in Hnd as [Hfresh Hnd].
    cbn [foldl]. rewrite inner_step_joiner, filter_cons.
    destruct (decide (spec.joiner meets P hash1 kv)) as [Hj|Hj].
    + rewrite IH by done.
      assert (filter (spec.joiner meets ({[kv.1]} ∪ P) hash1) later
              = filter (spec.joiner meets P hash1) later) as ->.
      { apply filter_ext_elem. intros kv' Hin. unfold spec.joiner.
        assert (kv'.1 ≠ kv.1).
        { intros Heq. apply Hfresh. rewrite <- Heq.
          by apply list_elem_of_fmap_2. }
        set_solver. }
      rewrite fmap_cons, <- app_assoc. cbn [app]. f_equal.
      rewrite list_to_set_cons. set_solver.
    + by apply IH.
Qed.
(** The outer loop, from any position of [items] on, is the recursion of
    the specification on what is left of [items]. *)
Lemma outer_loop_cluster items pre suf groups processed :
  items = pre ++ suf →
  NoDup items.*1 →
  (foldl (clusterer.outer_step threshold items) (groups, processed)
         (py.enumerate_from (length pre) suf)).1
  = groups ++ spec.cluster meets suf processed.
Proof.
  unfold py.enumerate_from.
  revert pre groups processed.
  induction suf as [|[img1 hash1] suf IH]; intros pre groups P Hitems Hnd.
  - cbn. by rewrite app_nil_r.
  - assert (Hnext : items = (pre ++ [(img1, hash1)]) ++ suf)
      by (by rewrite <- app_assoc).
    assert (Hlen : S (length pre) = length (pre ++ [(img1, hash1)]))
      by (rewrite length_app; simpl; lia).
    assert (Hsuf : NoDup suf.*1).
    { rewrite Hitems, fmap_app, fmap_cons in Hnd.
      apply NoDup_app in Hnd as (_ & _ & Hnd).
      by apply NoDup_cons in Hnd as [_ ?]. }
    cbn [length seq zip zip_with foldl spec.cluster].
    unfold clusterer.outer_step at 2.
    destruct (decide (img1 ∈ P)) as [Hin|Hnotin].
    + rewrite Hlen. by apply IH.
    + replace (drop (length pre + 1) items) with suf
        by (rewrite Hnext; symmetry; apply drop_app_length'; lia).
      rewrite inner_loop_filter by done.
      set (joiners := (filter (spec.joiner meets P hash1) suf).*1).
      cbn [app length].
      destruct (decide (1 < S (length joiners))) as [Hkeep|Hdrop].
      * rewrite decide_True by done.
        rewrite Hlen, IH by done.
        rewrite <- app_assoc. cbn [app]. do 3 f_equal.
        rewrite list_to_set_cons. set_solver.
      * rewrite decide_False by done.
        assert (joiners = []) as -> by (destruct joiners; [done|simpl in *; lia]).
        rewrite Hlen, IH by done. do 2 f_equal.
        rewrite list_to_set_nil. set_solver.
Qed.

(** The groups of the two loops are the groups of the specification. *)
Lemma similar_groups_cluster items :
  NoDup items.*1 →
  clusterer.similar_groups threshold items = spec.cluster meets items ∅.
Proof.
  intros Hnd. unfold clusterer.similar_groups, clusterer.compare_all.
  unfold py.enumerate.
  by rewrite (outer_loop_cluster items [] items [] ∅ eq_refl Hnd).
Qed.
End clusterer_facts.

(** ** The clustering of the specification *)

Section cluster_facts.
Variable meets : ImageHash → ImageHash → bool.

(** A member of a group is an image of the input that was not assigned
    before. *)
Lemma cluster_members items assigned x :
  x ∈ concat (spec.cluster meets items assigned) →
  x ∈ items.*1 ∧ x ∉ assigned.
Proof.
  revert assigned.
  induction items as [|[anchor h] later IH]; intros A; cbn [spec.cluster].
  - cbn. by intros ?%not_elem_of_nil.
  - rewrite fmap_cons, elem_of_cons. cbn [fst].
    destruct (decide (anchor ∈ A)) as [Hin|Hnotin].
    { intros ?%IH. tauto. }
    set (joiners := (filter (spec.joiner meets A h) later).*1).
    destruct (decide (2 ≤ length (anchor :: joiners))).
    + cbn [concat]. rewrite elem_of_app, elem_of_cons.
      intros [[->|Hj]|Hrest].
      * tauto.
      * apply list_elem_of_fmap in Hj as (kv & -> & Hkv).
        apply list_elem_of_filter in Hkv as [[Hnew _] Hkv].
        split; [right; by apply list_elem_of_fmap_2|done].
      * apply IH in Hrest as [? Hnot]. split; [tauto|set_solver].
    + intros ?%IH. tauto.
Qed.

(** No image is in two groups, nor twice in one. *)
Lemma cluster_NoDup items assigned :
  NoDup items.*1 → NoDup (concat (spec.cluster meets items assigned)).
Proof.
  revert assigned.
  induction items as [|[anchor h] later IH]; intros A; cbn [spec.cluster].
  - intros _. cbn. constructor.
  - rewrite fmap_cons, NoDup_cons. cbn [fst]. intros [Hfresh Hnd].
    destruct (decide (anchor ∈ A)); [by apply IH|].
    set (joiners := (filter (spec.joiner meets A h) later).*1).
    destruct (decide (2 ≤ length (anchor :: joiners))); [|by apply IH].
    cbn [concat]. apply NoDup_app. split_and!.
    + apply NoDup_cons. split.
      * intros Hin. apply Hfresh.
        apply list_elem_of_fmap in Hin as (kv & -> & Hkv).
        apply list_elem_of_filter in Hkv as [_ Hkv].
        by apply list_elem_of_fmap_2.
      * apply (sublist_NoDup joiners later.*1); [exact Hnd|].
        apply fmap_sublist, sublist_filter.
    + intros x Hx [_ Hnot]%cluster_members. set_solver.
    + by apply IH.
Qed.

(** A group that is kept has two members or more. *)
Lemma cluster_sizes items assigned :
  Forall (λ g, 2 ≤ length g) (spec.cluster meets items assigned).
Proof.
  revert assigned.
  induction items as [|[anchor h] later IH]; intros A; cbn [spec.cluster].
  - constructor.
  - destruct (decide (anchor ∈ A)); [apply IH|].
    case_decide; [|apply IH]. by constructor.
Qed.
End cluster_facts.


(** ** Groups as a list of lists *)

Lemma elem_of_concat {A} (ls : list (list A)) (x : A) :
  x ∈ concat ls ↔ ∃ l, l ∈ ls ∧ x ∈ l.
Proof.
  induction ls as [|l ls IH]; cbn [concat].
  - split; [by intros ?%not_elem_of_nil|by intros (? & ?%not_elem_of_nil & _)].
  - rewrite elem_of_app, IH. setoid_rewrite elem_of_cons. naive_solver.
Qed.


(** ** The first loop of [find_perceptual_duplicates] *)

Section phash_loop.
Context {H : HashLib} {I : ImageLib}.
Variable fs : filesystem.

Let hashed := finder.hashed fs.

Lemma phash_step_fingerprint image_hashes out img_path :
  (finder.phash_step fs (image_hashes, out) img_path).1
  = match finder.fingerprint fs img_path with
    | Some h => py.dict_set img_path h image_hashes
    | None => image_hashes
    end.
Proof.
  unfold finder.phash_step, finder.fingerprint.
  destruct (finder.calculate_perceptual_hash fs img_path) as [phash printed].
  cbn [fst]. case_decide; [done|]. by destruct (hex_to_hash phash).
Qed.

Lemma phash_loop_keys_NoDup images st :
  NoDup st.1.*1 → NoDup (foldl (finder.phash_step fs) st images).1.*1.
Proof.
  revert st. induction images as [|p images IH]; intros [d out] Hnd; [done|].
  cbn [foldl]. apply IH.
  rewrite (surjective_pairing (finder.phash_step fs (d, out) p)).
  cbn [fst]. rewrite phash_step_fingerprint.
  destruct (finder.fingerprint fs p); [by apply dict_set_NoDup|done].
Qed.

(** On distinct paths the loop stores the fingerprints in the order of
    the paths. *)
Lemma phash_loop_hashes images image_hashes out :
  NoDup images →
  (∀ p, p ∈ images → p ∉ image_hashes.*1) →
  (foldl (finder.phash_step fs) (image_hashes, out) images).1
  = image_hashes ++ omap hashed images.
Proof.
  revert image_hashes out.
  induction images as [|p images IH]; intros d out Hnd Hfresh.
  - cbn. by rewrite app_nil_r.
  - apply NoDup_cons in Hnd as [Hp Hnd]. cbn [foldl omap list_omap].
    rewrite (surjective_pairing (finder.phash_step fs (d, out) p)).
    rewrite phash_step_fingerprint. unfold hashed at 1, finder.hashed.
    destruct (finder.fingerprint fs p) as [h|]; cbn [fmap option_fmap option_map].
    + rewrite dict_set_keys_fresh by (apply Hfresh; left).
      rewrite IH; [by rewrite <- app_assoc|done|].
      intros q Hq. rewrite fmap_app, elem_of_app. cbn.
      rewrite list_elem_of_singleton.
      intros [?| ->]; [|done]. eapply Hfresh; [right|]; done.
    + apply IH; [done|]. intros q Hq. apply Hfresh. by right.
Qed.

End phash_loop.

(** ** The second stage: [find_perceptual_duplicates] *)

Section perceptual_stage.
Context {H : HashLib} {I : ImageLib}.

Lemma find_perceptual_duplicates_groups fs threshold self :
  perceptual_duplicates
    (finder.find_perceptual_duplicates fs threshold self).1
  = clusterer.similar_groups threshold
      (foldl (finder.phash_step fs) ([], []) (all_images self)).1.
Proof.
  unfold finder.find_perceptual_duplicates.
  by destruct (foldl (finder.phash_step fs) ([], []) (all_images self)).
Qed.

Lemma find_perceptual_duplicates_NoDup fs threshold self :
  NoDup (concat (perceptual_duplicates
                   (finder.find_perceptual_duplicates fs threshold self).1)).
Proof.
  rewrite find_perceptual_duplicates_groups.
  assert (NoDup (foldl (finder.phash_step fs) ([], []) (all_images self)).1.*1)
    by (apply phash_loop_keys_NoDup; constructor).
  rewrite similar_groups_cluster by done. by apply cluster_NoDup.
Qed.
End perceptual_stage.



(** ** Reading files *)

Lemma iter_read_concat fuel n (f : list byte) :
  0 < n → length f < fuel → concat (pathlib.iter_read fuel n f) = f.
Proof.
  intros Hn. revert f. induction fuel as [|fuel IH]; intros f Hfuel; [lia|].
  cbn [pathlib.iter_read]. unfold pathlib.read.
  destruct f as [|b f]; [by destruct n|].
  destruct n as [|n]; [lia|]. cbn [take drop concat].
  rewrite IH; [by rewrite <- app_comm_cons, take_drop|].
  rewrite length_drop. simpl in Hfuel. lia.
Qed.

(** The chunks are the file, and each has between one and [n] bytes. *)
Lemma read_chunks_concat n (f : list byte) :
  0 < n → concat (pathlib.read_chunks n f) = f.
Proof. intros Hn. apply iter_read_concat; [done|lia]. Qed.

Lemma read_chunks_sizes n (f : list byte) :
  Forall (λ chunk, 0 < length chunk ≤ n) (pathlib.read_chunks n f).
Proof.
  unfold pathlib.read_chunks. generalize (S (length f)) as fuel.
  intros fuel. revert f. induction fuel as [|fuel IH]; intros f; [constructor|].
  cbn [pathlib.iter_read]. unfold pathlib.read.
  destruct (take n f) as [|b chunk] eqn:Htake; constructor; [|apply IH].
  rewrite <- Htake, length_take. split; [|lia].
  assert (0 < length (take n f)) by (rewrite Htake; simpl; lia).
  by rewrite length_take in *.
Qed.

Section access.
Implicit Types (fs : filesystem) (p : string).

Lemma safe_file_access_open fs p :
  finder.safe_file_access fs p = true
  ↔ ∃ content, pathlib.open_rb fs p = Some content.
Proof.
  unfold finder.safe_file_access, pathlib.exists_, pathlib.is_file,
    pathlib.open_rb.
  destruct (nodes fs !! p) as [[|[] content]|]; simpl; naive_solver.
Qed.

Lemma safe_file_access_node fs p :
  finder.safe_file_access fs p = true
  ↔ ∃ content, nodes fs !! p = Some (File true content).
Proof.
  unfold finder.safe_file_access, pathlib.exists_, pathlib.is_file,
    pathlib.open_rb.
  destruct (nodes fs !! p) as [[|[] content]|]; simpl; naive_solver.
Qed.

Lemma open_rb_node fs p content :
  pathlib.open_rb fs p = Some content
  ↔ nodes fs !! p = Some (File true content).
Proof.
  unfold pathlib.open_rb.
  destruct (nodes fs !! p) as [[|[] c]|]; naive_solver.
Qed.
End access.

(** ** The Exact-Match Fingerprinter *)

Section md5_stage.
Context {H : HashLib}.
Implicit Types (fs : filesystem) (p k : string).

Lemma calculate_md5_unreadable fs p :
  finder.safe_file_access fs p = false →
  finder.calculate_md5 fs p = (EmptyString, []).
Proof. unfold finder.calculate_md5. by intros ->. Qed.

Lemma calculate_md5_chunks fs p content :
  pathlib.open_rb fs p = Some content →
  finder.calculate_md5 fs p
  = (md5_hexdigest
       (foldl md5_update md5_new (pathlib.read_chunks 4096 content)), []).
Proof.
  intros Hopen. unfold finder.calculate_md5.
  assert (finder.safe_file_access fs p = true) as ->
    by (apply safe_file_access_open; eauto).
  by rewrite Hopen.
Qed.

Lemma foldl_md5_update (Hok : HashLib_ok H) s (chunks : list (list byte)) :
  foldl md5_update s chunks = md5_update s (concat chunks).
Proof.
  revert s. induction chunks as [|chunk chunks IH]; intros s; cbn [foldl concat].
  - by rewrite (md5_update_nil H Hok).
  - by rewrite IH, (md5_update_app H Hok).
Qed.

(** Streaming a readable file in chunks gives the digest of its bytes. *)
Lemma calculate_md5_content (Hok : HashLib_ok H) fs p content :
  pathlib.open_rb fs p = Some content →
  finder.calculate_md5 fs p
  = (md5_hexdigest (md5_update md5_new content), []).
Proof.
  intros Hopen. rewrite (calculate_md5_chunks fs p content Hopen).
  rewrite (foldl_md5_update Hok), read_chunks_concat; [done|lia].
Qed.

Lemma md5_step_dict fs d out p :
  (finder.md5_step fs (d, out) p).1
  = if decide ((finder.calculate_md5 fs p).1 = EmptyString) then d
    else py.dict_append (finder.calculate_md5 fs p).1 p d.
Proof.
  unfold finder.md5_step. by destruct (finder.calculate_md5 fs p).
Qed.

Lemma md5_loop_NoDup fs images st :
  NoDup st.1.*1 → NoDup (foldl (finder.md5_step fs) st images).1.*1.
Proof.
  revert st. induction images as [|p images IH]; intros [d out] Hnd; [done|].
  cbn [foldl]. apply IH.
  rewrite md5_step_dict. case_decide; [done|by apply dict_append_NoDup].
Qed.

(** What the loop leaves under a digest: what was there, then the images
    with that digest, in their order. *)
Lemma md5_loop_get fs images d out k :
  py.dict_get k (foldl (finder.md5_step fs) (d, out) images).1
  = match py.dict_get k d, filter (finder.has_digest fs k) images with
    | Some old, new => Some (old ++ new)
    | None, [] => None
    | None, new => Some new
    end.
Proof.
  revert d out. induction images as [|p images IH]; intros d out.
  - cbn. destruct (py.dict_get k d); by rewrite ?app_nil_r.
  - cbn [foldl].
    rewrite (surjective_pairing (finder.md5_step fs (d, out) p)), IH.
    rewrite md5_step_dict, filter_cons. unfold finder.has_digest at 2.
    destruct (decide ((finder.calculate_md5 fs p).1 = EmptyString)) as [He|He].
    + rewrite decide_False; [done|]. intros [Hk Heq]. congruence.
    + rewrite dict_get_append.
      destruct (decide ((finder.calculate_md5 fs p).1 = k)) as [Heq|Hne].
      * rewrite decide_True by (split; congruence).
        destruct (py.dict_get k d); cbn [default]; [by rewrite <- app_assoc|done].
      * rewrite decide_False; [done|]. by intros [_ ?].
Qed.
End md5_stage.

(** ** The File Enumerator *)

Section enumerator.
Implicit Types (fs : filesystem) (p : string).

Lemma get_image_files_step_candidate fs images out p :
  finder.get_image_files_step fs (images, out) p
  = if decide (finder.candidate fs p) then
      if finder.safe_file_access fs p then ({[p]} ∪ images, out)
      else (images, out ++ [AvisoInacessivel p])
    else (images, out).
Proof.
  unfold finder.get_image_files_step.
  destruct (decide (finder.candidate fs p)) as [[Hfile Hext]|Hno].
  - apply Is_true_true in Hfile. rewrite Hfile. by rewrite decide_True.
  - destruct (pathlib.is_file fs p) eqn:Hfile; [|done].
    case_decide; [|done]. exfalso. apply Hno. split; [|done].
    by rewrite Hfile.
Qed.

Lemma get_image_files_loop fs names images out :
  foldl (finder.get_image_files_step fs) (images, out) names
  = (list_to_set
       (filter (λ p, finder.candidate fs p ∧ finder.safe_file_access fs p)
               names) ∪ images,
     out ++ (AvisoInacessivel
               <$> filter (λ p, finder.candidate fs p
                                ∧ ¬ finder.safe_file_access fs p) names)).
Proof.
  revert images out. induction names as [|p names IH]; intros images out.
  - cbn. rewrite app_nil_r. f_equal. set_solver.
  - cbn [foldl]. rewrite get_image_files_step_candidate, !filter_cons.
    destruct (decide (finder.candidate fs p)) as [Hc|Hc];
      [|rewrite !decide_False by tauto; apply IH].
    destruct (finder.safe_file_access fs p) eqn:Hsafe.
    + rewrite decide_True, decide_False by (cbn; tauto). rewrite IH. f_equal.
      rewrite list_to_set_cons. set_solver.
    + rewrite decide_False, decide_True by (cbn; tauto). rewrite IH. f_equal.
      by rewrite fmap_cons, <- app_assoc.
Qed.

Lemma get_image_files_listed fs names :
  iterdir fs = Some names →
  finder.get_image_files fs
  = (merge_sort String.le
       (elements (list_to_set (C := gset string)
          (filter (λ p, finder.candidate fs p ∧ finder.safe_file_access fs p)
                  names))),
     AvisoInacessivel
       <$> filter (λ p, finder.candidate fs p
                        ∧ ¬ finder.safe_file_access fs p) names).
Proof.
  intros Hnames. unfold finder.get_image_files.
  rewrite Hnames, get_image_files_loop. f_equal. f_equal. f_equal.
  set_solver.
Qed.

Lemma get_image_files_unlisted fs :
  iterdir fs = None → finder.get_image_files fs = ([], [ErroListar]).
Proof.
  intros Hnames. unfold finder.get_image_files. rewrite Hnames.
  by rewrite elements_empty.
Qed.

(** The images are sorted and none is repeated, whatever is listed. *)
Lemma get_image_files_sorted fs :
  Sorted String.le (finder.get_image_files fs).1.
Proof.
  unfold finder.get_image_files.
  destruct (match iterdir fs with Some _ => _ | None => _ end) as [images out].
  apply (Sorted_merge_sort String.le).
Qed.

Lemma get_image_files_NoDup fs : NoDup (finder.get_image_files fs).1.
Proof.
  unfold finder.get_image_files.
  destruct (match iterdir fs with Some _ => _ | None => _ end) as [images out].
  cbn [fst]. rewrite (merge_sort_Permutation String.le). apply NoDup_elements.
Qed.

Lemma get_image_files_elem fs names p :
  iterdir fs = Some names →
  p ∈ (finder.get_image_files fs).1
  ↔ p ∈ names ∧ finder.candidate fs p ∧ finder.safe_file_access fs p.
Proof.
  intros Hnames. rewrite (get_image_files_listed fs names Hnames). cbn [fst].
  rewrite (merge_sort_Permutation String.le), elem_of_elements.
  rewrite elem_of_list_to_set, list_elem_of_filter. tauto.
Qed.

(** The images do not depend on the order in which the directory is
    listed. *)
Lemma get_image_files_order fs fs' names names' :
  iterdir fs = Some names → iterdir fs' = Some names' →
  nodes fs' = nodes fs → names' ≡ₚ names →
  (finder.get_image_files fs').1 = (finder.get_image_files fs).1.
Proof.
  intros Hnames Hnames' Hnodes Hperm.
  rewrite (get_image_files_listed fs names Hnames).
  rewrite (get_image_files_listed fs' names' Hnames'). cbn [fst].
  do 2 f_equal. apply set_eq. intros p.
  rewrite !elem_of_list_to_set, !list_elem_of_filter, Hperm.
  unfold finder.candidate, finder.safe_file_access, pathlib.is_file,
    pathlib.exists_, pathlib.open_rb.
  by rewrite Hnodes.
Qed.
End enumerator.

(** C5, as stated, fails on a file of no bytes: no byte of it can be read,
    and the enumerator returns it. *)
Lemma C5_empty_file_enumerated :
  ¬ spec.enumerates_exactly sample.with_empty
      (finder.get_image_files sample.with_empty).1.
Proof.
  intros Hexact.
  assert (Hin : "empty.jpg" ∈ (finder.get_image_files sample.with_empty).1)
    by (vm_compute; left).
  apply Hexact in Hin as (_ & _ & _ & _ & _ & f & Hopen & Hread).
  vm_compute in Hopen. injection Hopen as <-. by apply Hread.
Qed.

(** C5, amended.  When the directory can be listed, the File Enumerator
    returns exactly the listed regular files whose extension, lowered, is
    one of .jpg .jpeg .png .bmp .tiff .webp and which pass the probe of
    [safe_file_access]: the file exists, is a regular file and opens for
    reading (a file of no bytes passes).  A regular file with a supported
    extension that fails the probe is left out with a warning.  The result
    is sorted in the lexicographic order of the paths, repeats none, and
    is the same in whatever order the directory is listed. *)
Theorem C5_enumerator (fs : filesystem) (names : list string) :
  iterdir fs = Some names →
  let images := (finder.get_image_files fs).1 in
  let printed := (finder.get_image_files fs).2 in
  (∀ p, p ∈ images
        ↔ p ∈ names ∧ pathlib.is_file fs p
          ∧ py.lower (pathlib.suffix p) ∈ finder.supported_formats
          ∧ finder.safe_file_access fs p)
  ∧ (∀ p, finder.safe_file_access fs p
          ↔ pathlib.exists_ fs p ∧ pathlib.is_file fs p
            ∧ is_Some (pathlib.open_rb fs p))
  ∧ printed
    = AvisoInacessivel
        <$> filter (λ p, finder.candidate fs p ∧ ¬ finder.safe_file_access fs p)
                   names
  ∧ Sorted String.le images
  ∧ NoDup images
  ∧ ∀ fs' names',
      iterdir fs' = Some names' → nodes fs' = nodes fs → names' ≡ₚ names →
      (finder.get_image_files fs').1 = images.
Proof.
  intros Hnames images printed. split_and!.
  - intros p. subst images. rewrite (get_image_files_elem fs names p Hnames).
    unfold finder.candidate. tauto.
  - intros p. unfold finder.safe_file_access, pathlib.exists_, pathlib.is_file,
      pathlib.open_rb.
    destruct (nodes fs !! p) as [[|[] content]|]; cbn; split;
      try tauto; try (intros (_ & _ & [? [=]])); eauto.
  - subst printed. by rewrite (get_image_files_listed fs names Hnames).
  - apply get_image_files_sorted.
  - apply get_image_files_NoDup.
  - intros fs' names' Hnames' Hnodes Hperm.
    by apply (get_image_files_order fs fs' names names').
Qed.

Lemma C5_enumerator_witness :
  iterdir sample.mixed
  = Some ["b.PNG"; "a.jpg"; "notes.txt"; "d.jpeg"; "sub.png"; "c.png";
          "e.webp"; "g.bmp"]
  ∧ finder.get_image_files sample.mixed
    = (["a.jpg"; "b.PNG"; "c.png"; "d.jpeg"; "g.bmp"],
       [AvisoInacessivel "e.webp"])
  ∧ Sorted String.le (finder.get_image_files sample.mixed).1.
Proof.
  assert (Hnames : iterdir sample.mixed
                   = Some ["b.PNG"; "a.jpg"; "notes.txt"; "d.jpeg"; "sub.png";
                           "c.png"; "e.webp"; "g.bmp"]) by reflexivity.
  split; [exact Hnames|]. split; [vm_compute; reflexivity|].
  exact (proj1 (proj2 (proj2 (proj2 (C5_enumerator sample.mixed _ Hnames))))).
Defined.

(** ** The report *)

Section report.
Context {H : HashLib} {I : ImageLib}.

Lemma find_md5_duplicates_sizes scan digest self :
  Forall (λ kv : string * list string, 2 ≤ length kv.2)
    (md5_duplicates (finder.find_md5_duplicates scan digest self).1).
Proof.
  unfold finder.find_md5_duplicates.
  destruct (finder.get_image_files scan) as [images out0].
  destruct (foldl _ _ images) as [duplicates out]. cbn [fst md5_duplicates].
  apply Forall_forall. by intros kv [? _]%list_elem_of_filter.
Qed.

Lemma find_perceptual_duplicates_sizes fs threshold self :
  Forall (λ g, 2 ≤ length g)
    (perceptual_duplicates
       (finder.find_perceptual_duplicates fs threshold self).1).
Proof.
  rewrite find_perceptual_duplicates_groups.
  rewrite similar_groups_cluster
    by (apply phash_loop_keys_NoDup; constructor).
  apply cluster_sizes.
Qed.

Lemma find_perceptual_duplicates_keeps fs threshold self :
  md5_duplicates (finder.find_perceptual_duplicates fs threshold self).1
  = md5_duplicates self
  ∧ all_images (finder.find_perceptual_duplicates fs threshold self).1
    = all_images self.
Proof.
  unfold finder.find_perceptual_duplicates.
  by destruct (foldl _ _ (all_images self)).
Qed.

(** The finder [main] reports on. *)
Lemma stages_finder source_folder t :
  (finder.stages source_folder t).1
  = (finder.find_perceptual_duplicates (at_phash t) finder.threshold_085
       (finder.find_md5_duplicates (at_scan t) (at_md5 t)
          (finder.init source_folder)).1).1.
Proof.
  unfold finder.stages.
  destruct (finder.find_md5_duplicates _ _ _) as [finder1 out1].
  by destruct (finder.find_perceptual_duplicates _ _ _) as [finder2 out2].
Qed.

Lemma stages_md5_duplicates source_folder t :
  md5_duplicates (finder.stages source_folder t).1
  = md5_duplicates
      (finder.find_md5_duplicates (at_scan t) (at_md5 t)
         (finder.init source_folder)).1.
Proof.
  rewrite stages_finder. apply find_perceptual_duplicates_keeps.
Qed.

Lemma stages_all_images source_folder t :
  all_images (finder.stages source_folder t).1
  = (finder.get_image_files (at_scan t)).1.
Proof.
  rewrite stages_finder.
  destruct (find_perceptual_duplicates_keeps (at_phash t)
              finder.threshold_085
              (finder.find_md5_duplicates (at_scan t) (at_md5 t)
                 (finder.init source_folder)).1) as [_ ->].
  unfold finder.find_md5_duplicates.
  destruct (finder.get_image_files (at_scan t)) as [images out0].
  by destruct (foldl _ _ images).
Qed.

Lemma main_results source_folder now t r out :
  finder.main source_folder now t = (Some r, out) →
  r = finder.save_results_json now (finder.stages source_folder t).1.
Proof.
  unfold finder.main. destruct (negb _); [done|].
  destruct (finder.stages source_folder t) as [self out'].
  by intros [= <- _].
Qed.

Lemma save_results_json_sizes now self :
  Forall (λ kv : string * list string, 2 ≤ length kv.2) (md5_duplicates self) →
  Forall (λ g, 2 ≤ length g) (perceptual_duplicates self) →
  Forall (λ e : string * exact_entry, 2 ≤ length (files e.2))
    (results_md5 (finder.save_results_json now self))
  ∧ Forall (λ e, 2 ≤ length (similar_files e))
      (results_perceptual (finder.save_results_json now self)).
Proof.
  intros Hmd5 Hper. split; cbn [finder.save_results_json results_md5
                                  results_perceptual].
  - apply (foldl_invariant _ (λ e : nat * (string * list string),
                                2 ≤ length e.2.2)).
    + constructor.
    + by apply (enumerate_from_Forall
                  (λ kv : string * list string, 2 ≤ length kv.2)).
    + intros d e Hd He. apply dict_set_Forall; [|done].
      cbn [snd files]. by rewrite length_fmap.
  - apply (foldl_invariant _ (λ e : nat * list string, 2 ≤ length e.2)).
    + constructor.
    + by apply (enumerate_from_Forall (λ g : list string, 2 ≤ length g)).
    + intros d e Hd He. apply Forall_app. split; [done|].
      constructor; [|done]. cbn [similar_files]. by rewrite length_fmap.
Qed.
End report.

(** C3. In the report of every run, every exact group and every similar
    group has two members or more. *)
Theorem C3_groups_have_two_members {H : HashLib} {I : ImageLib}
    (source_folder now : string) (t : timeline) (r : results)
    (out : list message) :
  finder.main source_folder now t = (Some r, out) →
  Forall (λ e : string * exact_entry, 2 ≤ length (files e.2)) (results_md5 r)
  ∧ Forall (λ e, 2 ≤ length (similar_files e)) (results_perceptual r).
Proof.
  intros ->%main_results. apply save_results_json_sizes.
  - rewrite stages_md5_duplicates. apply find_md5_duplicates_sizes.
  - rewrite stages_finder. apply find_perceptual_duplicates_sizes.
Qed.

Lemma C3_groups_have_two_members_witness :
  finder.main "/photos" "2024-01-01T00:00:00" (static sample.mixed)
  = (Some {| timestamp := "2024-01-01T00:00:00";
             total_images := 5;
             results_md5 :=
               [("grupo_1",
                 {| hash := "01d3eb9eb6ddca5870f3c12e83bb0b54";
                    files := ["/photos/a.jpg"; "/photos/c.png"] |})];
             results_perceptual :=
               [{| grupo := 1;
                   similar_files := ["/photos/a.jpg"; "/photos/c.png"] |}] |},
     [AvisoInacessivel "e.webp"; ErroPerceptual "d.jpeg"])
  ∧ Forall (λ e : string * exact_entry, 2 ≤ length (files e.2))
      [("grupo_1",
        {| hash := "01d3eb9eb6ddca5870f3c12e83bb0b54";
           files := ["/photos/a.jpg"; "/photos/c.png"] |})].
Proof.
  assert (Hrun : finder.main "/photos" "2024-01-01T00:00:00"
                   (static sample.mixed)
                 = (Some {| timestamp := "2024-01-01T00:00:00";
                            total_images := 5;
                            results_md5 :=
                              [("grupo_1",
                                {| hash := "01d3eb9eb6ddca5870f3c12e83bb0b54";
                                   files := ["/photos/a.jpg"; "/photos/c.png"] |})];
                            results_perceptual :=
                              [{| grupo := 1;
                                  similar_files :=
                                    ["/photos/a.jpg"; "/photos/c.png"] |}] |},
                    [AvisoInacessivel "e.webp"; ErroPerceptual "d.jpeg"]))
    by (vm_compute; reflexivity).
  split; [exact Hrun|].
  exact (proj1 (C3_groups_have_two_members _ _ _ _ _ Hrun)).
Defined.

(** ** Exact groups *)

Lemma two_elements_length {A} (l : list A) (x y : A) :
  x ∈ l → y ∈ l → x ≠ y → 2 ≤ length l.
Proof.
  destruct l as [|a [|b l]]; simpl; [set_solver|set_solver|lia].
Qed.

Section exact_groups.
Context {H : HashLib}.
Implicit Types (scan digest : filesystem) (p k : string).

Lemma find_md5_duplicates_fields scan digest self :
  all_images (finder.find_md5_duplicates scan digest self).1
  = (finder.get_image_files scan).1
  ∧ md5_duplicates (finder.find_md5_duplicates scan digest self).1
    = filter (λ kv : string * list string, 1 < length kv.2)
        (foldl (finder.md5_step digest)
               (md5_duplicates self, (finder.get_image_files scan).2)
               (finder.get_image_files scan).1).1.
Proof.
  unfold finder.find_md5_duplicates.
  destruct (finder.get_image_files scan) as [images out0]. cbn [fst snd].
  by destruct (foldl _ _ images) as [duplicates out].
Qed.

(** The exact groups are the classes of the enumerated images under
    their digest, for the digests two images or more have. *)
Lemma exact_groups_classes scan digest source_folder k files :
  (k, files) ∈ md5_duplicates
                 (finder.find_md5_duplicates scan digest
                    (finder.init source_folder)).1
  ↔ files = filter (finder.has_digest digest k) (finder.get_image_files scan).1
    ∧ 2 ≤ length files.
Proof.
  destruct (find_md5_duplicates_fields scan digest (finder.init source_folder))
    as [_ ->].
  cbn [md5_duplicates finder.init].
  set (images := (finder.get_image_files scan).1).
  set (out0 := (finder.get_image_files scan).2).
  pose proof (md5_loop_get digest images [] out0 k) as Hget.
  assert (Hnd : NoDup (foldl (finder.md5_step digest) ([], out0) images).1.*1)
    by (apply md5_loop_NoDup; constructor).
  cbn [py.dict_get] in Hget.
  rewrite list_elem_of_filter. cbn [snd]. split.
  - intros [Hlen Hin]. apply (elem_dict_get _ _ _ Hnd) in Hin.
    rewrite Hin in Hget. split; [|done].
    destruct (filter _ images); congruence.
  - intros [-> Hlen]. split; [done|]. apply dict_get_elem. rewrite Hget.
    destruct (filter _ images); [simpl in Hlen; lia|done].
Qed.

(** Two enumerated images with one digest are in one exact group. *)
Lemma same_digest_share_group scan digest source_folder p1 p2 k :
  p1 ∈ (finder.get_image_files scan).1 →
  p2 ∈ (finder.get_image_files scan).1 →
  p1 ≠ p2 → k ≠ EmptyString →
  (finder.calculate_md5 digest p1).1 = k →
  (finder.calculate_md5 digest p2).1 = k →
  ∃ files,
    (k, files) ∈ md5_duplicates
                   (finder.find_md5_duplicates scan digest
                      (finder.init source_folder)).1
    ∧ p1 ∈ files ∧ p2 ∈ files.
Proof.
  intros Hp1 Hp2 Hne Hk H1 H2.
  set (files := filter (finder.has_digest digest k)
                       (finder.get_image_files scan).1).
  assert (p1 ∈ files) by (apply list_elem_of_filter; by repeat split).
  assert (p2 ∈ files) by (apply list_elem_of_filter; by repeat split).
  exists files. split_and!; try done.
  apply exact_groups_classes. split; [done|].
  by apply (two_elements_length files p1 p2).
Qed.

(** A member of an exact group is an enumerated image with the digest of
    the group. *)
Lemma exact_group_member scan digest source_folder k files p :
  (k, files) ∈ md5_duplicates
                 (finder.find_md5_duplicates scan digest
                    (finder.init source_folder)).1 →
  p ∈ files →
  p ∈ (finder.get_image_files scan).1
  ∧ (finder.calculate_md5 digest p).1 = k ∧ k ≠ EmptyString.
Proof.
  intros [-> _]%exact_groups_classes [[? ?] ?]%list_elem_of_filter. done.
Qed.

(** An image without digest takes no part in the loop. *)
Lemma md5_loop_without digest p images d out out' :
  (finder.calculate_md5 digest p).1 = EmptyString →
  (foldl (finder.md5_step digest) (d, out) images).1
  = (foldl (finder.md5_step digest) (d, out')
           (filter (λ q, q ≠ p) images)).1.
Proof.
  intros Hp. revert d out out'.
  induction images as [|q images IH]; intros d out out'; [done|].
  rewrite filter_cons. cbn [foldl].
  rewrite (surjective_pairing (finder.md5_step digest (d, out) q)).
  rewrite md5_step_dict. destruct (decide (q ≠ p)) as [Hq|Hq].
  - cbn [foldl].
    rewrite (surjective_pairing (finder.md5_step digest (d, out') q)).
    rewrite md5_step_dict. apply IH.
  - apply dec_stable in Hq as ->. rewrite decide_True by done. apply IH.
Qed.
End exact_groups.

(** C4. Two enumerated files that are read with the same bytes get the
    same digest: the digest of these bytes, fed in chunks of 4096 bytes at
    most, which reads as 32 lowercase hexadecimal digits; and one exact
    group holds both. *)
Theorem C4_identical_files_share_group {H : HashLib} (Hok : HashLib_ok H)
    (scan digest : filesystem) (source_folder : string)
    (p1 p2 : string) (content : list byte) :
  let self :=
    (finder.find_md5_duplicates scan digest (finder.init source_folder)).1 in
  p1 ∈ all_images self → p2 ∈ all_images self → p1 ≠ p2 →
  pathlib.open_rb digest p1 = Some content →
  pathlib.open_rb digest p2 = Some content →
  let md5 := (finder.calculate_md5 digest p1).1 in
  (finder.calculate_md5 digest p2).1 = md5
  ∧ md5 = md5_hexdigest
            (foldl md5_update md5_new (pathlib.read_chunks 4096 content))
  ∧ Forall (λ chunk, 0 < length chunk ≤ 4096) (pathlib.read_chunks 4096 content)
  ∧ md5 = md5_hexdigest (md5_update md5_new content)
  ∧ String.length md5 = 32
  ∧ string_forallb is_lower_hex md5 = true
  ∧ ∃ files, (md5, files) ∈ md5_duplicates self ∧ p1 ∈ files ∧ p2 ∈ files.
Proof.
  intros self Hp1 Hp2 Hne Hopen1 Hopen2 md5.
  assert (Hmd5 : md5 = md5_hexdigest (md5_update md5_new content))
    by (subst md5; by rewrite (calculate_md5_content Hok _ _ _ Hopen1)).
  assert (Hsame : (finder.calculate_md5 digest p2).1 = md5)
    by (by rewrite Hmd5, (calculate_md5_content Hok _ _ _ Hopen2)).
  assert (Hlen : String.length md5 = 32)
    by (rewrite Hmd5; apply (md5_hexdigest_length H Hok)).
  split_and!; try done.
  - subst md5. by rewrite (calculate_md5_chunks _ _ _ Hopen1).
  - apply read_chunks_sizes.
  - rewrite Hmd5. apply (md5_hexdigest_hex H Hok).
  - assert (Hk : md5 ≠ EmptyString) by (intros Heq; by rewrite Heq in Hlen).
    subst self.
    destruct (find_md5_duplicates_fields scan digest (finder.init source_folder))
      as [Himages _].
    rewrite Himages in Hp1, Hp2.
    by apply same_digest_share_group.
Qed.

(** ** The small implementation keeps the promises of the libraries *)

Lemma hex_char_lower (m : N) :
  (m < 16)%N → is_lower_hex (sample.hex_char m) = true.
Proof.
  intros Hm. rewrite <- (N2Nat.id m).
  assert (Hk : N.to_nat m < 16) by lia.
  revert Hk. generalize (N.to_nat m). clear. intros k Hk.
  do 16 (destruct k as [|k]; [reflexivity|]). lia.
Qed.

Lemma hex_digits_length k n : String.length (sample.hex_digits k n) = k.
Proof. revert n. induction k as [|k IH]; intros n; simpl; by rewrite ?IH. Qed.

Lemma hex_digits_lower k n :
  string_forallb is_lower_hex (sample.hex_digits k n) = true.
Proof.
  revert n. induction k as [|k IH]; intros n; [done|].
  cbn [sample.hex_digits string_forallb].
  rewrite IH, hex_char_lower; [done|]. by apply N.mod_lt.
Qed.

Lemma sample_hashlib_ok : HashLib_ok sample.hashlib.
Proof.
  split.
  - intros s a b. cbn. by rewrite <- app_assoc.
  - intros s. cbn. by rewrite app_nil_r.
  - intros s. apply (hex_digits_length 32).
  - intros s. apply (hex_digits_lower 32).
Qed.

Lemma char_nibble_char b3 b2 b1 b0 :
  sample.char_nibble (sample.nibble_char b3 b2 b1 b0) = Some [b3; b2; b1; b0].
Proof. by destruct b3, b2, b1, b0. Qed.

Lemma hex_to_bits_to_hex k (h : list bool) :
  length h = 4 * k → sample.hex_to_bits (sample.bits_to_hex h) = Some h.
Proof.
  revert h. induction k as [|k IH]; intros h Hlen.
  - by destruct h.
  - destruct h as [|b3 [|b2 [|b1 [|b0 h]]]]; simpl in Hlen; try lia.
    cbn [sample.bits_to_hex sample.hex_to_bits].
    rewrite char_nibble_char, IH by lia. done.
Qed.

Lemma concat_fmap_length {A B} (f : A → list B) (l : list A) n :
  (∀ x, length (f x) = n) → length (concat (f <$> l)) = length l * n.
Proof.
  intros Hf. induction l as [|x l IH]; [done|].
  cbn. rewrite length_app, Hf. cbn in IH. rewrite IH. lia.
Qed.

Lemma sample_imagelib_ok : ImageLib_ok sample.imagelib.
Proof.
  split.
  - intros img n h. cbn. unfold sample.difference_hash. case_decide; [|done].
    intros [= <-]. rewrite (concat_fmap_length _ _ n).
    + by rewrite length_seq.
    + intros row. unfold sample.row_bits. by rewrite length_fmap, length_seq.
  - intros h Hlen. by destruct h as [|b3 [|b2 [|b1 [|b0 h]]]].
  - intros h Hlen. by apply (hex_to_bits_to_hex 64).
Qed.

Lemma C4_identical_files_share_group_witness :
  ∃ files,
    ("01d3eb9eb6ddca5870f3c12e83bb0b54", files) ∈ md5_duplicates sample.scanned
    ∧ "a.jpg" ∈ files ∧ "c.png" ∈ files.
Proof.
  assert (H1 : "a.jpg" ∈ all_images sample.scanned)
    by (vm_compute; repeat constructor).
  assert (H2 : "c.png" ∈ all_images sample.scanned)
    by (vm_compute; repeat constructor).
  assert (Hne : "a.jpg" ≠ "c.png") by discriminate.
  assert (Ho1 : pathlib.open_rb sample.mixed "a.jpg" = Some sample.flat)
    by reflexivity.
  assert (Ho2 : pathlib.open_rb sample.mixed "c.png" = Some sample.flat)
    by reflexivity.
  destruct (C4_identical_files_share_group sample_hashlib_ok
              sample.mixed sample.mixed "/photos" "a.jpg" "c.png" sample.flat
              H1 H2 Hne Ho1 Ho2)
    as (_ & _ & _ & _ & _ & _ & Hgroup).
  exact Hgroup.
Defined.

(** C6. For a file that cannot be opened for reading when it is digested,
    [calculate_md5] returns the empty string (it raises nothing); the file
    is in no exact group; and the groups are those the loop computes on the
    other files. *)
Theorem C6_unreadable_at_digest_time {H : HashLib}
    (scan digest : filesystem) (source_folder : string) (p : string) :
  pathlib.open_rb digest p = None →
  let self :=
    (finder.find_md5_duplicates scan digest (finder.init source_folder)).1 in
  (finder.calculate_md5 digest p).1 = EmptyString
  ∧ (∀ k files, (k, files) ∈ md5_duplicates self → p ∉ files)
  ∧ md5_duplicates self
    = filter (λ kv : string * list string, 1 < length kv.2)
        (foldl (finder.md5_step digest) ([], [])
               (filter (λ q, q ≠ p) (all_images self))).1.
Proof.
  intros Hopen self.
  assert (Hsafe : finder.safe_file_access digest p = false).
  { destruct (finder.safe_file_access digest p) eqn:Hs; [|done].
    apply safe_file_access_open in Hs as [content Hc]. congruence. }
  assert (Hmd5 : (finder.calculate_md5 digest p).1 = EmptyString)
    by (by rewrite calculate_md5_unreadable).
  split_and!; [done| |].
  - intros k files Hgroup Hin.
    destruct (exact_group_member _ _ _ _ _ _ Hgroup Hin) as (_ & Hk & Hne).
    congruence.
  - subst self.
    destruct (find_md5_duplicates_fields scan digest (finder.init source_folder))
      as [-> ->].
    f_equal. by apply md5_loop_without.
Qed.

Lemma C6_unreadable_at_digest_time_witness :
  "a.jpg" ∈ (finder.get_image_files sample.mixed).1
  ∧ pathlib.open_rb sample.mixed_later "a.jpg" = None
  ∧ (finder.calculate_md5 sample.mixed_later "a.jpg").1 = EmptyString
  ∧ ∀ k files,
      (k, files) ∈ md5_duplicates
                     (finder.find_md5_duplicates sample.mixed
                        sample.mixed_later (finder.init "/photos")).1 →
      "a.jpg" ∉ files.
Proof.
  assert (Hopen : pathlib.open_rb sample.mixed_later "a.jpg" = None)
    by reflexivity.
  split; [vm_compute; repeat constructor|]. split; [exact Hopen|].
  destruct (C6_unreadable_at_digest_time sample.mixed sample.mixed_later
              "/photos" "a.jpg" Hopen) as (Hmd5 & Hgroups & _).
  split; [exact Hmd5|exact Hgroups].
Defined.

(** ** Messages and fingerprints of the second stage *)

Section phash_messages.
Context {H : HashLib} {I : ImageLib}.
Implicit Types (fs : filesystem) (p : string).

(** A readable file that does not decode gets no fingerprint, and the
    failure is printed. *)
Lemma calculate_perceptual_hash_undecoded fs p content :
  pathlib.open_rb fs p = Some content →
  (∀ img, Image_open content = Some img → dhash img 16 = None) →
  finder.calculate_perceptual_hash fs p = (EmptyString, [ErroPerceptual p]).
Proof.
  intros Hopen Hfail. unfold finder.calculate_perceptual_hash.
  assert (finder.safe_file_access fs p = true) as ->
    by (apply safe_file_access_open; eauto).
  cbn [negb]. rewrite Hopen.
  destruct (Image_open content) as [img|] eqn:Himg; [|done].
  by rewrite (Hfail img eq_refl).
Qed.

Lemma phash_step_out fs image_hashes out p :
  ∃ more, (finder.phash_step fs (image_hashes, out) p).2
          = out ++ (finder.calculate_perceptual_hash fs p).2 ++ more.
Proof.
  unfold finder.phash_step.
  destruct (finder.calculate_perceptual_hash fs p) as [phash printed].
  cbn [snd]. case_decide.
  - exists []. by rewrite app_nil_r.
  - destruct (hex_to_hash phash).
    + exists []. by rewrite app_nil_r.
    + by eexists.
Qed.

(** What is printed stays printed, and what the hashing of an image
    prints is printed by the loop. *)
Lemma phash_loop_out fs images st m :
  m ∈ st.2
  ∨ (∃ p, p ∈ images ∧ m ∈ (finder.calculate_perceptual_hash fs p).2) →
  m ∈ (foldl (finder.phash_step fs) st images).2.
Proof.
  revert st. induction images as [|q images IH]; intros [d out].
  - intros [?|(p & ?%not_elem_of_nil & _)]; done.
  - intros Hm. cbn [foldl]. apply IH.
    destruct (phash_step_out fs d out q) as [more ->].
    rewrite !elem_of_app.
    destruct Hm as [?|(p & [->|?]%elem_of_cons & ?)]; eauto.
Qed.

(** An image without fingerprint takes no part in the loop. *)
Lemma phash_loop_without fs p images d out out' :
  finder.fingerprint fs p = None →
  (foldl (finder.phash_step fs) (d, out) images).1
  = (foldl (finder.phash_step fs) (d, out')
           (filter (λ q, q ≠ p) images)).1.
Proof.
  intros Hp. revert d out out'.
  induction images as [|q images IH]; intros d out out'; [done|].
  rewrite filter_cons. cbn [foldl].
  rewrite (surjective_pairing (finder.phash_step fs (d, out) q)).
  rewrite phash_step_fingerprint. destruct (decide (q ≠ p)) as [Hq|Hq].
  - cbn [foldl].
    rewrite (surjective_pairing (finder.phash_step fs (d, out') q)).
    rewrite phash_step_fingerprint. apply IH.
  - apply dec_stable in Hq as ->. rewrite Hp. apply IH.
Qed.

(** The keys of [image_hashes] are images that got a fingerprint. *)
Lemma phash_loop_keys fs images d out p :
  p ∈ (foldl (finder.phash_step fs) (d, out) images).1.*1 →
  p ∈ d.*1 ∨ (p ∈ images ∧ is_Some (finder.fingerprint fs p)).
Proof.
  revert d out. induction images as [|q images IH]; intros d out; [by left|].
  cbn [foldl].
  rewrite (surjective_pairing (finder.phash_step fs (d, out) q)).
  rewrite phash_step_fingerprint. intros [Hin|[Hin Hf]]%IH.
  - destruct (finder.fingerprint fs q) as [h|] eqn:Hq; [|by left].
    apply dict_set_keys_subseteq in Hin as [->|?]; [|by left].
    right. split; [left|by rewrite Hq].
  - right. split; [by right|done].
Qed.

(** A member of a similar group is an image that got a fingerprint. *)
Lemma similar_group_member fs threshold self g p :
  g ∈ perceptual_duplicates
        (finder.find_perceptual_duplicates fs threshold self).1 →
  p ∈ g →
  p ∈ all_images self ∧ is_Some (finder.fingerprint fs p).
Proof.
  rewrite find_perceptual_duplicates_groups.
  rewrite similar_groups_cluster
    by (apply phash_loop_keys_NoDup; constructor).
  intros Hg Hp.
  assert (Hin : p ∈ concat (spec.cluster (clusterer.meets threshold)
                  (foldl (finder.phash_step fs) ([], []) (all_images self)).1
                  ∅)) by (apply elem_of_concat; eauto).
  apply cluster_members in Hin as [Hkey _].
  apply phash_loop_keys in Hkey as [?%not_elem_of_nil|?]; done.
Qed.
End phash_messages.

(** C7. A readable file whose decoding fails gets the empty fingerprint,
    with the failure printed and nothing raised; it is in no similar group,
    and the similar groups are those computed on the other images.  It
    still has its digest, and shares an exact group with any other
    enumerated file of the same bytes. *)
Theorem C7_decode_failure {H : HashLib} {I : ImageLib} (Hok : HashLib_ok H)
    (fs : filesystem) (threshold : Q) (self : DuplicateFinder)
    (p : string) (content : list byte) :
  pathlib.open_rb fs p = Some content →
  (∀ img, Image_open content = Some img → dhash img 16 = None) →
  let groups :=
    perceptual_duplicates
      (finder.find_perceptual_duplicates fs threshold self).1 in
  finder.calculate_perceptual_hash fs p = (EmptyString, [ErroPerceptual p])
  ∧ finder.fingerprint fs p = None
  ∧ (∀ g, g ∈ groups → p ∉ g)
  ∧ groups
    = clusterer.similar_groups threshold
        (foldl (finder.phash_step fs) ([], [])
               (filter (λ q, q ≠ p) (all_images self))).1
  ∧ (finder.calculate_md5 fs p).1 = md5_hexdigest (md5_update md5_new content)
  ∧ ∀ scan source_folder q,
      p ∈ (finder.get_image_files scan).1 →
      q ∈ (finder.get_image_files scan).1 →
      q ≠ p →
      pathlib.open_rb fs q = Some content →
      ∃ k files,
        (k, files) ∈ md5_duplicates
                       (finder.find_md5_duplicates scan fs
                          (finder.init source_folder)).1
        ∧ p ∈ files ∧ q ∈ files.
Proof.
  intros Hopen Hfail groups.
  pose proof (calculate_perceptual_hash_undecoded fs p content Hopen Hfail)
    as Hphash.
  assert (Hnone : finder.fingerprint fs p = None)
    by (unfold finder.fingerprint; rewrite Hphash; by rewrite decide_True).
  assert (Hmd5 : (finder.calculate_md5 fs p).1
                 = md5_hexdigest (md5_update md5_new content))
    by (by rewrite (calculate_md5_content Hok _ _ _ Hopen)).
  split_and!; try done.
  - intros g Hg Hp.
    destruct (similar_group_member fs threshold self g p Hg Hp) as [_ Hsome].
    rewrite Hnone in Hsome. by destruct Hsome.
  - subst groups. rewrite find_perceptual_duplicates_groups. f_equal.
    by apply phash_loop_without.
  - intros scan source_folder q Hp Hq Hne Hopenq.
    exists (md5_hexdigest (md5_update md5_new content)).
    apply same_digest_share_group; try done.
    + intros Heq. pose proof (md5_hexdigest_length H Hok
                                (md5_update md5_new content)) as Hlen.
      by rewrite Heq in Hlen.
    + by rewrite (calculate_md5_content Hok _ _ _ Hopenq).
Qed.

Lemma C7_decode_failure_witness :
  finder.fingerprint sample.two_corrupt "x.jpg" = None
  ∧ perceptual_duplicates
      (finder.stages "/photos" (static sample.two_corrupt)).1 = []
  ∧ ∃ k files,
      (k, files) ∈ md5_duplicates
                     (finder.stages "/photos" (static sample.two_corrupt)).1
      ∧ "x.jpg" ∈ files ∧ "y.jpg" ∈ files.
Proof.
  assert (Hopen : pathlib.open_rb sample.two_corrupt "x.jpg"
                  = Some sample.garbage) by reflexivity.
  assert (Hfail : ∀ img, Image_open sample.garbage = Some img
                         → dhash img 16 = None) by (intros img [=]).
  destruct (C7_decode_failure sample_hashlib_ok sample.two_corrupt
              finder.threshold_085 (finder.init "/photos") "x.jpg"
              sample.garbage Hopen Hfail)
    as (_ & Hnone & _ & _ & _ & Hexact).
  split; [exact Hnone|]. split; [vm_compute; reflexivity|].
  destruct (Hexact sample.two_corrupt "/photos" "y.jpg") as (k & files & Hin);
    [vm_compute; repeat constructor..|discriminate|reflexivity|].
  exists k, files. rewrite stages_md5_duplicates. exact Hin.
Defined.

(** ** The similarity score *)

(** On 256-bit fingerprints the score of the code is four times the score
    of the specification, less three: it runs from -3 to 1. *)
Lemma similarity_of_256_bits (h1 h2 : ImageHash) :
  length h1 = 256 →
  (clusterer.similarity (imagehash.count_differing h1 h2)
   == 4 * spec.similarity h1 h2 - 3)%Q.
Proof.
  intros Hlen. unfold clusterer.similarity, spec.similarity. rewrite Hlen.
  change (inject_Z (Z.of_nat 256)) with (256 # 1)%Q. field.
Qed.

(** The score of two fingerprints of one size is computed, and compared
    with the threshold, from the distance divided by 64. *)
Lemma joins_same_size threshold (h1 h2 : ImageHash) :
  length h1 = length h2 →
  clusterer.joins threshold h1 h2
  = Some (Qle_bool threshold
            (1 - inject_Z (Z.of_nat (imagehash.count_differing h1 h2)) / 64)%Q).
Proof.
  intros Hlen. unfold clusterer.joins, clusterer.similarity, imagehash.sub.
  by rewrite decide_True.
Qed.

(** With libraries that keep their promises, every fingerprint the first
    loop stores has 256 bits. *)
Lemma fingerprint_length {H : HashLib} {I : ImageLib} (Hok : ImageLib_ok I)
    (fs : filesystem) (p : string) (h : ImageHash) :
  finder.fingerprint fs p = Some h → length h = 256.
Proof.
  unfold finder.fingerprint, finder.calculate_perceptual_hash.
  destruct (negb _); cbn [fst]; [by rewrite decide_True|].
  destruct (pathlib.open_rb fs p) as [f|]; [|by rewrite decide_True].
  destruct (Image_open f) as [img|]; [|by rewrite decide_True].
  destruct (dhash img 16) as [dh|] eqn:Hdh; [|by rewrite decide_True].
  apply (dhash_size I Hok) in Hdh. change (16 * 16) with 256 in Hdh.
  cbn [fst]. case_decide; [done|].
  rewrite (hex_to_hash_str I Hok) by done. by intros [= <-].
Qed.

(** So the comparison of two stored fingerprints never raises, and its
    score is the distance over 64 taken from 1: four times the score of
    the specification, less three. *)
Lemma compared_pair_score {H : HashLib} {I : ImageLib} (Hok : ImageLib_ok I)
    (fs : filesystem) (threshold : Q) (p1 p2 : string) (h1 h2 : ImageHash) :
  finder.fingerprint fs p1 = Some h1 →
  finder.fingerprint fs p2 = Some h2 →
  clusterer.joins threshold h1 h2
  = Some (Qle_bool threshold
            (clusterer.similarity (imagehash.count_differing h1 h2)))
  ∧ (clusterer.similarity (imagehash.count_differing h1 h2)
     == 4 * spec.similarity h1 h2 - 3)%Q.
Proof.
  intros Hlen1%(fingerprint_length Hok) Hlen2%(fingerprint_length Hok).
  split; [|by apply similarity_of_256_bits].
  apply joins_same_size. congruence.
Qed.

(** C1, on two images whose 256-bit fingerprints differ in 32 bits: the
    specification scores them 1 - 32/256 = 7/8, above the threshold 0.85,
    so they are one group; the code scores them 1 - 32/64 = 1/2 and does
    not group them. *)
Theorem C1_similarity_divides_by_64 :
  ∃ h1 h2,
    finder.fingerprint sample.two_alike "a.jpg" = Some h1
    ∧ finder.fingerprint sample.two_alike "b.png" = Some h2
    ∧ length h1 = 256 ∧ length h2 = 256
    ∧ imagehash.sub h1 h2 = Some 32
    ∧ (spec.similarity h1 h2 == 7 # 8)%Q
    ∧ spec.similar finder.threshold_085 h1 h2 = true
    ∧ spec.cluster (spec.similar finder.threshold_085)
        [("a.jpg", h1); ("b.png", h2)] ∅ = [["a.jpg"; "b.png"]]
    ∧ (clusterer.similarity 32 == 1 # 2)%Q
    ∧ clusterer.joins finder.threshold_085 h1 h2 = Some false
    ∧ perceptual_duplicates
        (finder.stages "/photos" (static sample.two_alike)).1 = [].
Proof.
  eexists _, _. split; [vm_compute; reflexivity|].
  split; [vm_compute; reflexivity|].
  split_and!; vm_compute; reflexivity.
Qed.

(** ** What a run prints and reports *)

Section run.
Context {H : HashLib} {I : ImageLib}.

Lemma md5_loop_out fs images st m :
  m ∈ st.2 → m ∈ (foldl (finder.md5_step fs) st images).2.
Proof.
  revert st. induction images as [|p images IH]; intros [d out] Hm; [done|].
  cbn [foldl]. apply IH. unfold finder.md5_step.
  destruct (finder.calculate_md5 fs p) as [md5 printed]. cbn [snd] in *.
  apply elem_of_app. by left.
Qed.

Lemma find_md5_duplicates_out scan digest self m :
  m ∈ (finder.get_image_files scan).2 →
  m ∈ (finder.find_md5_duplicates scan digest self).2.
Proof.
  intros Hm. unfold finder.find_md5_duplicates.
  destruct (finder.get_image_files scan) as [images out0]. cbn [snd] in Hm.
  pose proof (md5_loop_out digest images (md5_duplicates self, out0) m Hm).
  by destruct (foldl _ _ images).
Qed.

Lemma find_perceptual_duplicates_out fs threshold self :
  (finder.find_perceptual_duplicates fs threshold self).2
  = (foldl (finder.phash_step fs) ([], []) (all_images self)).2.
Proof.
  unfold finder.find_perceptual_duplicates.
  by destruct (foldl _ _ (all_images self)).
Qed.

Lemma stages_out source_folder t :
  (finder.stages source_folder t).2
  = (finder.find_md5_duplicates (at_scan t) (at_md5 t)
       (finder.init source_folder)).2
    ++ (finder.find_perceptual_duplicates (at_phash t) finder.threshold_085
          (finder.find_md5_duplicates (at_scan t) (at_md5 t)
             (finder.init source_folder)).1).2.
Proof.
  unfold finder.stages.
  destruct (finder.find_md5_duplicates _ _ _) as [finder1 out1].
  by destruct (finder.find_perceptual_duplicates _ _ _) as [finder2 out2].
Qed.

Lemma main_runs source_folder now t :
  source_exists (at_scan t) = true →
  finder.main source_folder now t
  = (Some (finder.save_results_json now (finder.stages source_folder t).1),
     (finder.stages source_folder t).2).
Proof.
  intros Hexists. unfold finder.main. rewrite Hexists.
  by destruct (finder.stages source_folder t).
Qed.

Lemma stages_source_dir source_folder t :
  source_dir (finder.stages source_folder t).1 = source_folder.
Proof.
  unfold finder.stages, finder.find_md5_duplicates,
    finder.find_perceptual_duplicates.
  destruct (finder.get_image_files (at_scan t)) as [images out0].
  destruct (foldl (finder.md5_step _) _ images) as [duplicates out].
  cbn [all_images].
  by destruct (foldl (finder.phash_step _) _ images).
Qed.

Global Instance str_path_inj self : Inj (=) (=) (finder.str_path self).
Proof.
  intros f1 f2 Heq. unfold finder.str_path in Heq.
  repeat case_decide; [by do 2 apply String.app_inj in Heq| |done].
  by apply String.app_inj in Heq.
Qed.

(** The groups of the report are the groups of the finder, with the
    paths written out. *)
Lemma save_results_json_groups now self :
  Forall (λ e : string * exact_entry,
            ∃ kv, kv ∈ md5_duplicates self
                  ∧ files e.2 = finder.str_path self <$> kv.2)
    (results_md5 (finder.save_results_json now self))
  ∧ Forall (λ e, ∃ g, g ∈ perceptual_duplicates self
                      ∧ similar_files e = finder.str_path self <$> g)
      (results_perceptual (finder.save_results_json now self)).
Proof.
  split; cbn [finder.save_results_json results_md5 results_perceptual].
  - apply (foldl_invariant _ (λ e : nat * (string * list string),
                                e.2 ∈ md5_duplicates self)).
    + constructor.
    + apply (enumerate_from_Forall (λ kv, kv ∈ md5_duplicates self)).
      by apply Forall_forall.
    + intros d e Hd He. apply dict_set_Forall; [|done]. by exists e.2.
  - apply (foldl_invariant _ (λ e : nat * list string,
                                e.2 ∈ perceptual_duplicates self)).
    + constructor.
    + apply (enumerate_from_Forall (λ g, g ∈ perceptual_duplicates self)).
      by apply Forall_forall.
    + intros d e Hd He. apply Forall_app. split; [done|].
      constructor; [|done]. by exists e.2.
Qed.

(** A path that is in no group of the finder is in no group of the
    report. *)
Lemma save_results_json_absent now self p :
  (∀ kv, kv ∈ md5_duplicates self → p ∉ kv.2) →
  Forall (λ e : string * exact_entry, finder.str_path self p ∉ files e.2)
    (results_md5 (finder.save_results_json now self)).
Proof.
  intros Habsent. eapply Forall_impl;
    [apply (proj1 (save_results_json_groups now self))|].
  intros e (kv & Hkv & Heq) Hin. apply (Habsent kv Hkv).
  rewrite Heq in Hin.
  exact (proj1 (list_elem_of_fmap_inj (finder.str_path self) _ _) Hin).
Qed.

Lemma save_results_json_absent_similar now self p :
  (∀ g, g ∈ perceptual_duplicates self → p ∉ g) →
  Forall (λ e, finder.str_path self p ∉ similar_files e)
    (results_perceptual (finder.save_results_json now self)).
Proof.
  intros Habsent. eapply Forall_impl;
    [apply (proj2 (save_results_json_groups now self))|].
  intros e (g & Hg & Heq) Hin. apply (Habsent g Hg).
  rewrite Heq in Hin.
  exact (proj1 (list_elem_of_fmap_inj (finder.str_path self) _ _) Hin).
Qed.
End run.

(** C8, as stated, fails on a corrupt file that can be read: the directory
    holds a file that does not decode and two images that decode, of
    distinct bytes, and the reported [total_images] is 3. *)
Lemma C8_corrupt_file_counted :
  finder.fingerprint sample.with_corrupt "c.jpg" = None
  ∧ is_Some (finder.fingerprint sample.with_corrupt "a.jpg")
  ∧ is_Some (finder.fingerprint sample.with_corrupt "b.png")
  ∧ sample.flat ≠ sample.ramp
  ∧ total_images
      <$> (finder.main "/photos" "2024-01-01T00:00:00"
             (static sample.with_corrupt)).1
    = Some 3.
Proof.
  split_and!; [vm_compute; reflexivity|vm_compute; eauto..|discriminate|].
  vm_compute. reflexivity.
Qed.

(** C8, amended.  In a directory of three image files, two of them
    readable: when the third fails the readability probe, a run reports
    [total_images] 2, prints the warning for it, and lists it in no group;
    when the third is readable but does not decode, it is counted, the run
    reports [total_images] 3, prints the error of the fingerprinter for it,
    and lists it in no similar group. *)
Theorem C8_unreadable_or_corrupt {H : HashLib} {I : ImageLib}
    (fs : filesystem) (names : list string) (source_folder now : string)
    (bad v1 v2 : string) (readable : bool) (c c1 c2 : list byte) :
  source_exists fs = true →
  iterdir fs = Some names →
  names ≡ₚ [bad; v1; v2] →
  NoDup [bad; v1; v2] →
  (∀ x, x ∈ [bad; v1; v2] →
        py.lower (pathlib.suffix x) ∈ finder.supported_formats) →
  nodes fs !! v1 = Some (File true c1) →
  nodes fs !! v2 = Some (File true c2) →
  nodes fs !! bad = Some (File readable c) →
  (readable = true → ∀ img, Image_open c = Some img → dhash img 16 = None) →
  let reported := finder.str_path (finder.init source_folder) bad in
  ∃ r out,
    finder.main source_folder now (static fs) = (Some r, out)
    ∧ if readable then
        total_images r = 3
        ∧ ErroPerceptual bad ∈ out
        ∧ Forall (λ e, reported ∉ similar_files e) (results_perceptual r)
      else
        total_images r = 2
        ∧ AvisoInacessivel bad ∈ out
        ∧ Forall (λ e : string * exact_entry, reported ∉ files e.2)
            (results_md5 r)
        ∧ Forall (λ e, reported ∉ similar_files e) (results_perceptual r).
Proof.
  intros Hexists Hnames Hperm Hnd Hext Hv1 Hv2 Hbad Hcorrupt reported.
  set (self := (finder.stages source_folder (static fs)).1).
  set (images := (finder.get_image_files fs).1).
  assert (Hreported : reported = finder.str_path self bad).
  { subst reported self. unfold finder.str_path.
    by rewrite stages_source_dir. }
  assert (Hall : all_images self = images)
    by apply (stages_all_images source_folder (static fs)).
  assert (Hcand : ∀ x, x ∈ [bad; v1; v2] → finder.candidate fs x).
  { intros x Hx. split; [|by apply Hext].
    unfold pathlib.is_file.
    apply elem_of_cons in Hx as [->|Hx]; [by rewrite Hbad|].
    apply elem_of_cons in Hx as [->|Hx]; [by rewrite Hv1|].
    apply list_elem_of_singleton in Hx as ->. by rewrite Hv2. }
  assert (Hs1 : finder.safe_file_access fs v1 = true)
    by (apply safe_file_access_node; eauto).
  assert (Hs2 : finder.safe_file_access fs v2 = true)
    by (apply safe_file_access_node; eauto).
  assert (Hsbad : finder.safe_file_access fs bad = readable).
  { destruct readable; [apply safe_file_access_node; eauto|].
    destruct (finder.safe_file_access fs bad) eqn:Hs; [|done].
    apply safe_file_access_node in Hs as [c' Hc']. congruence. }
  assert (Himages : ∀ x, x ∈ images
                         ↔ x ∈ [bad; v1; v2] ∧ finder.safe_file_access fs x).
  { intros x. subst images. rewrite (get_image_files_elem fs names x Hnames).
    rewrite Hperm. naive_solver. }
  eexists _, _. split; [by apply main_runs|].
  fold self. cbn [finder.save_results_json total_images].
  rewrite Hall, stages_out. cbn [static at_scan at_md5 at_phash].
  destruct readable.
  - assert (Hthree : images ≡ₚ [bad; v1; v2]).
    { apply NoDup_Permutation; [apply get_image_files_NoDup|done|].
      intros x. rewrite Himages. split; [tauto|]. intros Hx. split; [done|].
      apply elem_of_cons in Hx as [->|Hx]; [by rewrite Hsbad|].
      apply elem_of_cons in Hx as [->|Hx]; [by rewrite Hs1|].
      apply list_elem_of_singleton in Hx as ->. by rewrite Hs2. }
    assert (Hopen : pathlib.open_rb fs bad = Some c) by (by apply open_rb_node).
    split_and!.
    + by rewrite Hthree.
    + apply elem_of_app. right. rewrite find_perceptual_duplicates_out.
      apply phash_loop_out. right. exists bad. split.
      * destruct (find_md5_duplicates_fields fs fs (finder.init source_folder))
          as [-> _].
        fold images. rewrite Hthree. left.
      * rewrite (calculate_perceptual_hash_undecoded fs bad c Hopen
                   (Hcorrupt eq_refl)). left.
    + rewrite Hreported. apply save_results_json_absent_similar.
      intros g Hg Hin. subst self. rewrite stages_finder in Hg.
      destruct (similar_group_member _ _ _ _ _ Hg Hin) as [_ Hsome].
      unfold finder.fingerprint in Hsome. cbn [static at_phash] in Hsome.
      rewrite (calculate_perceptual_hash_undecoded fs bad c Hopen
                 (Hcorrupt eq_refl)) in Hsome.
      rewrite decide_True in Hsome by done. by destruct Hsome.
  - assert (Htwo : images ≡ₚ [v1; v2]).
    { apply NoDup_cons in Hnd as [Hfresh Hnd].
      apply NoDup_Permutation; [apply get_image_files_NoDup|done|].
      intros x. rewrite Himages. split.
      - intros [Hx Hsafe]. apply elem_of_cons in Hx as [->|Hx]; [|done].
        by rewrite Hsbad in Hsafe.
      - intros Hx. split; [by right|].
        apply elem_of_cons in Hx as [->|Hx]; [by rewrite Hs1|].
        apply list_elem_of_singleton in Hx as ->. by rewrite Hs2. }
    assert (Hout : bad ∉ images).
    { rewrite Himages, Hsbad. by intros [_ ?]. }
    split_and!.
    + by rewrite Htwo.
    + apply elem_of_app. left. apply find_md5_duplicates_out.
      rewrite (get_image_files_listed fs names Hnames). cbn [snd].
      apply list_elem_of_fmap_2, list_elem_of_filter. split.
      * split; [apply Hcand; left|]. rewrite Hsbad. cbn. tauto.
      * rewrite Hperm. left.
    + rewrite Hreported. apply save_results_json_absent.
      intros [k members] Hkv Hin. subst self.
      rewrite stages_md5_duplicates in Hkv.
      by destruct (exact_group_member _ _ _ _ _ _ Hkv Hin) as (? & _).
    + rewrite Hreported. apply save_results_json_absent_similar.
      intros g Hg Hin. subst self. rewrite stages_finder in Hg.
      destruct (similar_group_member _ _ _ _ _ Hg Hin) as [Himg _].
      apply Hout. cbn [static at_scan at_md5] in Himg.
      destruct (find_md5_duplicates_fields fs fs (finder.init source_folder))
        as [Hfields _].
      by rewrite Hfields in Himg.
Qed.

Lemma C8_unreadable_or_corrupt_witness :
  ∃ r out,
    finder.main "/photos" "2024-01-01T00:00:00" (static sample.with_unreadable)
    = (Some r, out)
    ∧ total_images r = 2
    ∧ AvisoInacessivel "c.jpg" ∈ out
    ∧ Forall (λ e : string * exact_entry, "/photos/c.jpg" ∉ files e.2)
        (results_md5 r)
    ∧ Forall (λ e, "/photos/c.jpg" ∉ similar_files e) (results_perceptual r).
Proof.
  assert (Hperm : ["a.jpg"; "b.png"; "c.jpg"] ≡ₚ ["c.jpg"; "a.jpg"; "b.png"])
    by solve_Permutation.
  assert (Hnd : NoDup ["c.jpg"; "a.jpg"; "b.png"])
    by (apply (bool_decide_unpack _); vm_compute; exact I).
  assert (Hext : ∀ x, x ∈ ["c.jpg"; "a.jpg"; "b.png"] →
                      py.lower (pathlib.suffix x) ∈ finder.supported_formats).
  { intros x Hx. repeat (apply elem_of_cons in Hx as [->|Hx]);
      [vm_compute; set_solver..|by apply not_elem_of_nil in Hx]. }
  exact (C8_unreadable_or_corrupt sample.with_unreadable
           ["a.jpg"; "b.png"; "c.jpg"] "/photos" "2024-01-01T00:00:00"
           "c.jpg" "a.jpg" "b.png" false sample.garbage sample.flat sample.ramp
           eq_refl eq_refl Hperm Hnd Hext eq_refl eq_refl eq_refl
           (λ Hr : false = true, False_rect _ (diff_false_true Hr))).
Defined.

(** ** The delete executor *)

Section delete_executor.
Import deleter.
Implicit Types (d : disk) (st : state) (p : string).

Lemma copy2_Some src dst d d' target :
  copy2 src dst d = Some (d', target) →
  ∃ content,
    tree d !! src = Some (File true content)
    ∧ target ≠ src
    ∧ (target = dst ∨ target = joinpath dst (name src))
    ∧ d' = {| tree := <[target := File true content]> (tree d);
              protected := protected d |}.
Proof.
  unfold copy2.
  set (t := match tree d !! dst with
            | Some Dir => joinpath dst (name src)
            | _ => dst
            end).
  assert (Ht : t = dst ∨ t = joinpath dst (name src))
    by (subst t; destruct (tree d !! dst) as [[]|]; auto).
  destruct (tree d !! src) as [[|[] content]|]; try done.
  repeat case_decide; try done.
  destruct (tree d !! t) as [[]|]; try done; intros [= <- <-]; eauto 10.
Qed.

Lemma unlink_Some p d d' :
  unlink p d = Some d' →
  d' = {| tree := delete p (tree d); protected := protected d |}.
Proof.
  unfold unlink. destruct (tree d !! p) as [[]|]; try done.
  case_decide; [done|]. by intros [= <-].
Qed.

Lemma copy2_target src dst d d' target :
  copy2 src dst d = Some (d', target) → tree d !! target ≠ Some Dir.
Proof.
  unfold copy2.
  set (t := match tree d !! dst with
            | Some Dir => joinpath dst (name src)
            | _ => dst
            end).
  destruct (tree d !! src) as [[|[] content]|]; try done.
  repeat case_decide; try done.
  destruct (tree d !! t) as [[]|] eqn:Ht; try done; intros [= <- <-];
    congruence.
Qed.

Lemma unlink_free p d d' : unlink p d = Some d' → p ∉ protected d.
Proof.
  unfold unlink. destruct (tree d !! p) as [[]|]; try done.
  by case_decide.
Qed.

Lemma copy2_form src dst d d' target :
  copy2 src dst d = Some (d', target) →
  tree d !! dst ≠ Some Dir → target = dst.
Proof.
  intros Hcopy Hdst. unfold copy2 in Hcopy.
  assert (match tree d !! dst with
          | Some Dir => joinpath dst (name src)
          | _ => dst
          end = dst) as Heq
    by (destruct (tree d !! dst) as [[]|]; done).
  rewrite Heq in Hcopy.
  destruct (tree d !! src) as [[|[] c]|]; try done.
  repeat case_decide; try done.
  destruct (tree d !! dst) as [[]|]; by simplify_eq.
Qed.

(** An iteration counts the file once: as deleted or as an error. *)
Lemma process_counts backup_dir st p :
  (deleted_count (process backup_dir st p) = deleted_count st + 1
   ∧ error_count (process backup_dir st p) = error_count st)
  ∨ (deleted_count (process backup_dir st p) = deleted_count st
     ∧ error_count (process backup_dir st p) = error_count st + 1).
Proof.
  unfold process. destruct (negb _); [by right|].
  destruct (copy2 _ _ _) as [[copied target]|]; [|by right].
  destruct (unlink _ _); [by left|by right].
Qed.

Lemma process_loop_counts backup_dir files st :
  deleted_count (foldl (process backup_dir) st files)
  + error_count (foldl (process backup_dir) st files)
  = deleted_count st + error_count st + length files.
Proof.
  revert st. induction files as [|p files IH]; intros st; cbn [foldl length].
  - lia.
  - rewrite IH. destruct (process_counts backup_dir st p) as [[-> ->]|[-> ->]];
      lia.
Qed.

(** What an iteration does to the disk and adds to the trace. *)
Lemma process_trace backup_dir st p :
  (trace (process backup_dir st p) = trace st
   ∧ on_disk (process backup_dir st p) = on_disk st)
  ∨ ∃ content target copied,
      tree (on_disk st) !! p = Some (File true content)
      ∧ target ≠ p
      ∧ (target = joinpath backup_dir (name p)
         ∨ target = joinpath (joinpath backup_dir (name p)) (name p))
      ∧ copied = {| tree := <[target := File true content]> (tree (on_disk st));
                    protected := protected (on_disk st) |}
      ∧ ((trace (process backup_dir st p) = trace st ++ [Copied p target]
          ∧ on_disk (process backup_dir st p) = copied)
         ∨ (trace (process backup_dir st p)
            = trace st ++ [Copied p target; Unlinked p]
            ∧ on_disk (process backup_dir st p)
              = {| tree := delete p (tree copied);
                   protected := protected copied |})).
Proof.
  unfold process. destruct (negb _); [by left|].
  destruct (copy2 _ _ _) as [[copied target]|] eqn:Hcopy; [|by left].
  apply copy2_Some in Hcopy as (content & Hsrc & Hne & Htarget & ->).
  right. exists content, target. eexists. split_and!; try done.
  destruct (unlink _ _) as [removed|] eqn:Hunlink; [|by left].
  apply unlink_Some in Hunlink as ->. by right.
Qed.

(** The cases of an iteration: nothing is done; the file is copied, to
    [backup_dir / name] unless that is a directory; or it is copied and
    removed, and then it was not protected. *)
Lemma process_cases backup_dir st p :
  (trace (process backup_dir st p) = trace st
   ∧ on_disk (process backup_dir st p) = on_disk st)
  ∨ ∃ content target copied,
      tree (on_disk st) !! p = Some (File true content)
      ∧ target ≠ p
      ∧ (target = joinpath backup_dir (name p)
         ∨ target = joinpath (joinpath backup_dir (name p)) (name p))
      ∧ (tree (on_disk st) !! joinpath backup_dir (name p) ≠ Some Dir →
         target = joinpath backup_dir (name p))
      ∧ copied = {| tree := <[target := File true content]> (tree (on_disk st));
                    protected := protected (on_disk st) |}
      ∧ ((trace (process backup_dir st p) = trace st ++ [Copied p target]
          ∧ on_disk (process backup_dir st p) = copied)
         ∨ ((p ∉ protected (on_disk st))
            ∧ trace (process backup_dir st p)
              = trace st ++ [Copied p target; Unlinked p]
            ∧ on_disk (process backup_dir st p)
              = {| tree := delete p (tree copied);
                   protected := protected copied |})).
Proof.
  unfold process. destruct (negb _); [by left|].
  destruct (copy2 _ _ _) as [[copied target]|] eqn:Hcopy; [|by left].
  pose proof (copy2_form _ _ _ _ _ Hcopy) as Hform.
  apply copy2_Some in Hcopy as (content & Hsrc & Hne & Htarget & ->).
  right. exists content, target. eexists. split_and!; try done.
  destruct (unlink _ _) as [removed|] eqn:Hunlink; [|by left].
  pose proof (unlink_free _ _ _ Hunlink) as Hfree.
  apply unlink_Some in Hunlink as ->. by right.
Qed.

(** An iteration removes the file only from the disk on which it has
    just been copied, and leaves the disk as it was when the copy
    fails. *)
Lemma process_backed_up backup_dir st p :
  (is_Some (tree (on_disk st) !! p) →
   tree (on_disk (process backup_dir st p)) !! p = None →
   ∃ content target copied,
     tree (on_disk st) !! p = Some (File true content)
     ∧ copy2 p (joinpath backup_dir (name p)) (on_disk st)
       = Some (copied, target)
     ∧ target ≠ p
     ∧ (target = joinpath backup_dir (name p)
        ∨ target = joinpath (joinpath backup_dir (name p)) (name p))
     ∧ tree copied !! p = Some (File true content)
     ∧ tree copied !! target = Some (File true content)
     ∧ unlink p copied = Some (on_disk (process backup_dir st p))
     ∧ tree (on_disk (process backup_dir st p)) !! target
       = Some (File true content))
  ∧ (copy2 p (joinpath backup_dir (name p)) (on_disk st) = None →
     on_disk (process backup_dir st p) = on_disk st
     ∧ deleted_count (process backup_dir st p) = deleted_count st)
  ∧ (deleted_count (process backup_dir st p) = deleted_count st + 1 →
     is_Some (tree (on_disk st) !! p)
     ∧ tree (on_disk (process backup_dir st p)) !! p = None).
Proof.
  unfold process, exists_.
  destruct (tree (on_disk st) !! p) as [n|] eqn:Hp; cbn [negb].
  2: { split_and!; [by intros [? ?]|done|].
       cbn [deleted_count]. lia. }
  destruct (copy2 p _ (on_disk st)) as [[copied target]|] eqn:Hcopy.
  2: { split_and!; [|done|cbn [deleted_count]; lia].
       intros _ Hnone. cbn [on_disk] in Hnone. congruence. }
  destruct (copy2_Some _ _ _ _ _ Hcopy)
    as (content & Hsrc & Hne & Htarget & Hcopied).
  assert (Horiginal : tree copied !! p = Some (File true content)).
  { rewrite Hcopied. cbn [tree]. by rewrite lookup_insert_ne. }
  rewrite Hp in Hsrc.
  assert (Hbackup : tree copied !! target = Some (File true content)).
  { rewrite Hcopied. cbn [tree]. by rewrite lookup_insert_eq. }
  destruct (unlink p copied) as [removed|] eqn:Hunlink.
  - pose proof (unlink_Some _ _ _ Hunlink) as Hremoved.
    cbn [on_disk deleted_count]. split_and!; [|done|].
    + intros _ _. exists content, target, copied.
      split_and!; try done. rewrite Hremoved. cbn [tree].
      by rewrite lookup_delete_ne.
    + intros _. split; [by rewrite <- Hp|].
      rewrite Hremoved. cbn [tree]. by rewrite lookup_delete_eq.
  - cbn [on_disk deleted_count]. split_and!; [|done|lia].
    intros _ Hnone. congruence.
Qed.

(** Only requested files are removed. *)
Lemma process_loop_unlinked backup_dir files st p :
  Unlinked p ∈ trace (foldl (process backup_dir) st files) →
  Unlinked p ∈ trace st ∨ p ∈ files.
Proof.
  revert st. induction files as [|q files IH]; intros st; [by left|].
  cbn [foldl]. intros [Hin|Hin]%IH; [|right; by right].
  destruct (process_trace backup_dir st q)
    as [[Heq _]|(content & target & copied & _ & _ & _ & _
                 & [[Heq _]|[Heq _]])];
    rewrite Heq in Hin; [by left| |].
  - apply elem_of_app in Hin as [?|Hin]; [by left|].
    by apply list_elem_of_singleton in Hin.
  - apply elem_of_app in Hin as [?|Hin]; [by left|].
    apply elem_of_cons in Hin as [?|Hin]; [done|].
    apply list_elem_of_singleton in Hin as [= ->]. right. left.
Qed.
End delete_executor.

(** C9. At every iteration of the loop of [create_backup_and_delete], a
    requested file that is there when its turn comes and is gone after it
    was first copied: [shutil.copy2] gave a disk that holds the original
    and, at a path of the backup directory other than the original's, a
    copy with the bytes of the original, and it is from that disk that
    the original was removed; the copy is on the disk the iteration
    leaves.  When the copy fails, nothing is removed.  A file is counted
    as deleted only if it was there and is gone. *)
Theorem C9_backup_before_removal (backup_dir : string) (d : deleter.disk)
    (files_to_delete before after : list string) (file_path : string) :
  files_to_delete = before ++ file_path :: after →
  let source_path := pathlib.Path file_path in
  let backup_path := deleter.joinpath backup_dir (deleter.name source_path) in
  let st := deleter.process_all backup_dir d (pathlib.Path <$> before) in
  let st' := deleter.process backup_dir st source_path in
  deleter.process_all backup_dir d (pathlib.Path <$> files_to_delete)
  = foldl (deleter.process backup_dir) st' (pathlib.Path <$> after)
  ∧ (is_Some (deleter.tree (deleter.on_disk st) !! source_path) →
     deleter.tree (deleter.on_disk st') !! source_path = None →
     ∃ content target copied,
       deleter.tree (deleter.on_disk st) !! source_path
       = Some (File true content)
       ∧ deleter.copy2 source_path backup_path (deleter.on_disk st)
         = Some (copied, target)
       ∧ target ≠ source_path
       ∧ (target = backup_path
          ∨ target = deleter.joinpath backup_path (deleter.name source_path))
       ∧ deleter.tree copied !! source_path = Some (File true content)
       ∧ deleter.tree copied !! target = Some (File true content)
       ∧ deleter.unlink source_path copied = Some (deleter.on_disk st')
       ∧ deleter.tree (deleter.on_disk st') !! target
         = Some (File true content))
  ∧ (deleter.copy2 source_path backup_path (deleter.on_disk st) = None →
     deleter.on_disk st' = deleter.on_disk st
     ∧ deleter.deleted_count st' = deleter.deleted_count st)
  ∧ (deleter.deleted_count st' = deleter.deleted_count st + 1 →
     is_Some (deleter.tree (deleter.on_disk st) !! source_path)
     ∧ deleter.tree (deleter.on_disk st') !! source_path = None).
Proof.
  intros -> source_path backup_path st st'. split.
  - unfold deleter.process_all. by rewrite fmap_app, foldl_app.
  - apply process_backed_up.
Qed.

Lemma C9_backup_before_removal_witness :
  let backup_dir := "backup_deletions_20240101_000000" in
  let st :=
    deleter.process_all backup_dir sample.photos
      ["/photos/a.jpg"; "/photos/missing.jpg"; "/photos/locked.jpg"] in
  let st' := deleter.process backup_dir st "/photos/b.png" in
  deleter.tree (deleter.on_disk st) !! "/photos/b.png"
  = Some (File true sample.ramp)
  ∧ deleter.tree (deleter.on_disk st') !! "/photos/b.png" = None
  ∧ ∃ copied,
      deleter.copy2 "/photos/b.png" (deleter.joinpath backup_dir "b.png")
        (deleter.on_disk st)
      = Some (copied, deleter.joinpath backup_dir "b.png")
      ∧ deleter.tree copied !! "/photos/b.png" = Some (File true sample.ramp)
      ∧ deleter.tree copied !! deleter.joinpath backup_dir "b.png"
        = Some (File true sample.ramp)
      ∧ deleter.unlink "/photos/b.png" copied = Some (deleter.on_disk st')
      ∧ deleter.tree (deleter.on_disk st') !! deleter.joinpath backup_dir "b.png"
        = Some (File true sample.ramp).
Proof.
  intros backup_dir st st'.
  assert (Hthere : deleter.tree (deleter.on_disk st) !! "/photos/b.png"
                   = Some (File true sample.ramp))
    by (vm_compute; reflexivity).
  assert (Hgone : deleter.tree (deleter.on_disk st') !! "/photos/b.png" = None)
    by (vm_compute; reflexivity).
  destruct (C9_backup_before_removal backup_dir sample.photos sample.request
              ["/photos/a.jpg"; "/photos/missing.jpg"; "/photos/locked.jpg"]
              ["/photos/sub"] "/photos/b.png" eq_refl)
    as (_ & Hbacked & _ & _).
  destruct (Hbacked (ex_intro _ _ Hthere) Hgone)
    as (content & target & copied & Hcontent & Hcopy & _ & _ & Horiginal
        & Hbackup & Hunlink & Hkept).
  assert (Hc : content = sample.ramp).
  { pose proof (eq_trans (eq_sym Hcontent) Hthere) as Heq.
    by injection Heq. }
  assert (Ht : target = deleter.joinpath backup_dir "b.png").
  { apply (copy2_form _ _ _ _ _ Hcopy). vm_compute. discriminate. }
  subst content target.
  exact (conj Hthere (conj Hgone (ex_intro _ copied
           (conj Hcopy (conj Horiginal (conj Hbackup (conj Hunlink Hkept))))))).
Defined.

(** C10. In the log [create_backup_and_delete] writes, the files deleted
    and the errors add up to the files requested; every iteration of the
    loop adds one to exactly one of the two counters. *)
Theorem C10_counts_partition_request (request : option (list string))
    (stamp now : string) (d d' : deleter.disk) (log : deleter.log_data) :
  deleter.create_backup_and_delete request stamp now d = (Some log, d') →
  deleter.successfully_deleted log + deleter.errors log
  = deleter.total_requested log
  ∧ ∀ backup_dir st file_path,
      let st' := deleter.process backup_dir st file_path in
      (deleter.deleted_count st' = deleter.deleted_count st + 1
       ∧ deleter.error_count st' = deleter.error_count st)
      ∨ (deleter.deleted_count st' = deleter.deleted_count st
         ∧ deleter.error_count st' = deleter.error_count st + 1).
Proof.
  intros Hrun. split; [|intros backup_dir st file_path; apply process_counts].
  unfold deleter.create_backup_and_delete in Hrun.
  destruct request as [[|file_path files]|]; try done.
  destruct (deleter.mkdir _ d) as [d1|]; [|done].
  case_decide; [done|].
  destruct (deleter.tree _ !! _) as [[]|]; simplify_eq/=;
    unfold deleter.process_all; rewrite process_loop_counts; simpl;
    rewrite length_fmap; lia.
Qed.

Lemma C10_counts_partition_request_witness :
  (deleter.create_backup_and_delete (Some sample.request) "20240101_000000"
     "2024-01-01T00:00:05" sample.photos).1
  = Some {| deleter.log_timestamp := "2024-01-01T00:00:05";
            deleter.backup_directory := "backup_deletions_20240101_000000";
            deleter.total_requested := 5;
            deleter.successfully_deleted := 2;
            deleter.errors := 3;
            deleter.deleted_files := ["a.jpg"; "missing.jpg"; "b.png"] |}
  ∧ 2 + 3 = 5.
Proof.
  assert (Hlog :
    (deleter.create_backup_and_delete (Some sample.request) "20240101_000000"
       "2024-01-01T00:00:05" sample.photos).1
    = Some {| deleter.log_timestamp := "2024-01-01T00:00:05";
              deleter.backup_directory := "backup_deletions_20240101_000000";
              deleter.total_requested := 5;
              deleter.successfully_deleted := 2;
              deleter.errors := 3;
              deleter.deleted_files := ["a.jpg"; "missing.jpg"; "b.png"] |})
    by (vm_compute; reflexivity).
  split; [exact Hlog|].
  destruct (deleter.create_backup_and_delete (Some sample.request)
              "20240101_000000" "2024-01-01T00:00:05" sample.photos)
    as [log d'] eqn:Hrun.
  cbn [fst] in Hlog. subst log.
  exact (proj1 (C10_counts_partition_request _ _ _ _ _ _ Hrun)).
Defined.

(** * Further properties of the detector *)

(** ** Exact groups as classes *)

(** X1. The exact groups are the classes of the enumerated images under
    their digest: the digests of the groups are distinct and not empty, a
    group holds every enumerated image with its digest and nothing else,
    each once, and no image is in two groups. *)
Theorem X1_exact_groups_are_digest_classes {H : HashLib}
    (scan digest : filesystem) (source_folder : string) :
  let self :=
    (finder.find_md5_duplicates scan digest (finder.init source_folder)).1 in
  NoDup (md5_duplicates self).*1
  ∧ (∀ k files,
       (k, files) ∈ md5_duplicates self →
       k ≠ EmptyString ∧ NoDup files
       ∧ ∀ p, p ∈ files
              ↔ p ∈ all_images self ∧ (finder.calculate_md5 digest p).1 = k)
  ∧ ∀ k1 files1 k2 files2 p,
      (k1, files1) ∈ md5_duplicates self →
      (k2, files2) ∈ md5_duplicates self →
      p ∈ files1 → p ∈ files2 → k1 = k2 ∧ files1 = files2.
Proof.
  intros self.
  destruct (find_md5_duplicates_fields scan digest (finder.init source_folder))
    as [Himages Hgroups].
  assert (Hmembers : ∀ k files,
            (k, files) ∈ md5_duplicates self →
            k ≠ EmptyString ∧ NoDup files
            ∧ ∀ p, p ∈ files
                   ↔ p ∈ all_images self
                     ∧ (finder.calculate_md5 digest p).1 = k).
  { intros k files Hin. subst self. rewrite Himages.
    pose proof Hin as [-> Hlen]%exact_groups_classes.
    assert (Hiff : ∀ p, p ∈ filter (finder.has_digest digest k)
                                   (finder.get_image_files scan).1
                        ↔ p ∈ (finder.get_image_files scan).1
                          ∧ (finder.calculate_md5 digest p).1 = k
                          ∧ k ≠ EmptyString).
    { intros p. rewrite list_elem_of_filter. unfold finder.has_digest. tauto. }
    assert (Hnd : NoDup (filter (finder.has_digest digest k)
                                (finder.get_image_files scan).1))
      by apply NoDup_filter, get_image_files_NoDup.
    destruct (filter (finder.has_digest digest k)
                     (finder.get_image_files scan).1) as [|p0 rest];
      [simpl in Hlen; lia|].
    assert (Hk : k ≠ EmptyString) by (apply (Hiff p0); left).
    split_and!; [done..|].
    intros p. rewrite Hiff. tauto. }
  split_and!; [|done|].
  - subst self. rewrite Hgroups. cbn [md5_duplicates finder.init].
    eapply sublist_NoDup; [|apply fmap_sublist, sublist_filter].
    apply md5_loop_NoDup. constructor.
  - intros k1 files1 k2 files2 p Hin1 Hin2 Hp1 Hp2.
    destruct (Hmembers k1 files1 Hin1) as (_ & _ & Hiff1).
    destruct (Hmembers k2 files2 Hin2) as (_ & _ & Hiff2).
    assert (k1 = k2) as ->.
    { apply Hiff1 in Hp1 as [_ <-]. by apply Hiff2 in Hp2 as [_ <-]. }
    split; [done|].
    apply exact_groups_classes in Hin1 as [-> _].
    by apply exact_groups_classes in Hin2 as [-> _].
Qed.

(** ** The order of the members of a group *)

Lemma sublist_StronglySorted {A} (R : relation A) (l1 l2 : list A) :
  l1 `sublist_of` l2 → StronglySorted R l2 → StronglySorted R l1.
Proof.
  induction 1 as [|x l1 l2 Hsub IH|x l1 l2 Hsub IH];
    rewrite ?StronglySorted_cons; [done| |].
  - intros [Hall Hsorted]. split; [|by apply IH].
    apply Forall_forall. intros y Hy. rewrite Forall_forall in Hall.
    apply Hall. by eapply elem_of_sublist.
  - intros [_ Hsorted]. by apply IH.
Qed.

Lemma cluster_sublist (meets : ImageHash → ImageHash → bool)
    (items : list (string * ImageHash)) (assigned : gset string) :
  Forall (λ g, g `sublist_of` items.*1) (spec.cluster meets items assigned).
Proof.
  revert assigned.
  induction items as [|[anchor h] later IH]; intros A; cbn [spec.cluster].
  - constructor.
  - rewrite fmap_cons. cbn [fst].
    assert (Hrest : ∀ A', Forall (λ g, g `sublist_of` anchor :: later.*1)
                            (spec.cluster meets later A')).
    { intros A'. eapply Forall_impl; [apply IH|].
      intros g Hg. by apply sublist_cons. }
    destruct (decide (anchor ∈ A)); [apply Hrest|].
    case_decide; [|apply Hrest]. constructor; [|apply Hrest].
    apply sublist_skip, fmap_sublist, sublist_filter.
Qed.

Lemma omap_hashed_sublist {H : HashLib} {I : ImageLib} (fs : filesystem)
    (images : list string) :
  (omap (finder.hashed fs) images).*1 `sublist_of` images.
Proof.
  induction images as [|p images IH]; [done|]. cbn [omap list_omap].
  unfold finder.hashed at 1.
  destruct (finder.fingerprint fs p) as [h|]; cbn.
  - by apply sublist_skip.
  - by apply sublist_cons.
Qed.

(** X2. In the finder a run leaves, the members of every exact group and
    of every similar group are enumerated images, in the order of the
    enumeration: in increasing order of their paths and without repeat, so
    that the first member of a group is its least path. *)
Theorem X2_group_members_in_path_order {H : HashLib} {I : ImageLib}
    (source_folder : string) (t : timeline) :
  let self := (finder.stages source_folder t).1 in
  (∀ k files,
     (k, files) ∈ md5_duplicates self →
     files `sublist_of` all_images self
     ∧ StronglySorted String.le files ∧ NoDup files)
  ∧ ∀ g,
      g ∈ perceptual_duplicates self →
      g `sublist_of` all_images self
      ∧ StronglySorted String.le g ∧ NoDup g.
Proof.
  intros self.
  assert (Hsorted : StronglySorted String.le (all_images self)).
  { subst self. rewrite stages_all_images.
    apply Sorted_StronglySorted; [apply _|apply get_image_files_sorted]. }
  assert (Hnd : NoDup (all_images self)).
  { subst self. rewrite stages_all_images. apply get_image_files_NoDup. }
  assert (Hsub : ∀ l, l `sublist_of` all_images self →
                      l `sublist_of` all_images self
                      ∧ StronglySorted String.le l ∧ NoDup l).
  { intros l Hl. split_and!; [done| |].
    - by eapply sublist_StronglySorted.
    - by eapply sublist_NoDup. }
  split.
  - intros k files Hin. apply Hsub. subst self.
    rewrite stages_md5_duplicates in Hin. rewrite stages_all_images.
    apply exact_groups_classes in Hin as [-> _]. apply sublist_filter.
  - intros g Hg. apply Hsub. subst self. rewrite stages_finder in Hg |- *.
    rewrite find_perceptual_duplicates_groups in Hg.
    destruct (find_perceptual_duplicates_keeps (at_phash t)
                finder.threshold_085
                (finder.find_md5_duplicates (at_scan t) (at_md5 t)
                   (finder.init source_folder)).1) as [_ Hkeep].
    rewrite Hkeep.
    set (images := all_images
                     (finder.find_md5_duplicates (at_scan t) (at_md5 t)
                        (finder.init source_folder)).1) in *.
    assert (Himages : NoDup images).
    { subst images.
      destruct (find_md5_duplicates_fields (at_scan t) (at_md5 t)
                  (finder.init source_folder)) as [-> _].
      apply get_image_files_NoDup. }
    rewrite similar_groups_cluster in Hg
      by (apply phash_loop_keys_NoDup; constructor).
    rewrite phash_loop_hashes in Hg;
      [|done|intros p _; cbn; apply not_elem_of_nil].
    cbn [app] in Hg.
    pose proof (cluster_sublist (clusterer.meets finder.threshold_085)
                  (omap (finder.hashed (at_phash t)) images) ∅) as Hall.
    rewrite Forall_forall in Hall. etrans; [by apply Hall|].
    apply omap_hashed_sublist.
Qed.

(** ** Similar groups and their anchor *)

Section similar_groups.
Context {H : HashLib} {I : ImageLib}.
Implicit Types (fs : filesystem) (p : string) (h : ImageHash).

Lemma hashed_elem fs (images : list string) p h :
  (p, h) ∈ omap (finder.hashed fs) images
  ↔ p ∈ images ∧ finder.fingerprint fs p = Some h.
Proof.
  rewrite list_elem_of_omap. unfold finder.hashed. split.
  - intros (q & Hq & Heq).
    destruct (finder.fingerprint fs q) as [hq|] eqn:Hf; simplify_eq/=. done.
  - intros [Hp Hf]. exists p. by rewrite Hf.
Qed.

(** On distinct images the similar groups are the groups of the greedy
    recursion on the stored fingerprints. *)
Lemma find_perceptual_duplicates_cluster fs threshold self :
  NoDup (all_images self) →
  perceptual_duplicates (finder.find_perceptual_duplicates fs threshold self).1
  = spec.cluster (clusterer.meets threshold)
      (omap (finder.hashed fs) (all_images self)) ∅.
Proof.
  intros Hnd. rewrite find_perceptual_duplicates_groups.
  rewrite similar_groups_cluster
    by (apply phash_loop_keys_NoDup; constructor).
  rewrite phash_loop_hashes; [done..|].
  intros p _. cbn. apply not_elem_of_nil.
Qed.

Lemma hashed_keys_NoDup fs (images : list string) :
  NoDup images → NoDup (omap (finder.hashed fs) images).*1.
Proof. intros Hnd. eapply sublist_NoDup; [done|apply omap_hashed_sublist]. Qed.
End similar_groups.

(** A group is an anchor of the input followed by later images that meet
    the threshold with it. *)
Lemma cluster_anchor (meets : ImageHash → ImageHash → bool)
    (items : list (string * ImageHash)) (assigned : gset string) :
  Forall (λ g, ∃ anchor h rest,
            g = anchor :: rest ∧ rest ≠ [] ∧ (anchor, h) ∈ items
            ∧ ∀ q, q ∈ rest → ∃ hq, (q, hq) ∈ items ∧ meets h hq)
    (spec.cluster meets items assigned).
Proof.
  revert assigned.
  induction items as [|[anchor h] later IH]; intros A; cbn [spec.cluster].
  - constructor.
  - assert (Hrest : ∀ A',
      Forall (λ g, ∃ anchor' h' rest,
                g = anchor' :: rest ∧ rest ≠ []
                ∧ (anchor', h') ∈ (anchor, h) :: later
                ∧ ∀ q, q ∈ rest →
                       ∃ hq, (q, hq) ∈ (anchor, h) :: later ∧ meets h' hq)
        (spec.cluster meets later A')).
    { intros A'. eapply Forall_impl; [apply IH|].
      intros g (anchor' & h' & rest & -> & Hne & Hin & Hall).
      exists anchor', h', rest. split_and!; [done..|by right|].
      intros q Hq. destruct (Hall q Hq) as (hq & ? & ?).
      exists hq. split; [by right|done]. }
    destruct (decide (anchor ∈ A)); [apply Hrest|].
    case_decide as Hlen; [|apply Hrest]. constructor; [|apply Hrest].
    exists anchor, h, (filter (spec.joiner meets A h) later).*1.
    split_and!; [done| |left|].
    + intros Heq. rewrite Heq in Hlen. simpl in Hlen. lia.
    + intros q (kv & -> & Hkv)%list_elem_of_fmap.
      apply list_elem_of_filter in Hkv as [[_ Hmeets] Hkv].
      exists kv.2. split; [|done]. right. by destruct kv.
Qed.

(** X3. Every similar group is an anchor followed by one image or more,
    each with a fingerprint of the size of the anchor's whose distance [d]
    to it has [threshold <= 1 - d/64]: membership is decided against the
    first member only. *)
Theorem X3_members_meet_anchor {H : HashLib} {I : ImageLib}
    (fs : filesystem) (threshold : Q) (self : DuplicateFinder)
    (g : list string) :
  NoDup (all_images self) →
  g ∈ perceptual_duplicates
        (finder.find_perceptual_duplicates fs threshold self).1 →
  ∃ anchor rest ha,
    g = anchor :: rest ∧ rest ≠ []
    ∧ finder.fingerprint fs anchor = Some ha
    ∧ ∀ q, q ∈ rest →
           ∃ hq d,
             finder.fingerprint fs q = Some hq
             ∧ imagehash.sub ha hq = Some d
             ∧ (threshold <= 1 - inject_Z (Z.of_nat d) / 64)%Q.
Proof.
  intros Hnd Hg. rewrite find_perceptual_duplicates_cluster in Hg by done.
  pose proof (cluster_anchor (clusterer.meets threshold)
                (omap (finder.hashed fs) (all_images self)) ∅) as Hall.
  rewrite Forall_forall in Hall.
  destruct (Hall g Hg) as (anchor & ha & rest & -> & Hne & Hanchor & Hrest).
  exists anchor, rest, ha. split_and!; [done..| |].
  - by apply hashed_elem in Hanchor as [_ ?].
  - intros q Hq. destruct (Hrest q Hq) as (hq & Hin & Hmeets).
    apply hashed_elem in Hin as [_ Hf].
    unfold clusterer.meets, clusterer.joins in Hmeets.
    destruct (imagehash.sub ha hq) as [d|] eqn:Hsub; [|done].
    exists hq, d. split_and!; [done..|].
    by apply Qle_bool_iff, Is_true_true.
Qed.

Lemma X3_members_meet_anchor_witness :
  ∃ anchor rest ha,
    ["a.jpg"; "c.png"] = anchor :: rest ∧ rest ≠ []
    ∧ finder.fingerprint sample.mixed anchor = Some ha
    ∧ ∀ q, q ∈ rest →
           ∃ hq d,
             finder.fingerprint sample.mixed q = Some hq
             ∧ imagehash.sub ha hq = Some d
             ∧ (finder.threshold_085 <= 1 - inject_Z (Z.of_nat d) / 64)%Q.
Proof.
  assert (Hnd : NoDup (all_images sample.scanned))
    by (apply (bool_decide_unpack _); vm_compute; exact I).
  assert (Hg : ["a.jpg"; "c.png"]
               ∈ perceptual_duplicates
                   (finder.find_perceptual_duplicates sample.mixed
                      finder.threshold_085 sample.scanned).1)
    by (vm_compute; left).
  exact (X3_members_meet_anchor sample.mixed finder.threshold_085
           sample.scanned ["a.jpg"; "c.png"] Hnd Hg).
Defined.

(** ** Images with one fingerprint *)

Section same_fingerprint.
Variable meets : ImageHash → ImageHash → bool.

Lemma joiners_elem (items : list (string * ImageHash)) (A : gset string)
    (h : ImageHash) (q : string) (hq : ImageHash) :
  NoDup items.*1 → (q, hq) ∈ items →
  q ∈ (filter (spec.joiner meets A h) items).*1 ↔ (q ∉ A) ∧ meets h hq.
Proof.
  intros Hnd Hin. rewrite list_elem_of_fmap. split.
  - intros ([q' hq'] & -> & [[Hnew Hmeets] Hkv]%list_elem_of_filter).
    cbn [fst snd] in *.
    apply (elem_dict_get _ _ _ Hnd) in Hin, Hkv. by simplify_eq.
  - intros [Hnew Hmeets]. exists (q, hq). split; [done|].
    by apply list_elem_of_filter.
Qed.

(** Two images of one fingerprint that meets the threshold with itself
    are in one group, when the assigned images are as many of one
    fingerprint as there are. *)
Lemma cluster_same_hash (items : list (string * ImageHash))
    (A : gset string) (p1 p2 : string) (h0 : ImageHash) :
  NoDup items.*1 →
  (∀ q hq q', (q, hq) ∈ items → (q', hq) ∈ items → q ∈ A → q' ∈ A) →
  (p1, h0) ∈ items → (p2, h0) ∈ items → p1 ≠ p2 → p1 ∉ A →
  meets h0 h0 →
  ∃ g, g ∈ spec.cluster meets items A ∧ p1 ∈ g ∧ p2 ∈ g.
Proof.
  revert A.
  induction items as [|[anchor h] later IH];
    intros A Hnd Hclosed Hp1 Hp2 Hne Hnew1 Hmeets;
    [by apply not_elem_of_nil in Hp1|].
  rewrite fmap_cons in Hnd. apply NoDup_cons in Hnd as [Hfresh Hnd].
  cbn [fst] in Hfresh.
  assert (Hnew2 : p2 ∉ A) by (intros ?; apply Hnew1; by apply (Hclosed p2 h0 p1)).
  assert (Hkey : ∀ q hq, (q, hq) ∈ later → q ≠ anchor).
  { intros q hq Hin ->. apply Hfresh.
    by apply (list_elem_of_fmap_2 fst _ (anchor, hq)). }
  assert (Hlater : ∀ A',
            (∀ q hq q', (q, hq) ∈ later → (q', hq) ∈ later → q ∈ A' → q' ∈ A') →
            p1 ∉ A' → (p1, h0) ∈ later → (p2, h0) ∈ later →
            ∃ g, g ∈ spec.cluster meets later A' ∧ p1 ∈ g ∧ p2 ∈ g)
    by (intros A' ? ? ? ?; by apply IH).
  cbn [spec.cluster].
  destruct (decide (anchor ∈ A)) as [Hassigned|Hunassigned].
  { apply elem_of_cons in Hp1 as [[= -> _]|Hp1]; [done|].
    apply elem_of_cons in Hp2 as [[= -> _]|Hp2]; [done|].
    apply Hlater; [|done..]. intros q hq q' ? ?. apply (Hclosed q hq q'); by right. }
  set (joiners := (filter (spec.joiner meets A h) later).*1).
  assert (Hjoin : ∀ q hq, (q, hq) ∈ later →
                          q ∈ joiners ↔ (q ∉ A) ∧ meets h hq)
    by (intros q hq ?; by apply joiners_elem).
  assert (Hkept : ∀ q, q ∈ joiners → 2 ≤ length (anchor :: joiners)).
  { intros q Hq. destruct joiners; [by apply not_elem_of_nil in Hq|].
    simpl. lia. }
  apply elem_of_cons in Hp1 as [Heq1|Hp1];
    apply elem_of_cons in Hp2 as [Heq2|Hp2].
  - congruence.
  - injection Heq1 as -> ->.
    assert (p2 ∈ joiners) by (by apply (Hjoin p2 h)).
    rewrite decide_True by eauto.
    exists (anchor :: joiners). split_and!; [left|left|by right].
  - injection Heq2 as -> ->.
    assert (p1 ∈ joiners) by (by apply (Hjoin p1 h)).
    rewrite decide_True by eauto.
    exists (anchor :: joiners). split_and!; [left|by right|left].
  - destruct (meets h h0) eqn:Hh.
    + assert (p1 ∈ joiners) by (apply (Hjoin p1 h0); by rewrite ?Hh).
      assert (p2 ∈ joiners) by (apply (Hjoin p2 h0); by rewrite ?Hh).
      rewrite decide_True by eauto.
      exists (anchor :: joiners). split_and!; [left|by right..].
    + assert (Hout : p1 ∉ joiners).
      { intros [_ Hm]%(Hjoin p1 h0); [|done]. by rewrite Hh in Hm. }
      assert (Hrest : ∃ g, g ∈ spec.cluster meets later
                                   (list_to_set (anchor :: joiners) ∪ A)
                           ∧ p1 ∈ g ∧ p2 ∈ g).
      { apply Hlater; [|set_solver by eauto|done..].
        intros q hq q' Hq Hq'.
        rewrite !elem_of_union, !elem_of_list_to_set, !elem_of_cons.
        rewrite (Hjoin q hq Hq), (Hjoin q' hq Hq').
        intros [[->|[? ?]]|?].
        - by apply Hkey in Hq.
        - left. right. split; [|done]. intros ?.
          assert (q ∈ A) by (apply (Hclosed q' hq q); by try right). done.
        - right. apply (Hclosed q hq q'); by try right. }
      assert (Hrest' : ∃ g, g ∈ spec.cluster meets later A ∧ p1 ∈ g ∧ p2 ∈ g).
      { apply Hlater; [|done..]. intros q hq q' ? ?. apply (Hclosed q hq q'); by right. }
      case_decide.
      * destruct Hrest as (g & ? & ? & ?). exists g. split; [by right|done].
      * done.
Qed.
End same_fingerprint.

(** A fingerprint is at distance 0 of itself, which scores 1. *)
Lemma count_differing_same (h : ImageHash) : imagehash.count_differing h h = 0.
Proof.
  unfold imagehash.count_differing. induction h as [|b h IH]; [done|].
  cbn [zip zip_with]. rewrite filter_cons_False; [done|]. cbn. by intros [].
Qed.

Lemma meets_same (threshold : Q) (h : ImageHash) :
  (threshold <= 1)%Q → clusterer.meets threshold h h = true.
Proof.
  intros Hle. unfold clusterer.meets, clusterer.joins, imagehash.sub.
  rewrite decide_True by done. rewrite count_differing_same.
  apply Qle_bool_iff. by assert (clusterer.similarity 0 == 1)%Q as -> by done.
Qed.

(** X4. Two enumerated images that get the same fingerprint are always in
    one similar group, for every threshold up to 1: no earlier anchor can
    take one and leave the other. *)
Theorem X4_same_fingerprint_same_group {H : HashLib} {I : ImageLib}
    (fs : filesystem) (threshold : Q) (self : DuplicateFinder)
    (p1 p2 : string) (h : ImageHash) :
  NoDup (all_images self) →
  (threshold <= 1)%Q →
  p1 ∈ all_images self → p2 ∈ all_images self → p1 ≠ p2 →
  finder.fingerprint fs p1 = Some h →
  finder.fingerprint fs p2 = Some h →
  ∃ g,
    g ∈ perceptual_duplicates
          (finder.find_perceptual_duplicates fs threshold self).1
    ∧ p1 ∈ g ∧ p2 ∈ g.
Proof.
  intros Hnd Hle Hp1 Hp2 Hne Hf1 Hf2.
  rewrite find_perceptual_duplicates_cluster by done.
  apply (cluster_same_hash _ _ _ p1 p2 h).
  - by apply hashed_keys_NoDup.
  - intros q hq q' _ _ Hin. by apply not_elem_of_empty in Hin.
  - by apply hashed_elem.
  - by apply hashed_elem.
  - done.
  - apply not_elem_of_empty.
  - by rewrite meets_same.
Qed.

Lemma X4_same_fingerprint_same_group_witness :
  ∃ g,
    g ∈ perceptual_duplicates
          (finder.find_perceptual_duplicates sample.mixed finder.threshold_085
             sample.scanned).1
    ∧ "a.jpg" ∈ g ∧ "c.png" ∈ g.
Proof.
  assert (Hnd : NoDup (all_images sample.scanned))
    by (apply (bool_decide_unpack _); vm_compute; exact I).
  assert (Hle : (finder.threshold_085 <= 1)%Q) by (vm_compute; discriminate).
  assert (H1 : "a.jpg" ∈ all_images sample.scanned)
    by (vm_compute; repeat constructor).
  assert (H2 : "c.png" ∈ all_images sample.scanned)
    by (vm_compute; repeat constructor).
  assert (Hne : "a.jpg" ≠ "c.png") by discriminate.
  assert (Hf1 : finder.fingerprint sample.mixed "a.jpg"
                = Some (replicate 256 false)) by (vm_compute; reflexivity).
  assert (Hf2 : finder.fingerprint sample.mixed "c.png"
                = Some (replicate 256 false)) by (vm_compute; reflexivity).
  exact (X4_same_fingerprint_same_group sample.mixed finder.threshold_085
           sample.scanned "a.jpg" "c.png" (replicate 256 false)
           Hnd Hle H1 H2 Hne Hf1 Hf2).
Defined.

(** ** The score and the threshold *)

Lemma count_differing_sym (h1 h2 : ImageHash) :
  imagehash.count_differing h1 h2 = imagehash.count_differing h2 h1.
Proof.
  unfold imagehash.count_differing. revert h2.
  induction h1 as [|b1 h1 IH]; intros [|b2 h2]; [done..|].
  cbn [zip zip_with]. rewrite !filter_cons. cbn [fst snd].
  specialize (IH h2). cbn [zip] in IH.
  destruct b1, b2; repeat case_decide; try done; cbn [length]; by rewrite IH.
Qed.

Lemma similarity_le_1 (d : nat) : (clusterer.similarity d <= 1)%Q.
Proof.
  unfold clusterer.similarity, Qle, Qminus, Qplus, Qopp, Qdiv, Qmult, Qinv,
    inject_Z.
  cbn [Qnum Qden]. lia.
Qed.

(** X5. With the default threshold 0.85, two fingerprints of one size are
    grouped exactly when they differ in 9 bits at most (of the 256 a
    fingerprint has). *)
Theorem X5_default_threshold_nine_bits (h1 h2 : ImageHash) :
  length h1 = length h2 →
  clusterer.meets finder.threshold_085 h1 h2 = true
  ↔ imagehash.count_differing h1 h2 ≤ 9.
Proof.
  intros Hlen. unfold clusterer.meets, clusterer.joins, imagehash.sub.
  rewrite decide_True by done. rewrite Qle_bool_iff.
  unfold clusterer.similarity, finder.threshold_085.
  unfold Qle, Qminus, Qplus, Qopp, Qdiv, Qmult, Qinv, inject_Z.
  cbn [Qnum Qden]. lia.
Qed.

Lemma X5_default_threshold_nine_bits_witness :
  clusterer.meets finder.threshold_085
    (replicate 9 true ++ replicate 247 false) (replicate 256 false) = true
  ∧ clusterer.meets finder.threshold_085
      (replicate 10 true ++ replicate 246 false) (replicate 256 false) = false.
Proof.
  split.
  - apply (X5_default_threshold_nine_bits
             (replicate 9 true ++ replicate 247 false) (replicate 256 false));
      [reflexivity|vm_compute; lia].
  - apply not_true_is_false.
    intros Hm%(X5_default_threshold_nine_bits
                 (replicate 10 true ++ replicate 246 false)
                 (replicate 256 false)); [|reflexivity].
    vm_compute in Hm. lia.
Defined.

(** X6. The comparison of two fingerprints does not depend on their order;
    a fingerprint is at distance 0 of itself and scores 1 against itself;
    no score is above 1, and a larger distance never scores higher. *)
Theorem X6_score_symmetric_bounded (threshold : Q) (h1 h2 : ImageHash) :
  clusterer.joins threshold h1 h2 = clusterer.joins threshold h2 h1
  ∧ imagehash.sub h1 h1 = Some 0
  ∧ (clusterer.similarity 0 == 1)%Q
  ∧ (∀ d, clusterer.similarity d <= 1)%Q
  ∧ ∀ d d', d ≤ d' → (clusterer.similarity d' <= clusterer.similarity d)%Q.
Proof.
  split_and!.
  - unfold clusterer.joins, imagehash.sub.
    rewrite (count_differing_sym h1 h2).
    destruct (decide (length h1 = length h2)) as [Heq|Hne].
    + by rewrite decide_True.
    + rewrite decide_False; [done|congruence].
  - unfold imagehash.sub. rewrite decide_True by done.
    by rewrite count_differing_same.
  - done.
  - apply similarity_le_1.
  - intros d d' Hle.
    unfold clusterer.similarity, Qle, Qminus, Qplus, Qopp, Qdiv, Qmult, Qinv,
      inject_Z.
    cbn [Qnum Qden]. lia.
Qed.

(** With no pair that meets the threshold there is no group. *)
Lemma cluster_never (meets : ImageHash → ImageHash → bool)
    (items : list (string * ImageHash)) (assigned : gset string) :
  (∀ h1 h2, meets h1 h2 = false) → spec.cluster meets items assigned = [].
Proof.
  intros Hnever.
  assert (Hnone : ∀ A h l, filter (spec.joiner meets A h) l = []).
  { intros A h l. induction l as [|kv l IHl]; [done|].
    rewrite filter_cons_False; [done|].
    unfold spec.joiner. rewrite Hnever. intros [_ []]. }
  revert assigned.
  induction items as [|[anchor h] later IH]; intros A; cbn [spec.cluster];
    [done|].
  destruct (decide (anchor ∈ A)); [apply IH|].
  rewrite Hnone. rewrite decide_False by (cbn; lia). apply IH.
Qed.

(** X7. With a threshold above 1 no similar group is formed, whatever the
    images. *)
Theorem X7_threshold_above_one {H : HashLib} {I : ImageLib}
    (fs : filesystem) (threshold : Q) (self : DuplicateFinder) :
  (1 < threshold)%Q →
  perceptual_duplicates (finder.find_perceptual_duplicates fs threshold self).1
  = [].
Proof.
  intros Habove. rewrite find_perceptual_duplicates_groups.
  rewrite similar_groups_cluster
    by (apply phash_loop_keys_NoDup; constructor).
  apply cluster_never. intros h1 h2.
  unfold clusterer.meets, clusterer.joins.
  destruct (imagehash.sub h1 h2) as [d|]; [|done].
  destruct (Qle_bool threshold (clusterer.similarity d)) eqn:Hle; [|done].
  apply Qle_bool_iff in Hle. exfalso. apply (Qlt_irrefl 1).
  eapply Qlt_le_trans; [exact Habove|].
  eapply Qle_trans; [exact Hle|apply similarity_le_1].
Qed.

Lemma X7_threshold_above_one_witness :
  perceptual_duplicates
    (finder.find_perceptual_duplicates sample.mixed (101 # 100)
       sample.scanned).1 = [].
Proof.
  apply X7_threshold_above_one. vm_compute. reflexivity.
Defined.

(** ** The entries of the report *)

Lemma foldl_dict_set_fresh {E V} (key : E → string) (val : E → V)
    (l : list E) (d : list (string * V)) :
  NoDup (d.*1 ++ (key <$> l)) →
  foldl (λ d e, py.dict_set (key e) (val e) d) d l
  = d ++ ((λ e, (key e, val e)) <$> l).
Proof.
  revert d. induction l as [|e l IH]; intros d Hnd; cbn [foldl fmap list_fmap].
  - by rewrite app_nil_r.
  - rewrite fmap_cons in Hnd.
    assert (Hfresh : key e ∉ d.*1).
    { apply NoDup_app in Hnd as (_ & Hdisj & _). intros Hin.
      apply (Hdisj _ Hin). left. }
    rewrite dict_set_keys_fresh by done. rewrite IH.
    + by rewrite <- app_assoc.
    + rewrite fmap_app, <- app_assoc. done.
Qed.

Lemma foldl_snoc {E B} (f : E → B) (l : list E) (acc : list B) :
  foldl (λ acc e, acc ++ [f e]) acc l = acc ++ (f <$> l).
Proof.
  revert acc. induction l as [|e l IH]; intros acc; cbn [foldl fmap list_fmap].
  - by rewrite app_nil_r.
  - by rewrite IH, <- app_assoc.
Qed.

Lemma enumerate_from_fst {A} (start : nat) (l : list A) :
  (py.enumerate_from start l).*1 = seq start (length l).
Proof. unfold py.enumerate_from. apply fst_zip. by rewrite length_seq. Qed.

Lemma enumerate_from_length {A} (start : nat) (l : list A) :
  length (py.enumerate_from start l) = length l.
Proof.
  unfold py.enumerate_from. rewrite length_zip_with, length_seq. lia.
Qed.

(** X8. The record has one entry for every group of the finder, in the
    order of the groups and numbered from 1: the keys [grupo_1],
    [grupo_2], ... of the exact groups are distinct, so no entry replaces
    another. *)
Theorem X8_report_has_every_group {H : HashLib} {I : ImageLib}
    (now : string) (self : DuplicateFinder) :
  let r := finder.save_results_json now self in
  results_md5 r
  = (λ e : nat * (string * list string),
       ("grupo_" +:+ pretty e.1,
        {| hash := e.2.1; files := finder.str_path self <$> e.2.2 |}))
      <$> py.enumerate_from 1 (md5_duplicates self)
  ∧ results_perceptual r
    = (λ e : nat * list string,
         {| grupo := e.1; similar_files := finder.str_path self <$> e.2 |})
        <$> py.enumerate_from 1 (perceptual_duplicates self)
  ∧ NoDup (results_md5 r).*1
  ∧ length (results_md5 r) = length (md5_duplicates self)
  ∧ length (results_perceptual r) = length (perceptual_duplicates self).
Proof.
  intros r.
  assert (Hkeys : NoDup ((λ e : nat * (string * list string),
                            "grupo_" +:+ pretty e.1)
                           <$> py.enumerate_from 1 (md5_duplicates self))).
  { change (λ e : nat * (string * list string), "grupo_" +:+ pretty e.1)
      with ((λ i : nat, "grupo_" +:+ pretty i)
              ∘ (fst : nat * (string * list string) → nat)).
    rewrite list_fmap_compose, enumerate_from_fst.
    apply NoDup_fmap_2; [|apply NoDup_seq].
    intros i j Heq. apply String.app_inj in Heq. by apply (inj pretty). }
  assert (Hmd5 : results_md5 r
                 = (λ e : nat * (string * list string),
                      ("grupo_" +:+ pretty e.1,
                       {| hash := e.2.1;
                          files := finder.str_path self <$> e.2.2 |}))
                     <$> py.enumerate_from 1 (md5_duplicates self)).
  { subst r. cbn [finder.save_results_json results_md5].
    by rewrite (foldl_dict_set_fresh
                  (λ e : nat * (string * list string), "grupo_" +:+ pretty e.1)
                  (λ e : nat * (string * list string),
                     {| hash := e.2.1;
                        files := finder.str_path self <$> e.2.2 |})). }
  assert (Hper : results_perceptual r
                 = (λ e : nat * list string,
                      {| grupo := e.1;
                         similar_files := finder.str_path self <$> e.2 |})
                     <$> py.enumerate_from 1 (perceptual_duplicates self)).
  { subst r. cbn [finder.save_results_json results_perceptual].
    by rewrite (foldl_snoc
                  (λ e : nat * list string,
                     {| grupo := e.1;
                        similar_files := finder.str_path self <$> e.2 |})). }
  split_and!; [done..| | |].
  - rewrite Hmd5, <- list_fmap_compose. exact Hkeys.
  - by rewrite Hmd5, length_fmap, enumerate_from_length.
  - by rewrite Hper, length_fmap, enumerate_from_length.
Qed.

(** ** The counts of the two stages *)

Lemma total_duplicates_concat (groups : list (list string)) :
  Forall (λ g, 1 ≤ length g) groups →
  finder.total_duplicates groups + length groups = length (concat groups).
Proof.
  unfold finder.total_duplicates.
  induction 1 as [|g groups Hg _ IH]; [done|].
  rewrite fmap_cons. cbn [sum_list sum_list_with concat length].
  rewrite length_app. unfold sum_list, id in *. lia.
Qed.

Lemma total_duplicates_groups (groups : list (list string)) :
  Forall (λ g, 2 ≤ length g) groups →
  length groups ≤ finder.total_duplicates groups.
Proof.
  unfold finder.total_duplicates.
  induction 1 as [|g groups Hg _ IH]; [done|].
  rewrite fmap_cons. cbn [sum_list sum_list_with length].
  unfold sum_list, id in *. lia.
Qed.

Lemma NoDup_concat_classes {K A} (d : A → K) (l : list (K * list A)) :
  NoDup l.*1 →
  (∀ k files, (k, files) ∈ l → NoDup files ∧ ∀ p, p ∈ files → d p = k) →
  NoDup (concat l.*2).
Proof.
  induction l as [|[k files] l IH]; intros Hnd Hl; [constructor|].
  rewrite fmap_cons in Hnd. apply NoDup_cons in Hnd as [Hk Hnd].
  rewrite fmap_cons. cbn [concat snd]. apply NoDup_app. split_and!.
  - apply (Hl k files). left.
  - intros p Hp Hin. apply elem_of_concat in Hin as (g & Hg & Hpg).
    apply list_elem_of_fmap in Hg as ([k' files'] & -> & Hin).
    cbn [snd] in Hpg. apply Hk.
    assert (d p = k) as <- by (apply (Hl k files); [left|done]).
    assert (d p = k') as -> by (apply (Hl k' files'); [by right|done]).
    apply list_elem_of_fmap. by exists (k', files').
  - apply IH; [done|]. intros k' files' Hin. apply Hl. by right.
Qed.

Lemma length_le_of_subset (l k : list string) :
  NoDup l → (∀ x, x ∈ l → x ∈ k) → length l ≤ length k.
Proof. intros Hnd Hsub. by apply submseteq_length, NoDup_submseteq. Qed.

(** X9. The counts of a run: in each stage the printed number of
    duplicates, [sum(len(group) - 1)], plus the number of groups is the
    number of files in groups, which is never above the number of images
    analysed; and there are never more groups than duplicates.  No file is
    counted twice in a stage. *)
Theorem X9_duplicate_counts {H : HashLib} {I : ImageLib}
    (source_folder : string) (t : timeline) :
  let self := (finder.stages source_folder t).1 in
  let exact := (md5_duplicates self).*2 in
  let similar := perceptual_duplicates self in
  (NoDup (concat exact)
   ∧ finder.total_duplicates exact + length exact = length (concat exact)
   ∧ length (concat exact) ≤ length (all_images self)
   ∧ length exact ≤ finder.total_duplicates exact)
  ∧ (NoDup (concat similar)
     ∧ finder.total_duplicates similar + length similar
       = length (concat similar)
     ∧ length (concat similar) ≤ length (all_images self)
     ∧ length similar ≤ finder.total_duplicates similar).
Proof.
  intros self exact similar.
  assert (Hall : all_images self = (finder.get_image_files (at_scan t)).1)
    by apply stages_all_images.
  assert (Hexact : md5_duplicates self
                   = md5_duplicates
                       (finder.find_md5_duplicates (at_scan t) (at_md5 t)
                          (finder.init source_folder)).1)
    by apply stages_md5_duplicates.
  assert (Hsimilar : similar
                     = perceptual_duplicates
                         (finder.find_perceptual_duplicates (at_phash t)
                            finder.threshold_085
                            (finder.find_md5_duplicates (at_scan t) (at_md5 t)
                               (finder.init source_folder)).1).1).
  { subst similar self. by rewrite stages_finder. }
  assert (Hsizes : Forall (λ g : list string, 2 ≤ length g) exact).
  { subst exact. rewrite Hexact. apply Forall_fmap.
    apply find_md5_duplicates_sizes. }
  assert (Hsizes' : Forall (λ g : list string, 2 ≤ length g) similar).
  { rewrite Hsimilar. apply find_perceptual_duplicates_sizes. }
  assert (Hnd : NoDup (concat exact)).
  { subst exact. rewrite Hexact.
    apply (NoDup_concat_classes (λ p, (finder.calculate_md5 (at_md5 t) p).1)).
    - destruct (find_md5_duplicates_fields (at_scan t) (at_md5 t)
                  (finder.init source_folder)) as [_ ->].
      eapply sublist_NoDup; [|apply fmap_sublist, sublist_filter].
      apply md5_loop_NoDup. constructor.
    - intros k files Hin. split.
      + apply exact_groups_classes in Hin as [-> _].
        apply NoDup_filter, get_image_files_NoDup.
      + intros p Hp.
        by destruct (exact_group_member _ _ _ _ _ _ Hin Hp) as (_ & ? & _). }
  assert (Hnd' : NoDup (concat similar)).
  { rewrite Hsimilar. apply find_perceptual_duplicates_NoDup. }
  split; split_and!; try done.
  - apply total_duplicates_concat.
    eapply Forall_impl; [exact Hsizes|]. cbn. lia.
  - apply length_le_of_subset; [done|]. intros p Hp.
    apply elem_of_concat in Hp as (g & Hg & Hp). subst exact.
    apply list_elem_of_fmap in Hg as ([k files] & -> & Hin).
    rewrite Hexact in Hin. rewrite Hall.
    by destruct (exact_group_member _ _ _ _ _ _ Hin Hp) as (? & _).
  - by apply total_duplicates_groups.
  - apply total_duplicates_concat.
    eapply Forall_impl; [exact Hsizes'|]. cbn. lia.
  - apply length_le_of_subset; [done|]. intros p Hp.
    apply elem_of_concat in Hp as (g & Hg & Hp).
    rewrite Hsimilar in Hg.
    destruct (similar_group_member _ _ _ _ _ Hg Hp) as [Hin _].
    destruct (find_md5_duplicates_fields (at_scan t) (at_md5 t)
                (finder.init source_folder)) as [Hfield _].
    rewrite Hall, <- Hfield. exact Hin.
  - by apply total_duplicates_groups.
Qed.

(** ** An image that is gone after the scan *)

Section vanished.
Context {H : HashLib} {I : ImageLib}.
Implicit Types (fs : filesystem) (p q : string) (m : message).

Lemma safe_file_access_closed fs p :
  pathlib.open_rb fs p = None → finder.safe_file_access fs p = false.
Proof.
  intros Hopen. destruct (finder.safe_file_access fs p) eqn:Hs; [|done].
  apply safe_file_access_open in Hs as [content Hc]. congruence.
Qed.

Lemma calculate_perceptual_hash_unreadable fs p :
  pathlib.open_rb fs p = None →
  finder.calculate_perceptual_hash fs p = (EmptyString, []).
Proof.
  intros Hopen%safe_file_access_closed.
  unfold finder.calculate_perceptual_hash. by rewrite Hopen.
Qed.

Lemma calculate_md5_printed fs q m :
  m ∈ (finder.calculate_md5 fs q).2 → m = ErroMD5 q.
Proof.
  unfold finder.calculate_md5.
  destruct (negb (finder.safe_file_access fs q));
    [by intros ?%not_elem_of_nil|].
  destruct (pathlib.open_rb fs q); cbn [snd];
    [by intros ?%not_elem_of_nil|by intros ?%list_elem_of_singleton].
Qed.

Lemma calculate_perceptual_hash_printed fs q m :
  m ∈ (finder.calculate_perceptual_hash fs q).2 → m = ErroPerceptual q.
Proof.
  unfold finder.calculate_perceptual_hash.
  destruct (negb (finder.safe_file_access fs q));
    [by intros ?%not_elem_of_nil|].
  destruct (pathlib.open_rb fs q) as [f|]; cbn [snd];
    [|by intros ?%list_elem_of_singleton].
  destruct (Image_open f) as [img|]; cbn [snd];
    [|by intros ?%list_elem_of_singleton].
  destruct (dhash img 16); cbn [snd];
    [by intros ?%not_elem_of_nil|by intros ?%list_elem_of_singleton].
Qed.

(** Whatever the first loop prints was printed before it, or is about
    one of its images. *)
Lemma md5_loop_printed fs images st m :
  m ∈ (foldl (finder.md5_step fs) st images).2 →
  m ∈ st.2 ∨ ∃ q, q ∈ images ∧ m ∈ (finder.calculate_md5 fs q).2.
Proof.
  revert st. induction images as [|q images IH]; intros [d out]; [by left|].
  cbn [foldl]. intros [Hm|(q' & Hq' & Hm)]%IH.
  - unfold finder.md5_step in Hm.
    destruct (finder.calculate_md5 fs q) as [md5 printed] eqn:Hcalc.
    cbn [snd] in Hm. apply elem_of_app in Hm as [Hm|Hm]; [by left|].
    right. exists q. split; [left|]. by rewrite Hcalc.
  - right. exists q'. split; [by right|done].
Qed.

Lemma phash_loop_printed fs images st m :
  m ∈ (foldl (finder.phash_step fs) st images).2 →
  m ∈ st.2
  ∨ ∃ q, q ∈ images
         ∧ (m ∈ (finder.calculate_perceptual_hash fs q).2
            ∨ (m = ErroConverter q
               ∧ (finder.calculate_perceptual_hash fs q).1 ≠ EmptyString)).
Proof.
  revert st. induction images as [|q images IH]; intros [d out]; [by left|].
  cbn [foldl]. intros [Hm|(q' & Hq' & Hm)]%IH.
  - unfold finder.phash_step in Hm.
    destruct (finder.calculate_perceptual_hash fs q) as [phash printed]
      eqn:Hcalc.
    assert (Hcases : m ∈ out ∨ m ∈ printed
                     ∨ (m = ErroConverter q ∧ phash ≠ EmptyString)).
    { destruct (decide (phash = EmptyString)) as [Hp|Hp].
      - cbn [snd] in Hm. apply elem_of_app in Hm. tauto.
      - destruct (hex_to_hash phash); cbn [snd] in Hm.
        + apply elem_of_app in Hm. tauto.
        + rewrite !elem_of_app, list_elem_of_singleton in Hm. tauto. }
    destruct Hcases as [?|Hcases]; [by left|].
    right. exists q. split; [left|]. rewrite Hcalc. cbn [fst snd]. tauto.
  - right. exists q'. split; [by right|done].
Qed.
End vanished.

(** X10. An image that was enumerated by the scan and can no longer be
    opened when it is digested and when it is fingerprinted (it was
    removed, or made unreadable, in between) is skipped without a word:
    it is still counted among the images analysed, it is in no exact and
    in no similar group, and no warning or error names it. *)
Theorem X10_vanished_image_is_skipped_silently {H : HashLib} {I : ImageLib}
    (source_folder now : string) (t : timeline) (p : string) :
  p ∈ (finder.get_image_files (at_scan t)).1 →
  pathlib.open_rb (at_md5 t) p = None →
  pathlib.open_rb (at_phash t) p = None →
  let self := (finder.stages source_folder t).1 in
  let out := (finder.stages source_folder t).2 in
  finder.calculate_md5 (at_md5 t) p = (EmptyString, [])
  ∧ finder.calculate_perceptual_hash (at_phash t) p = (EmptyString, [])
  ∧ p ∈ all_images self
  ∧ total_images (finder.save_results_json now self)
    = length (finder.get_image_files (at_scan t)).1
  ∧ (∀ k files, (k, files) ∈ md5_duplicates self → p ∉ files)
  ∧ (∀ g, g ∈ perceptual_duplicates self → p ∉ g)
  ∧ (AvisoInacessivel p ∉ out) ∧ (ErroMD5 p ∉ out)
  ∧ (ErroPerceptual p ∉ out) ∧ (ErroConverter p ∉ out).
Proof.
  intros Hp Hmd5 Hphash self out.
  assert (Hcalc : finder.calculate_md5 (at_md5 t) p = (EmptyString, []))
    by (by apply calculate_md5_unreadable, safe_file_access_closed).
  assert (Hcalc' : finder.calculate_perceptual_hash (at_phash t) p
                   = (EmptyString, []))
    by (by apply calculate_perceptual_hash_unreadable).
  assert (Hall : all_images self = (finder.get_image_files (at_scan t)).1)
    by apply stages_all_images.
  assert (Hscan : ∀ m, m ∈ (finder.get_image_files (at_scan t)).2 →
                       m = ErroListar
                       ∨ ∃ q, m = AvisoInacessivel q
                              ∧ ¬ finder.safe_file_access (at_scan t) q).
  { intros m. destruct (iterdir (at_scan t)) as [names|] eqn:Hnames.
    - rewrite (get_image_files_listed _ names Hnames). cbn [snd].
      intros (q & -> & [[_ Hq] _]%list_elem_of_filter)%list_elem_of_fmap.
      right. exists q. split; [done|]. apply Hq.
    - rewrite (get_image_files_unlisted _ Hnames). cbn [snd].
      intros ->%list_elem_of_singleton. by left. }
  assert (Hsafe : finder.safe_file_access (at_scan t) p).
  { destruct (iterdir (at_scan t)) as [names|] eqn:Hnames.
    - by apply (get_image_files_elem _ names p Hnames) in Hp as (_ & _ & ?).
    - rewrite (get_image_files_unlisted _ Hnames) in Hp.
      by apply not_elem_of_nil in Hp. }
  assert (Hout : ∀ m, m ∈ out →
            m ∈ (finder.get_image_files (at_scan t)).2
            ∨ (∃ q, q ∈ all_images self
                    ∧ m ∈ (finder.calculate_md5 (at_md5 t) q).2)
            ∨ ∃ q, q ∈ all_images self
                   ∧ (m ∈ (finder.calculate_perceptual_hash (at_phash t) q).2
                      ∨ (m = ErroConverter q
                         ∧ (finder.calculate_perceptual_hash (at_phash t) q).1
                           ≠ EmptyString))).
  { intros m. subst out. rewrite stages_out, elem_of_app.
    rewrite find_perceptual_duplicates_out.
    destruct (find_md5_duplicates_fields (at_scan t) (at_md5 t)
                (finder.init source_folder)) as [-> _].
    rewrite Hall. intros [Hm|Hm].
    - unfold finder.find_md5_duplicates in Hm.
      destruct (finder.get_image_files (at_scan t)) as [images out0].
      destruct (foldl (finder.md5_step (at_md5 t))
                  (md5_duplicates (finder.init source_folder), out0) images)
        as [duplicates out1] eqn:Hloop.
      cbn [snd fst] in *.
      pose proof (md5_loop_printed (at_md5 t) images
                    (md5_duplicates (finder.init source_folder), out0) m)
        as Hprinted.
      rewrite Hloop in Hprinted. cbn [snd] in Hprinted.
      destruct (Hprinted Hm); auto.
    - apply phash_loop_printed in Hm as [?%not_elem_of_nil|?]; [done|auto]. }
  split_and!; try done.
  - by rewrite Hall.
  - cbn [finder.save_results_json total_images]. by rewrite Hall.
  - intros k files Hin Hpf. subst self.
    rewrite stages_md5_duplicates in Hin.
    destruct (exact_group_member _ _ _ _ _ _ Hin Hpf) as (_ & Hk & Hne).
    rewrite Hcalc in Hk. by cbn [fst] in Hk.
  - intros g Hg Hpg. subst self. rewrite stages_finder in Hg.
    destruct (similar_group_member _ _ _ _ _ Hg Hpg) as [_ Hsome].
    unfold finder.fingerprint in Hsome. rewrite Hcalc' in Hsome.
    cbn [fst] in Hsome. rewrite decide_True in Hsome by done.
    by destruct Hsome.
  - intros [Hm|[(q & _ & Hm)|(q & _ & [Hm|[Hm _]])]]%Hout.
    + apply Hscan in Hm as [?|(q & [= <-] & Hq)]; done.
    + by apply calculate_md5_printed in Hm.
    + by apply calculate_perceptual_hash_printed in Hm.
    + done.
  - intros [Hm|[(q & _ & Hm)|(q & _ & [Hm|[Hm _]])]]%Hout.
    + apply Hscan in Hm as [?|(q & ? & _)]; done.
    + pose proof (calculate_md5_printed _ _ _ Hm) as [= <-].
      rewrite Hcalc in Hm. by apply not_elem_of_nil in Hm.
    + by apply calculate_perceptual_hash_printed in Hm.
    + done.
  - intros [Hm|[(q & _ & Hm)|(q & _ & [Hm|[Hm _]])]]%Hout.
    + apply Hscan in Hm as [?|(q & ? & _)]; done.
    + by apply calculate_md5_printed in Hm.
    + pose proof (calculate_perceptual_hash_printed _ _ _ Hm) as [= <-].
      rewrite Hcalc' in Hm. by apply not_elem_of_nil in Hm.
    + done.
  - intros [Hm|[(q & _ & Hm)|(q & _ & [Hm|[Hm Hne]])]]%Hout.
    + apply Hscan in Hm as [?|(q & ? & _)]; done.
    + by apply calculate_md5_printed in Hm.
    + by apply calculate_perceptual_hash_printed in Hm.
    + injection Hm as <-. rewrite Hcalc' in Hne. by cbn [fst] in Hne.
Qed.

Lemma X10_vanished_image_is_skipped_silently_witness :
  let t := {| at_scan := sample.mixed; at_md5 := sample.mixed_later;
              at_phash := sample.mixed_later |} in
  "a.jpg" ∈ all_images (finder.stages "/photos" t).1
  ∧ (∀ g, g ∈ perceptual_duplicates (finder.stages "/photos" t).1 →
          "a.jpg" ∉ g)
  ∧ ErroPerceptual "a.jpg" ∉ (finder.stages "/photos" t).2.
Proof.
  intros t.
  assert (Hp : "a.jpg" ∈ (finder.get_image_files (at_scan t)).1)
    by (vm_compute; repeat constructor).
  destruct (X10_vanished_image_is_skipped_silently "/photos" "now" t "a.jpg"
              Hp eq_refl eq_refl)
    as (_ & _ & Hin & _ & _ & Hsimilar & _ & _ & Hsilent & _).
  exact (conj Hin (conj Hsimilar Hsilent)).
Defined.

(** * A run without images *)

(** X17. When the folder exists and the scan finds no image (the folder
    cannot be listed, or holds no accessible image), the run goes on to
    the end: it reports 0 images and no group, and prints what the scan
    printed; a folder that cannot be listed is reported by one error
    message. *)
Theorem X17_no_image_empty_report {H : HashLib} {I : ImageLib}
    (source_folder now : string) (t : timeline) :
  source_exists (at_scan t) = true →
  (finder.get_image_files (at_scan t)).1 = [] →
  finder.main source_folder now t
  = (Some {| timestamp := now; total_images := 0;
             results_md5 := []; results_perceptual := [] |},
     (finder.get_image_files (at_scan t)).2)
  ∧ (iterdir (at_scan t) = None →
     (finder.get_image_files (at_scan t)).2 = [ErroListar]).
Proof.
  intros Hexists Hnone. split.
  - unfold finder.main, finder.stages, finder.find_md5_duplicates.
    rewrite Hexists. cbn [negb].
    destruct (finder.get_image_files (at_scan t)) as [images out0].
    cbn [fst snd] in *. subst images. cbn [foldl finder.init md5_duplicates].
    unfold finder.find_perceptual_duplicates. cbn [all_images foldl].
    by rewrite app_nil_r.
  - intros Hlist. by rewrite (get_image_files_unlisted _ Hlist).
Qed.

Lemma X17_no_image_empty_report_witness :
  finder.main "/photos" "2024-01-01T00:00:00"
    (static {| source_exists := true; iterdir := None; nodes := ∅ |})
  = (Some {| timestamp := "2024-01-01T00:00:00"; total_images := 0;
             results_md5 := []; results_perceptual := [] |},
     [ErroListar]).
Proof.
  destruct (X17_no_image_empty_report "/photos" "2024-01-01T00:00:00"
              (static {| source_exists := true; iterdir := None;
                         nodes := ∅ |}) eq_refl)
    as [Hmain Hout].
  - exact (f_equal fst
             (get_image_files_unlisted
                {| source_exists := true; iterdir := None; nodes := ∅ |}
                eq_refl)).
  - rewrite (Hout eq_refl) in Hmain. exact Hmain.
Defined.

(** * Further properties of the delete executor *)

Section executor_frame.
Import deleter.
Implicit Types (d : disk) (st : state) (p q x : string).

Lemma string_app_assoc (a b c : string) :
  (a +:+ b) +:+ c = a +:+ (b +:+ c).
Proof.
  induction a as [|x a IH]; [done|].
  change (String x ((a +:+ b) +:+ c) = String x (a +:+ (b +:+ c))).
  by rewrite IH.
Qed.

Lemma joinpath_joinpath a b c :
  joinpath (joinpath a b) c = joinpath a (b +:+ "/" +:+ c).
Proof.
  unfold joinpath. by rewrite string_app_assoc.
Qed.

(** What an iteration leaves alone. *)
Lemma process_frame backup_dir st q :
  let st' := process backup_dir st q in
  protected (on_disk st') = protected (on_disk st)
  ∧ (∀ x, tree (on_disk st) !! x = Some Dir →
          tree (on_disk st') !! x = Some Dir)
  ∧ (∀ x, x ≠ q → is_Some (tree (on_disk st) !! x) →
          is_Some (tree (on_disk st') !! x))
  ∧ (∀ x, (∀ rest, x ≠ joinpath backup_dir rest) →
          tree (on_disk st') !! x = tree (on_disk st) !! x
          ∨ (x = q ∧ tree (on_disk st') !! x = None)).
Proof.
  intros st'. subst st'. unfold process.
  destruct (negb _); [by auto|].
  destruct (copy2 _ _ _) as [[copied target]|] eqn:Hcopy; [|by auto].
  pose proof (copy2_target _ _ _ _ _ Hcopy) as Hnodir.
  apply copy2_Some in Hcopy as (content & Hsrc & Hne & Htarget & ->).
  assert (Hinside : ∃ rest, target = joinpath backup_dir rest).
  { destruct Htarget as [->| ->]; [by eexists|].
    rewrite joinpath_joinpath. by eexists. }
  destruct Hinside as [rest Hrest].
  destruct (unlink _ _) as [removed|] eqn:Hunlink.
  - apply unlink_Some in Hunlink as ->. cbn [on_disk tree protected].
    split_and!; [done|..].
    + intros x Hx. rewrite lookup_delete_ne by congruence.
      rewrite lookup_insert_ne by congruence. done.
    + intros x Hx Hsome. rewrite lookup_delete_ne by done.
      destruct (decide (x = target)) as [->|];
        [by rewrite lookup_insert_eq|by rewrite lookup_insert_ne].
    + intros x Hx. destruct (decide (x = q)) as [->|].
      * right. by rewrite lookup_delete_eq.
      * left. rewrite lookup_delete_ne by done.
        rewrite lookup_insert_ne; [done|]. intros <-. by apply (Hx rest).
  - cbn [on_disk tree protected]. split_and!; [done|..].
    + intros x Hx. rewrite lookup_insert_ne by congruence. done.
    + intros x Hx Hsome. destruct (decide (x = target)) as [->|];
        [by rewrite lookup_insert_eq|by rewrite lookup_insert_ne].
    + intros x Hx. left.
      rewrite lookup_insert_ne; [done|]. intros <-. by apply (Hx rest).
Qed.

Lemma process_loop_frame backup_dir files st :
  let st' := foldl (process backup_dir) st files in
  protected (on_disk st') = protected (on_disk st)
  ∧ (∀ x, tree (on_disk st) !! x = Some Dir →
          tree (on_disk st') !! x = Some Dir)
  ∧ (∀ x, x ∉ files → is_Some (tree (on_disk st) !! x) →
          is_Some (tree (on_disk st') !! x))
  ∧ (∀ x, (∀ rest, x ≠ joinpath backup_dir rest) →
          tree (on_disk st') !! x = tree (on_disk st) !! x
          ∨ (x ∈ files ∧ tree (on_disk st') !! x = None)).
Proof.
  revert st. induction files as [|q files IH]; intros st; cbn [foldl].
  { split_and!; auto. }
  destruct (IH (process backup_dir st q)) as (Hprot & Hdir & Hkeep & Hout).
  destruct (process_frame backup_dir st q) as (Hprot1 & Hdir1 & Hkeep1 & Hout1).
  split_and!.
  - by rewrite Hprot.
  - auto.
  - intros x [Hq Hx]%not_elem_of_cons Hsome. auto.
  - intros x Hx. destruct (Hout x Hx) as [Heq|[Hin Hnone]].
    + rewrite Heq. destruct (Hout1 x Hx) as [?|[Hxq Hnone]]; [by left|].
      right. split; [rewrite Hxq; left|done].
    + right. split; [by right|done].
Qed.
Lemma mkdir_Some backup_dir d d1 :
  mkdir backup_dir d = Some d1 →
  protected d1 = protected d
  ∧ tree d1 !! backup_dir = Some Dir
  ∧ ∀ x, x ≠ backup_dir → tree d1 !! x = tree d !! x.
Proof.
  unfold mkdir. destruct (tree d !! backup_dir) as [[]|] eqn:Hdir; try done.
  - by intros [= <-].
  - case_decide; [done|]. intros [= <-]. cbn [tree protected].
    split_and!; [done|by rewrite lookup_insert_eq|].
    intros x Hx. by rewrite lookup_insert_ne.
Qed.

(** The disk a run leaves: the disk it found, or what the loop leaves of
    it once the backup directory is there. *)
Lemma create_backup_and_delete_disk files stamp now d :
  (create_backup_and_delete (Some files) stamp now d).2 = d
  ∨ ∃ d1,
      mkdir ("backup_deletions_" +:+ stamp) d = Some d1
      ∧ (create_backup_and_delete (Some files) stamp now d).2
        = on_disk (process_all ("backup_deletions_" +:+ stamp) d1
                     (pathlib.Path <$> files)).
Proof.
  unfold create_backup_and_delete.
  destruct files as [|file_path files]; [by left|].
  destruct (mkdir _ d) as [d1|]; [|by left].
  right. exists d1. split; [done|].
  case_decide; [done|]. by destruct (tree _ !! _) as [[]|].
Qed.

(** The log that is written, and the disk that is left. *)
Lemma create_backup_and_delete_Some files stamp now d log d' :
  create_backup_and_delete (Some files) stamp now d = (Some log, d') →
  ∃ d1,
    mkdir ("backup_deletions_" +:+ stamp) d = Some d1
    ∧ d' = on_disk (process_all ("backup_deletions_" +:+ stamp) d1
                      (pathlib.Path <$> files))
    ∧ log
      = {| log_timestamp := now;
           backup_directory := "backup_deletions_" +:+ stamp;
           total_requested := length files;
           successfully_deleted :=
             deleted_count
               (process_all ("backup_deletions_" +:+ stamp) d1
                  (pathlib.Path <$> files));
           errors :=
             error_count
               (process_all ("backup_deletions_" +:+ stamp) d1
                  (pathlib.Path <$> files));
           deleted_files :=
             name <$> filter (λ f, exists_ d' f = false)
                             (pathlib.Path <$> files) |}.
Proof.
  unfold create_backup_and_delete.
  destruct files as [|file_path files]; [done|].
  destruct (mkdir _ d) as [d1|]; [|done].
  intros Hrun. exists d1. split; [done|].
  case_decide; [by simplify_eq|].
  destruct (tree _ !! _) as [[]|]; by simplify_eq.
Qed.

(** A file that is not there is an error. *)
Lemma process_missing backup_dir st p :
  tree (on_disk st) !! p = None →
  error_count (process backup_dir st p) = error_count st + 1.
Proof. intros Hp. unfold process, exists_. by rewrite Hp. Qed.
End executor_frame.

(** X11. A run of [create_backup_and_delete] on a request that names
    every file by its plain path changes nothing but the requested files
    and the backup directory: what cannot be written or removed stays so,
    a directory is never removed or replaced, a path that was not
    requested is still there afterwards, and a path outside the backup
    directory either is as before or was requested and is gone, so no
    file is ever created outside the backup directory. *)
Theorem X11_executor_frame (files_to_delete : list string)
    (stamp now : string) (d : deleter.disk) :
  Forall (λ f, pathlib.plain (pathlib.Path f)) files_to_delete →
  let backup_dir := "backup_deletions_" +:+ stamp in
  let source_paths := pathlib.Path <$> files_to_delete in
  let final :=
    (deleter.create_backup_and_delete (Some files_to_delete) stamp now d).2 in
  deleter.protected final = deleter.protected d
  ∧ (∀ x, deleter.tree d !! x = Some Dir →
          deleter.tree final !! x = Some Dir)
  ∧ (∀ x, x ∉ source_paths → is_Some (deleter.tree d !! x) →
          is_Some (deleter.tree final !! x))
  ∧ (∀ x, x ≠ backup_dir →
          (∀ rest, x ≠ deleter.joinpath backup_dir rest) →
          deleter.tree final !! x = deleter.tree d !! x
          ∨ (x ∈ source_paths ∧ deleter.tree final !! x = None)).
Proof.
  intros _ backup_dir source_paths final.
  destruct (create_backup_and_delete_disk files_to_delete stamp now d)
    as [Hsame|(d1 & Hmkdir & Hfinal)]; subst final.
  { rewrite Hsame. split_and!; auto. }
  rewrite Hfinal. subst backup_dir source_paths.
  apply mkdir_Some in Hmkdir as (Hprot & Hdir & Hsame).
  set (backup_dir := "backup_deletions_" +:+ stamp) in *.
  set (source_paths := pathlib.Path <$> files_to_delete) in *.
  destruct (process_loop_frame backup_dir source_paths
              {| deleter.on_disk := d1; deleter.deleted_count := 0;
                 deleter.error_count := 0; deleter.trace := [] |})
    as (Hprot1 & Hdir1 & Hkeep1 & Hout1).
  cbn [deleter.on_disk] in *. unfold deleter.process_all.
  assert (Hd1 : ∀ x, is_Some (deleter.tree d !! x) →
                     is_Some (deleter.tree d1 !! x)).
  { intros x Hx. destruct (decide (x = backup_dir)) as [->|Hne];
      [by rewrite Hdir|by rewrite Hsame]. }
  split_and!.
  - by rewrite Hprot1.
  - intros x Hx. apply Hdir1.
    destruct (decide (x = backup_dir)) as [->|Hne]; [done|by rewrite Hsame].
  - intros x Hx Hsome. by apply Hkeep1, Hd1.
  - intros x Hne Hx. rewrite <- (Hsame x Hne). by apply Hout1.
Qed.

Lemma X11_executor_frame_witness :
  let final :=
    (deleter.create_backup_and_delete (Some sample.request) "20240101_000000"
       "2024-01-01T00:00:05" sample.photos).2 in
  deleter.tree final !! "/photos/sub" = Some Dir
  ∧ is_Some (deleter.tree final !! "/photos/locked.jpg").
Proof.
  intros final.
  assert (Hplain : Forall (λ f, pathlib.plain (pathlib.Path f))
                     sample.request)
    by (repeat constructor).
  destruct (X11_executor_frame sample.request "20240101_000000"
              "2024-01-01T00:00:05" sample.photos Hplain)
    as (_ & Hdir & _ & Hout).
  split; [apply Hdir; vm_compute; reflexivity|].
  destruct (Hout "/photos/locked.jpg") as [Heq|[_ Hgone]].
  - discriminate.
  - intros rest. vm_compute. discriminate.
  - fold final in Heq. rewrite Heq. vm_compute. by eexists.
  - exfalso. fold final in Hgone.
    assert (Hthere : deleter.tree final !! "/photos/locked.jpg"
                     = Some (File true sample.ramp2))
      by (vm_compute; reflexivity).
    congruence.
Defined.

(** ** Names of backups *)

Section backup_names.
Import deleter.
Implicit Types (d : disk) (st : state) (p q x : string).

Lemma component_rev_app (a b : string) :
  component (String.rev_app a b) = component a && component b.
Proof.
  revert b. induction a as [|c a IH]; intros b; [done|].
  cbn [String.rev_app component]. rewrite IH. cbn [component].
  case_decide; [by rewrite andb_false_r|done].
Qed.

Lemma name_go_component (acc p : string) :
  component acc → component (name_go acc p).
Proof.
  revert acc. induction p as [|c p IH]; intros acc Hacc; cbn [name_go].
  - unfold String.rev. rewrite component_rev_app, andb_true_r. done.
  - case_decide; apply IH; [done|]. cbn [component]. by rewrite decide_False.
Qed.

Lemma name_go_of_component (acc s : string) :
  component s → name_go acc s = String.rev_app acc s.
Proof.
  revert acc. induction s as [|c s IH]; intros acc; [done|].
  cbn [component name_go]. case_decide; [done|]. intros Hs.
  by rewrite IH.
Qed.

(** [Path(p).name] is a single component, and is its own name. *)
Lemma name_idem p : name (name p) = name p.
Proof.
  unfold name. destruct (decide (name_go EmptyString p = ".")) as [Hdot|Hdot].
  - done.
  - rewrite name_go_of_component by (by apply name_go_component).
    cbn [String.rev_app]. by rewrite decide_False.
Qed.

Lemma name_go_app (acc a n : string) :
  name_go acc (a +:+ String "/" n) = name_go EmptyString n.
Proof.
  revert acc. induction a as [|c a IH]; intros acc.
  - change (name_go acc (String "/" n) = name_go EmptyString n).
    cbn [name_go]. by rewrite decide_True.
  - change (name_go acc (String c (a +:+ String "/" n))
            = name_go EmptyString n).
    cbn [name_go]. case_decide; apply IH.
Qed.

Lemma name_joinpath (a n : string) : name (joinpath a n) = name n.
Proof.
  unfold name.
  by rewrite (name_go_app EmptyString a n : name_go _ (joinpath a n) = _).
Qed.

(** The copy of a file has the name of the file. *)
Lemma name_target backup_dir p target :
  target = joinpath backup_dir (name p)
  ∨ target = joinpath (joinpath backup_dir (name p)) (name p) →
  name target = name p.
Proof. intros [->| ->]; by rewrite name_joinpath, name_idem. Qed.

(** An iteration on a file that can be copied and removed. *)
Lemma process_removes backup_dir st p content :
  tree (on_disk st) !! p = Some (File true content) →
  p ∉ protected (on_disk st) →
  tree (on_disk st) !! joinpath backup_dir (name p) ≠ Some Dir →
  joinpath backup_dir (name p) ∉ protected (on_disk st) →
  joinpath backup_dir (name p) ≠ p →
  process backup_dir st p
  = {| on_disk :=
         {| tree := delete p (<[joinpath backup_dir (name p)
                                 := File true content]> (tree (on_disk st)));
            protected := protected (on_disk st) |};
       deleted_count := deleted_count st + 1;
       error_count := error_count st;
       trace := trace st ++ [Copied p (joinpath backup_dir (name p));
                             Unlinked p] |}.
Proof.
  intros Hp Hfree Hnodir Hwritable Hne.
  unfold process, exists_, copy2. rewrite Hp. cbn [negb].
  set (target := joinpath backup_dir (name p)) in *.
  assert (match tree (on_disk st) !! target with
          | Some Dir => joinpath target (name p)
          | _ => target
          end = target) as ->
    by (destruct (tree (on_disk st) !! target) as [[]|]; done).
  rewrite (decide_False (P := p = target)) by done.
  rewrite (decide_False (P := target ∈ protected (on_disk st))) by done.
  assert (match tree (on_disk st) !! target with
          | Some Dir => None
          | _ => Some ({| tree := <[target := File true content]>
                                    (tree (on_disk st));
                          protected := protected (on_disk st) |}, target)
          end
          = Some ({| tree := <[target := File true content]>
                               (tree (on_disk st));
                     protected := protected (on_disk st) |}, target)) as ->
    by (destruct (tree (on_disk st) !! target) as [[]|]; done).
  unfold unlink. cbn [tree protected].
  rewrite lookup_insert_ne by done. rewrite Hp.
  by rewrite (decide_False (P := p ∈ protected (on_disk st))).
Qed.

(** When no two requested files have the same name, the copy of a removed
    file is not touched by the rest of the loop. *)
Lemma process_loop_kept backup_dir d files st (seen : list string) :
  protected (on_disk st) = protected d →
  (∀ x, name x ∉ seen → tree (on_disk st) !! x = tree d !! x) →
  (∀ p, Unlinked p ∈ trace st →
        name p ∈ seen
        ∧ ∃ content target,
            tree d !! p = Some (File true content)
            ∧ (target = joinpath backup_dir (name p)
               ∨ target = joinpath (joinpath backup_dir (name p)) (name p))
            ∧ (tree d !! joinpath backup_dir (name p) ≠ Some Dir →
               target = joinpath backup_dir (name p))
            ∧ (p ∉ protected d)
            ∧ tree (on_disk st) !! target = Some (File true content)
            ∧ tree (on_disk st) !! p = None) →
  NoDup (name <$> files) →
  (∀ q, q ∈ files → name q ∉ seen) →
  ∀ p, Unlinked p ∈ trace (foldl (process backup_dir) st files) →
       ∃ content target,
         tree d !! p = Some (File true content)
         ∧ (target = joinpath backup_dir (name p)
            ∨ target = joinpath (joinpath backup_dir (name p)) (name p))
         ∧ (tree d !! joinpath backup_dir (name p) ≠ Some Dir →
            target = joinpath backup_dir (name p))
         ∧ (p ∉ protected d)
         ∧ tree (on_disk (foldl (process backup_dir) st files)) !! target
           = Some (File true content)
         ∧ tree (on_disk (foldl (process backup_dir) st files)) !! p = None.
Proof.
  revert st seen.
  induction files as [|q files IH];
    intros st seen Hprot Hframe Hinv Hnd Hfresh.
  { intros p Hin. by destruct (Hinv p Hin) as [_ ?]. }
  rewrite fmap_cons in Hnd. apply NoDup_cons in Hnd as [Hq Hnd].
  assert (Hqseen : name q ∉ seen) by (apply Hfresh; left).
  cbn [foldl]. apply (IH _ (name q :: seen)); [| | |done|].
  - destruct (process_frame backup_dir st q) as [-> _]. done.
  - intros x [Hxq Hx]%not_elem_of_cons.
    destruct (process_trace backup_dir st q)
      as [[_ ->]|(content & target & copied & Hsrc & Hne & Ht & Hcopied
                  & [[_ ->]|[_ ->]])]; [by apply Hframe| |];
      subst copied; cbn [tree].
    + rewrite lookup_insert_ne; [by apply Hframe|].
      intros <-. by rewrite (name_target _ _ _ Ht) in Hxq.
    + rewrite lookup_delete_ne by congruence.
      rewrite lookup_insert_ne; [by apply Hframe|].
      intros <-. by rewrite (name_target _ _ _ Ht) in Hxq.
  - intros p Hin.
    assert (Hold : Unlinked p ∈ trace st →
              name p ∈ name q :: seen
              ∧ ∃ content target,
                  tree d !! p = Some (File true content)
                  ∧ (target = joinpath backup_dir (name p)
                     ∨ target
                       = joinpath (joinpath backup_dir (name p)) (name p))
                  ∧ (tree d !! joinpath backup_dir (name p) ≠ Some Dir →
                     target = joinpath backup_dir (name p))
                  ∧ (p ∉ protected d)
                  ∧ tree (on_disk (process backup_dir st q)) !! target
                    = Some (File true content)
                  ∧ tree (on_disk (process backup_dir st q)) !! p = None).
    { intros Hp. destruct (Hinv p Hp)
        as (Hseen & content & target & Hd & Ht & Hform & Hfree & Hcopy
            & Hnone).
      split; [by right|]. exists content, target.
      pose proof (name_target _ _ _ Ht) as Hname.
      assert (Hpq : name p ≠ name q)
        by (intros Heq; by rewrite Heq in Hseen).
      destruct (process_trace backup_dir st q)
        as [[_ ->]|(content' & target' & copied & Hsrc & Hne & Ht' & Hcopied
                    & [[_ ->]|[_ ->]])]; [done| |];
        subst copied; cbn [tree];
        pose proof (name_target _ _ _ Ht') as Hname'.
      - rewrite !lookup_insert_ne; [done|congruence..].
      - rewrite !lookup_delete_ne by congruence.
        rewrite !lookup_insert_ne; [done|congruence..]. }
    destruct (process_cases backup_dir st q)
      as [[Htr _]|(content & target & copied & Hsrc & Hne & Ht & Hform
                   & Hcopied & [[Htr _]|(Hfree & Htr & Hdisk)])];
      rewrite Htr in Hin.
    + by apply Hold.
    + apply elem_of_app in Hin as [?|Hin]; [by apply Hold|].
      by apply list_elem_of_singleton in Hin.
    + apply elem_of_app in Hin as [?|Hin]; [by apply Hold|].
      apply elem_of_cons in Hin as [?|Hin]; [done|].
      apply list_elem_of_singleton in Hin as [= ->].
      split; [left|]. exists content, target.
      rewrite Hdisk. subst copied. cbn [tree]. split_and!; [|done| | | |].
      * by rewrite <- Hframe.
      * rewrite <- Hframe; [done|]. by rewrite name_joinpath, name_idem.
      * by rewrite <- Hprot.
      * rewrite lookup_delete_ne by done. by rewrite lookup_insert_eq.
      * by rewrite lookup_delete_eq.
  - intros q' Hq' [Heq|Hin]%elem_of_cons.
    + apply Hq. rewrite <- Heq. by apply list_elem_of_fmap_2.
    + apply (Hfresh q'); [by right|done].
Qed.

(** What is in the trace stays in it. *)
Lemma process_loop_trace backup_dir files st (ev : event) :
  ev ∈ trace st → ev ∈ trace (foldl (process backup_dir) st files).
Proof.
  revert st. induction files as [|q files IH]; intros st Hin; [done|].
  cbn [foldl]. apply IH.
  destruct (process_trace backup_dir st q)
    as [[-> _]|(content & target & copied & _ & _ & _ & _
                & [[-> _]|[-> _]])]; [done|..];
    apply elem_of_app; by left.
Qed.

(** A path that is gone when the loop ends was removed by the loop. *)
Lemma process_loop_gone backup_dir files st p :
  is_Some (tree (on_disk st) !! p) →
  tree (on_disk (foldl (process backup_dir) st files)) !! p = None →
  Unlinked p ∈ trace (foldl (process backup_dir) st files).
Proof.
  revert st. induction files as [|q files IH]; intros st Hsome Hnone.
  { cbn [foldl] in Hnone. rewrite Hnone in Hsome. by destruct Hsome. }
  cbn [foldl] in *.
  destruct (tree (on_disk (process backup_dir st q)) !! p) eqn:Hstep;
    [apply IH; [by rewrite Hstep|done]|].
  apply process_loop_trace.
  destruct (process_trace backup_dir st q)
    as [[_ Hdisk]|(content & target & copied & _ & _ & _ & Hcopied
                   & [[_ Hdisk]|[Htr Hdisk]])];
    rewrite Hdisk in Hstep.
  - rewrite Hstep in Hsome. by destruct Hsome.
  - subst copied. cbn [tree] in Hstep.
    destruct (decide (p = target)) as [->|];
      [by rewrite lookup_insert_eq in Hstep|].
    rewrite lookup_insert_ne in Hstep by done.
    rewrite Hstep in Hsome. by destruct Hsome.
  - rewrite Htr. subst copied. cbn [tree] in Hstep.
    destruct (decide (p = q)) as [->|];
      [apply elem_of_app; right; right; left|].
    rewrite lookup_delete_ne in Hstep by done.
    destruct (decide (p = target)) as [->|];
      [by rewrite lookup_insert_eq in Hstep|].
    rewrite lookup_insert_ne in Hstep by done.
    rewrite Hstep in Hsome. by destruct Hsome.
Qed.

Lemma joinpath_ne (a n : string) : joinpath a n ≠ a.
Proof.
  unfold joinpath. induction a as [|c a IH]; [done|].
  change (String c (a +:+ "/" +:+ n) ≠ String c a). congruence.
Qed.

Lemma name_of_component (n : string) :
  component n → n ≠ "." → name n = n.
Proof.
  intros Hn Hdot. unfold name. rewrite name_go_of_component by done.
  cbn [String.rev_app]. by rewrite decide_False.
Qed.

(** The errors are never taken back. *)
Lemma process_loop_errors backup_dir files st :
  error_count st ≤ error_count (foldl (process backup_dir) st files).
Proof.
  revert st. induction files as [|q files IH]; intros st; cbn [foldl]; [done|].
  etrans; [|apply IH].
  destruct (process_counts backup_dir st q) as [[_ ->]|[_ ->]]; lia.
Qed.
End backup_names.

(** X12. Two requested files with the same name in different folders
    share one backup path: both are removed and both are counted as
    deleted, without any error, and the backup holds the bytes of the
    second only; nothing else on the disk changes, so the bytes of the
    first are kept only if they were elsewhere. *)
Theorem X12_same_name_backup_overwritten (backup_dir : string)
    (d : deleter.disk) (p1 p2 : string) (c1 c2 : list byte) :
  p1 ≠ p2 →
  deleter.name p1 = deleter.name p2 →
  deleter.tree d !! p1 = Some (File true c1) →
  deleter.tree d !! p2 = Some (File true c2) →
  p1 ∉ deleter.protected d →
  p2 ∉ deleter.protected d →
  let target := deleter.joinpath backup_dir (deleter.name p1) in
  deleter.tree d !! target ≠ Some Dir →
  target ∉ deleter.protected d →
  target ≠ p1 →
  target ≠ p2 →
  let st := deleter.process_all backup_dir d [p1; p2] in
  deleter.deleted_count st = 2
  ∧ deleter.error_count st = 0
  ∧ deleter.trace st
    = [deleter.Copied p1 target; deleter.Unlinked p1;
       deleter.Copied p2 target; deleter.Unlinked p2]
  ∧ deleter.tree (deleter.on_disk st) !! p1 = None
  ∧ deleter.tree (deleter.on_disk st) !! p2 = None
  ∧ deleter.tree (deleter.on_disk st) !! target = Some (File true c2)
  ∧ ∀ x, x ≠ p1 → x ≠ p2 → x ≠ target →
         deleter.tree (deleter.on_disk st) !! x = deleter.tree d !! x.
Proof.
  intros Hne Hname Hp1 Hp2 Hfree1 Hfree2 target Hnodir Hwritable Ht1 Ht2 st.
  subst st. unfold deleter.process_all. cbn [foldl].
  rewrite (process_removes backup_dir _ p1 c1) by done.
  fold target.
  rewrite (process_removes backup_dir _ p2 c2).
  - cbn [deleter.on_disk deleter.tree deleter.deleted_count
         deleter.error_count deleter.trace]. rewrite <- Hname. fold target.
    split_and!; try done.
    + rewrite lookup_delete_ne by done. rewrite lookup_insert_ne by done.
      by rewrite lookup_delete_eq.
    + by rewrite lookup_delete_eq.
    + rewrite lookup_delete_ne by done. by rewrite lookup_insert_eq.
    + intros x Hx1 Hx2 Hxt. rewrite lookup_delete_ne by done.
      rewrite lookup_insert_ne by done. rewrite lookup_delete_ne by done.
      by rewrite lookup_insert_ne.
  - cbn [deleter.on_disk deleter.tree]. rewrite lookup_delete_ne by done.
    by rewrite lookup_insert_ne.
  - done.
  - cbn [deleter.on_disk deleter.tree]. rewrite <- Hname. fold target.
    rewrite lookup_delete_ne by done. by rewrite lookup_insert_eq.
  - cbn [deleter.on_disk deleter.protected]. by rewrite <- Hname.
  - by rewrite <- Hname.
Qed.

Lemma X12_same_name_backup_overwritten_witness :
  let st := deleter.process_all "backup" sample.two_folders
              ["/a/x.jpg"; "/b/x.jpg"] in
  deleter.deleted_count st = 2
  ∧ deleter.error_count st = 0
  ∧ deleter.tree (deleter.on_disk st) !! "/a/x.jpg" = None
  ∧ deleter.tree (deleter.on_disk st) !! "/b/x.jpg" = None
  ∧ deleter.tree (deleter.on_disk st) !! "backup/x.jpg"
    = Some (File true sample.ramp).
Proof.
  intros st.
  assert (Hne : "/a/x.jpg" ≠ "/b/x.jpg") by discriminate.
  assert (Hname : deleter.name "/a/x.jpg" = deleter.name "/b/x.jpg")
    by (vm_compute; reflexivity).
  assert (Hp1 : deleter.tree sample.two_folders !! "/a/x.jpg"
                = Some (File true sample.flat)) by (vm_compute; reflexivity).
  assert (Hp2 : deleter.tree sample.two_folders !! "/b/x.jpg"
                = Some (File true sample.ramp)) by (vm_compute; reflexivity).
  assert (Hnodir : deleter.tree sample.two_folders
                     !! deleter.joinpath "backup" (deleter.name "/a/x.jpg")
                   ≠ Some Dir) by (vm_compute; discriminate).
  assert (Ht1 : deleter.joinpath "backup" (deleter.name "/a/x.jpg")
                ≠ "/a/x.jpg") by (vm_compute; discriminate).
  assert (Ht2 : deleter.joinpath "backup" (deleter.name "/a/x.jpg")
                ≠ "/b/x.jpg") by (vm_compute; discriminate).
  pose proof (X12_same_name_backup_overwritten "backup" sample.two_folders
              "/a/x.jpg" "/b/x.jpg" sample.flat sample.ramp
              Hne Hname Hp1 Hp2
              (not_elem_of_empty (C := gset string) _)
              (not_elem_of_empty (C := gset string) _)
              Hnodir
              (not_elem_of_empty (C := gset string) _)
              Ht1 Ht2)
    as HH.
  destruct HH as (Hdeleted & Herrors & _ & Hfirst & Hsecond & Hbackup & _).
  exact (conj Hdeleted (conj Herrors (conj Hfirst (conj Hsecond Hbackup)))).
Defined.

(** X13. When the request names every file by its plain path and no two
    requested files have the same name, every file the loop of
    [create_backup_and_delete] removed is a requested file and is kept in
    the backup directory, on the disk the loop leaves, with the bytes it
    had before the run.  (A file named like the log is left aside: the
    log is written next, at the path of its copy.) *)
Theorem X13_removed_files_are_in_backup (files_to_delete : list string)
    (stamp now : string) (d : deleter.disk) (p : string) :
  Forall (λ f, pathlib.plain (pathlib.Path f)) files_to_delete →
  NoDup (deleter.name <$> (pathlib.Path <$> files_to_delete)) →
  let backup_dir := "backup_deletions_" +:+ stamp in
  let final :=
    (deleter.create_backup_and_delete (Some files_to_delete) stamp now d).2 in
  deleter.name p ≠ "deletion_log.json" →
  is_Some (deleter.tree d !! p) →
  deleter.tree final !! p = None →
  p ∈ pathlib.Path <$> files_to_delete
  ∧ ∃ content target,
      deleter.tree d !! p = Some (File true content)
      ∧ (target = deleter.joinpath backup_dir (deleter.name p)
         ∨ target = deleter.joinpath
                      (deleter.joinpath backup_dir (deleter.name p))
                      (deleter.name p))
      ∧ deleter.tree final !! target = Some (File true content).
Proof.
  intros _ Hnd backup_dir final _ Hsome Hgone.
  destruct (create_backup_and_delete_disk files_to_delete stamp now d)
    as [Hsame|(d1 & Hmkdir & Hfinal)]; subst final.
  { rewrite Hsame in Hgone. rewrite Hgone in Hsome. by destruct Hsome. }
  rewrite Hfinal in *. fold backup_dir in Hmkdir, Hgone |- *.
  apply mkdir_Some in Hmkdir as (Hprot & Hdir & Hsame).
  set (st0 := {| deleter.on_disk := d1; deleter.deleted_count := 0;
                 deleter.error_count := 0; deleter.trace := [] |}).
  unfold deleter.process_all in *. fold st0 in Hgone |- *.
  destruct (process_loop_frame backup_dir (pathlib.Path <$> files_to_delete)
              st0) as (_ & Hdir1 & _ & _).
  cbn [deleter.on_disk st0] in Hdir1.
  assert (Hpb : p ≠ backup_dir).
  { intros Heq. rewrite Heq in Hgone.
    by rewrite (Hdir1 backup_dir Hdir) in Hgone. }
  assert (Hunlinked : deleter.Unlinked p
                      ∈ deleter.trace
                          (foldl (deleter.process backup_dir) st0
                             (pathlib.Path <$> files_to_delete))).
  { apply process_loop_gone; [|done].
    cbn [deleter.on_disk st0]. by rewrite Hsame. }
  split.
  - destruct (process_loop_unlinked backup_dir _ st0 p Hunlinked)
      as [Hnil|?]; [|done].
    by apply not_elem_of_nil in Hnil.
  - destruct (process_loop_kept backup_dir d1
                (pathlib.Path <$> files_to_delete) st0 [])
      with (p := p)
      as (content & target & Hbefore & Hform & _ & _ & Hbackup & _);
      try done.
    + intros q Hq. by apply not_elem_of_nil in Hq.
    + intros q _. apply not_elem_of_nil.
    + exists content, target. split_and!; [|done..].
      by rewrite <- (Hsame p Hpb).
Qed.

Lemma X13_removed_files_are_in_backup_witness :
  let final :=
    (deleter.create_backup_and_delete (Some sample.request) "20240101_000000"
       "2024-01-01T00:00:05" sample.photos).2 in
  ∃ content target,
    deleter.tree sample.photos !! "/photos/b.png" = Some (File true content)
    ∧ deleter.tree final !! target = Some (File true content)
    ∧ deleter.tree final !! "/photos/b.png" = None.
Proof.
  intros final.
  assert (Hplain : Forall (λ f, pathlib.plain (pathlib.Path f))
                     sample.request)
    by (repeat constructor).
  assert (Hnames : deleter.name <$> (pathlib.Path <$> sample.request)
                   = ["a.jpg"; "missing.jpg"; "locked.jpg"; "b.png"; "sub"])
    by (vm_compute; reflexivity).
  assert (Hnd : NoDup (deleter.name <$> (pathlib.Path <$> sample.request))).
  { rewrite Hnames.
    repeat (apply NoDup_cons_2;
            [intros Hin;
             repeat (apply elem_of_cons in Hin as [Hin|Hin]; [discriminate|]);
             by apply not_elem_of_nil in Hin|]).
    apply NoDup_nil_2. }
  assert (Hthere : deleter.tree sample.photos !! "/photos/b.png"
                   = Some (File true sample.ramp))
    by (vm_compute; reflexivity).
  assert (Hgone : deleter.tree final !! "/photos/b.png" = None)
    by (vm_compute; reflexivity).
  destruct (X13_removed_files_are_in_backup sample.request "20240101_000000"
              "2024-01-01T00:00:05" sample.photos "/photos/b.png"
              Hplain Hnd ltac:(discriminate) (ex_intro _ _ Hthere) Hgone)
    as (_ & content & target & Hbefore & _ & Hbackup).
  exists content, target. exact (conj Hbefore (conj Hbackup Hgone)).
Defined.

(** X14. The log lists under [deleted_files] every requested path that is
    not on the disk when the loop ends, whether or not the loop removed
    it: a requested file, named by its plain path, that was missing from
    the start is counted as an error, and its name is nevertheless among
    the deleted files. *)
Theorem X14_missing_file_logged_as_deleted (files_to_delete : list string)
    (stamp now : string) (d d' : deleter.disk) (log : deleter.log_data)
    (file_path : string) :
  deleter.create_backup_and_delete (Some files_to_delete) stamp now d
  = (Some log, d') →
  file_path ∈ files_to_delete →
  let p := pathlib.Path file_path in
  pathlib.plain p →
  deleter.tree d !! p = None →
  p ≠ "backup_deletions_" +:+ stamp →
  (∀ rest, p ≠ deleter.joinpath ("backup_deletions_" +:+ stamp) rest) →
  deleter.name p ∈ deleter.deleted_files log
  ∧ 1 ≤ deleter.errors log
  ∧ deleter.successfully_deleted log < deleter.total_requested log
  ∧ deleter.tree d' !! p = None.
Proof.
  intros (d1 & Hmkdir & Hd' & Hlog)%create_backup_and_delete_Some
    Hfile p _ Hmissing Hne Houtside.
  assert (Hin : p ∈ pathlib.Path <$> files_to_delete)
    by (by apply list_elem_of_fmap_2).
  apply mkdir_Some in Hmkdir as (_ & _ & Hsame).
  assert (Hd1 : deleter.tree d1 !! p = None) by (by rewrite Hsame).
  set (backup_dir := "backup_deletions_" +:+ stamp) in *.
  set (st0 := {| deleter.on_disk := d1; deleter.deleted_count := 0;
                 deleter.error_count := 0; deleter.trace := [] |}).
  assert (Hgone : deleter.tree d' !! p = None).
  { rewrite Hd'.
    destruct (process_loop_frame backup_dir
                (pathlib.Path <$> files_to_delete) st0)
      as (_ & _ & _ & Hout).
    destruct (Hout p Houtside) as [Heq|[_ Hnone]]; [|done].
    unfold deleter.process_all. fold st0. by rewrite Heq. }
  assert (Herrors : 1 ≤ deleter.errors log).
  { rewrite Hlog. cbn [deleter.errors].
    apply list_elem_of_split in Hin as (l1 & l2 & ->).
    unfold deleter.process_all. fold st0. rewrite foldl_app. cbn [foldl].
    etrans; [|apply process_loop_errors].
    rewrite process_missing; [lia|].
    destruct (process_loop_frame backup_dir l1 st0) as (_ & _ & _ & Hout).
    destruct (Hout p Houtside) as [Heq|[_ Hnone]]; [|done].
    by rewrite Heq. }
  split_and!; [|done| |done].
  - rewrite Hlog. cbn [deleter.deleted_files].
    apply list_elem_of_fmap_2, list_elem_of_filter. split; [|done].
    unfold deleter.exists_. by rewrite Hgone.
  - pose proof (process_loop_counts backup_dir
                  (pathlib.Path <$> files_to_delete) st0) as Hsum.
    rewrite Hlog in Herrors |- *.
    cbn [deleter.errors deleter.successfully_deleted deleter.total_requested]
      in *.
    unfold deleter.process_all in *. fold st0 in Herrors |- *.
    cbn [deleter.deleted_count deleter.error_count st0] in Hsum.
    rewrite length_fmap in Hsum. lia.
Qed.

Lemma X14_missing_file_logged_as_deleted_witness :
  ∃ log d',
    deleter.create_backup_and_delete (Some sample.request) "20240101_000000"
      "2024-01-01T00:00:05" sample.photos = (Some log, d')
    ∧ "missing.jpg" ∈ deleter.deleted_files log
    ∧ 1 ≤ deleter.errors log.
Proof.
  destruct (deleter.create_backup_and_delete (Some sample.request)
              "20240101_000000" "2024-01-01T00:00:05" sample.photos)
    as [[log|] d'] eqn:Hrun; [|vm_compute in Hrun; discriminate].
  assert (Hin : "/photos/missing.jpg" ∈ sample.request)
    by (right; left).
  assert (Hmissing : deleter.tree sample.photos
                       !! pathlib.Path "/photos/missing.jpg" = None)
    by (vm_compute; reflexivity).
  assert (Houtside : ∀ rest, pathlib.Path "/photos/missing.jpg"
                             ≠ deleter.joinpath
                                 ("backup_deletions_" +:+ "20240101_000000")
                                 rest)
    by (intros rest; vm_compute; discriminate).
  destruct (X14_missing_file_logged_as_deleted _ _ _ _ _ _
              "/photos/missing.jpg" Hrun Hin I Hmissing ltac:(discriminate)
              Houtside)
    as (Hlisted & Herrors & _ & _).
  exists log, d'. exact (conj eq_refl (conj Hlisted Herrors)).
Defined.

(** * Restoring a backup *)

Section restore_backup.
Import deleter.
Implicit Types (d : disk) (p q x e : string).

(** What an iteration of the loop of [restore_backup] does. *)
Lemma restore_step (st : nat * disk) e :
  restore st e = st
  ∨ ∃ content target,
      tree st.2 !! e = Some (File true content)
      ∧ target ≠ e
      ∧ name e ≠ "deletion_log.json"
      ∧ (target = joinpath original_dir (name e)
         ∨ target = joinpath (joinpath original_dir (name e)) (name e))
      ∧ (tree st.2 !! joinpath original_dir (name e) ≠ Some Dir →
         target = joinpath original_dir (name e))
      ∧ tree st.2 !! target ≠ Some Dir
      ∧ restore st e
        = (st.1 + 1,
           {| tree := <[target := File true content]> (tree st.2);
              protected := protected st.2 |}).
Proof.
  destruct st as [restored_count d]. unfold restore.
  destruct (is_file d e && bool_decide (name e ≠ "deletion_log.json"))
    eqn:Htest; [|by left].
  apply andb_true_iff in Htest as [_ Hname%bool_decide_eq_true].
  destruct (copy2 e _ d) as [[d' target]|] eqn:Hcopy; [|by left].
  pose proof (copy2_target _ _ _ _ _ Hcopy) as Hnodir.
  pose proof (copy2_form _ _ _ _ _ Hcopy) as Hform.
  apply copy2_Some in Hcopy as (content & Hsrc & Hne & Htarget & ->).
  right. exists content, target. by split_and!.
Qed.

Lemma restore_loop_frame (entries : list string) (st : nat * disk) :
  let st' := foldl restore st entries in
  protected st'.2 = protected st.2
  ∧ st.1 ≤ st'.1 ≤ st.1 + length entries
  ∧ (∀ x, is_Some (tree st.2 !! x) → is_Some (tree st'.2 !! x))
  ∧ (∀ x, tree st.2 !! x = Some Dir → tree st'.2 !! x = Some Dir)
  ∧ (∀ x, name x ∉ name <$> entries → tree st'.2 !! x = tree st.2 !! x)
  ∧ (∀ x, (∀ rest, x ≠ joinpath original_dir rest) →
          tree st'.2 !! x = tree st.2 !! x)
  ∧ (∀ x, name x = "deletion_log.json" → tree st'.2 !! x = tree st.2 !! x).
Proof.
  revert st. induction entries as [|e entries IH]; intros st; cbn [foldl].
  { split_and!; try done. cbn [length]. lia. }
  destruct (IH (restore st e))
    as (Hprot & Hcount & Hkeep & Hdir & Hnames & Hout & Hlog).
  destruct (restore_step st e)
    as [Hsame|(content & target & Hsrc & Hne & Hname & Ht & _ & Hnodir & Heq)].
  { rewrite Hsame in *. split_and!; try done.
    - lia.
    - cbn [length]. lia.
    - intros x Hx. apply Hnames. rewrite fmap_cons in Hx.
      by apply not_elem_of_cons in Hx as [_ ?]. }
  rewrite Heq in *. cbn [fst snd tree protected] in *.
  pose proof (name_target _ _ _ Ht) as Hnt.
  assert (Hinside : ∃ rest, target = joinpath original_dir rest).
  { destruct Ht as [->| ->]; [by eexists|].
    rewrite joinpath_joinpath. by eexists. }
  destruct Hinside as [rest Hrest].
  split_and!.
  - done.
  - lia.
  - cbn [length]. lia.
  - intros x Hx. apply Hkeep. destruct (decide (x = target)) as [->|];
      [by rewrite lookup_insert_eq|by rewrite lookup_insert_ne].
  - intros x Hx. apply Hdir. rewrite lookup_insert_ne; [done|congruence].
  - intros x Hx. rewrite fmap_cons in Hx.
    apply not_elem_of_cons in Hx as [Hxe Hx]. rewrite Hnames by done.
    rewrite lookup_insert_ne; [done|]. intros <-. by rewrite Hnt in Hxe.
  - intros x Hx. rewrite Hout by done.
    rewrite lookup_insert_ne; [done|]. intros <-. by apply (Hx rest).
  - intros x Hx. rewrite Hlog by done.
    rewrite lookup_insert_ne; [done|]. intros <-. by rewrite Hnt in Hx.
Qed.
End restore_backup.

(** X15. [restore_backup] writes into the one folder the code names,
    wherever the files had been: it removes nothing, it leaves every path
    outside that folder as it was, it never copies the log, and it counts
    at most one file per entry of the backup directory.  For a backup
    directory given by a spelling of its plain path, nothing changes when
    the directory, its log, a readable log or the listing is missing. *)
Theorem X15_restore_writes_only_original_dir (backup_dir : string)
    (log : option nat) (listing : option (list string)) (d : deleter.disk) :
  let r := deleter.restore_backup backup_dir log listing d in
  let backup_path := pathlib.Path backup_dir in
  deleter.protected r.2 = deleter.protected d
  ∧ (∀ x, is_Some (deleter.tree d !! x) → is_Some (deleter.tree r.2 !! x))
  ∧ (∀ x, deleter.tree d !! x = Some Dir → deleter.tree r.2 !! x = Some Dir)
  ∧ (∀ x, (∀ rest, x ≠ deleter.joinpath deleter.original_dir rest) →
          deleter.tree r.2 !! x = deleter.tree d !! x)
  ∧ (∀ x, deleter.name x = "deletion_log.json" →
          deleter.tree r.2 !! x = deleter.tree d !! x)
  ∧ (∀ entries n, listing = Some entries → r.1 = Some n → n ≤ length entries)
  ∧ (pathlib.plain backup_path →
     deleter.exists_ d backup_path = false
     ∨ deleter.exists_ d (deleter.joinpath backup_path "deletion_log.json")
       = false
     ∨ log = None ∨ listing = None →
     r = (None, d)).
Proof.
  intros r backup_path. subst r. unfold deleter.restore_backup.
  fold backup_path.
  destruct (deleter.exists_ d backup_path);
    [|cbn [negb]; split_and!; try done].
  destruct (deleter.exists_ d (deleter.joinpath backup_path _));
    [|cbn [negb]; split_and!; try done].
  cbn [negb].
  destruct log as [count|]; [|split_and!; try done].
  destruct listing as [entries|]; [|split_and!; try done].
  pose proof (restore_loop_frame entries (0, d)) as Hloop.
  destruct (foldl deleter.restore (0, d) entries) as [restored_count d'].
  cbn [fst snd] in *.
  destruct Hloop as (Hprot & Hcount & Hkeep & Hdir & _ & Hout & Hlog).
  split_and!; try done.
  - intros entries' n [= <-] [= <-]. lia.
  - intros _ [?|[?|[?|?]]]; done.
Qed.

(** ** Deleting, then restoring *)

Section round_trip.
Import deleter.
Implicit Types (d : disk) (p q x e n : string).

(** The loop of [restore_backup] puts an entry of the backup directory
    back under its name in the folder of the code, when nothing is there
    and no other entry has that name. *)
Lemma restore_loop_restores (entries : list string) (st : nat * disk)
    (src n : string) (content : list byte) :
  component n → n ≠ "." → n ≠ "deletion_log.json" → name src = n →
  NoDup (name <$> entries) → src ∈ entries →
  tree st.2 !! src = Some (File true content) →
  tree st.2 !! joinpath original_dir n = None →
  joinpath original_dir n ∉ protected st.2 →
  tree (foldl restore st entries).2 !! joinpath original_dir n
  = Some (File true content)
  ∧ st.1 + 1 ≤ (foldl restore st entries).1.
Proof.
  intros Hn Hdot Hlog Hname. revert st.
  assert (Hnp : name (joinpath original_dir n) = n)
    by (by rewrite name_joinpath, name_of_component).
  induction entries as [|e entries IH];
    intros [restored_count d] Hnd Hin Hsrc Hnone Hfree;
    [by apply not_elem_of_nil in Hin|].
  rewrite fmap_cons in Hnd. apply NoDup_cons in Hnd as [He Hnd].
  cbn [foldl fst snd] in *.
  destruct (decide (e = src)) as [->|Hne].
  - assert (Hstep : restore (restored_count, d) src
                    = (restored_count + 1,
                       {| tree := <[joinpath original_dir n
                                    := File true content]> (tree d);
                          protected := protected d |})).
    { unfold restore, is_file, copy2. rewrite Hsrc, Hname.
      rewrite bool_decide_eq_true_2 by done. cbn [andb].
      rewrite Hnone.
      destruct (decide (src = joinpath original_dir n)) as [Heq|_];
        [rewrite Heq in Hsrc; congruence|].
      destruct (decide (joinpath original_dir n ∈ protected d)); [done|].
      cbv beta iota. by rewrite Hnone. }
    rewrite Hstep.
    destruct (restore_loop_frame entries
                (restored_count + 1,
                 {| tree := <[joinpath original_dir n
                              := File true content]> (tree d);
                    protected := protected d |}))
      as (_ & [Hcount _] & _ & _ & Hnames & _).
    cbn [fst snd tree] in *. split; [|done].
    rewrite Hnames; [by rewrite lookup_insert_eq|].
    by rewrite Hnp, <- Hname.
  - apply elem_of_cons in Hin as [?|Hin]; [done|].
    assert (Hen : name e ≠ n).
    { intros Heq. apply He. rewrite Heq, <- Hname.
      by apply list_elem_of_fmap_2. }
    destruct (restore_step (restored_count, d) e)
      as [Hstep|(content' & target & _ & _ & _ & Ht & _ & _ & Hstep)];
      rewrite Hstep.
    { by apply IH. }
    cbn [fst snd] in *.
    pose proof (name_target _ _ _ Ht) as Hnt.
    destruct (IH (restored_count + 1,
                  {| tree := <[target := File true content']> (tree d);
                     protected := protected d |})) as [Hp Hcount];
      try done; cbn [fst snd tree protected] in *.
    + rewrite lookup_insert_ne; [done|]. intros Heq.
      rewrite Heq in Hnt. congruence.
    + rewrite lookup_insert_ne; [done|]. intros Heq.
      rewrite Heq in Hnt. congruence.
    + split; [done|lia].
Qed.
End round_trip.

(** X16. A file of the folder the code restores to, removed by
    [create_backup_and_delete] in a request that names every file by its
    plain path and no two files of one name, is back in its place with
    its bytes after [restore_backup] on the backup directory of that run,
    however its name is typed. *)
Theorem X16_delete_then_restore (files_to_delete : list string)
    (stamp now typed : string) (d d1 : deleter.disk) (log : deleter.log_data)
    (n : string) (log_bytes : list byte) (entries : list string) :
  let backup_dir := "backup_deletions_" +:+ stamp in
  let p := deleter.joinpath deleter.original_dir n in
  deleter.create_backup_and_delete (Some files_to_delete) stamp now d
  = (Some log, d1) →
  Forall (λ f, pathlib.plain (pathlib.Path f)) files_to_delete →
  NoDup (deleter.name <$> (pathlib.Path <$> files_to_delete)) →
  pathlib.plain p →
  deleter.component n →
  n ≠ "deletion_log.json" →
  is_Some (deleter.tree d !! p) →
  deleter.tree d1 !! p = None →
  deleter.tree d !! deleter.joinpath backup_dir n ≠ Some Dir →
  pathlib.Path typed = backup_dir →
  deleter.joinpath backup_dir n ∈ entries →
  NoDup (deleter.name <$> entries) →
  let d2 :=
    {| deleter.tree :=
         <[deleter.joinpath backup_dir "deletion_log.json"
           := File true log_bytes]> (deleter.tree d1);
       deleter.protected := deleter.protected d1 |} in
  let r :=
    deleter.restore_backup typed
      (Some (deleter.successfully_deleted log)) (Some entries) d2 in
  deleter.tree r.2 !! p = deleter.tree d !! p
  ∧ ∃ restored_count, r.1 = Some restored_count ∧ 1 ≤ restored_count.
Proof.
  intros backup_dir p
    (dm & Hmkdir & Hd1 & _)%create_backup_and_delete_Some
    _ Hnd Hplain Hn Hlog Hsome Hgone Hnodir Htyped Hentry Hnames d2 r.
  fold backup_dir in Hmkdir, Hd1.
  assert (Hdot : n ≠ ".").
  { intros ->. by vm_compute in Hplain. }
  clear Hplain.
  apply mkdir_Some in Hmkdir as (Hprotm & Hdirm & Hsame).
  set (st0 := {| deleter.on_disk := dm; deleter.deleted_count := 0;
                 deleter.error_count := 0; deleter.trace := [] |}).
  destruct (process_loop_frame backup_dir (pathlib.Path <$> files_to_delete)
              st0)
    as (Hprot1 & Hdir1 & _ & _).
  unfold deleter.process_all in Hd1. fold st0 in Hd1. rewrite <- Hd1 in *.
  cbn [deleter.on_disk st0] in Hprot1, Hdir1.
  assert (Hpb : p ≠ backup_dir).
  { intros Heq. rewrite Heq in Hgone.
    by rewrite (Hdir1 backup_dir Hdirm) in Hgone. }
  assert (Hnp : deleter.name p = n).
  { subst p. by rewrite name_joinpath, name_of_component. }
  assert (Hunlinked : deleter.Unlinked p
                      ∈ deleter.trace
                          (foldl (deleter.process backup_dir) st0
                             (pathlib.Path <$> files_to_delete))).
  { apply process_loop_gone; [|by rewrite <- Hd1].
    cbn [deleter.on_disk st0]. by rewrite Hsame. }
  destruct (process_loop_kept backup_dir dm
              (pathlib.Path <$> files_to_delete) st0 [])
    with (p := p)
    as (content & target & Hbefore & _ & Hform & Hfree & Hbackup & _);
    try done.
  { intros q Hq. by apply not_elem_of_nil in Hq. }
  { intros q _. apply not_elem_of_nil. }
  rewrite <- Hd1 in Hbackup. rewrite Hnp in Hform.
  rewrite Hform in Hbackup
    by (rewrite Hsame; [done|apply joinpath_ne]).
  assert (Hd2dir : deleter.exists_ d2 backup_dir = true).
  { unfold deleter.exists_. subst d2. cbn [deleter.tree].
    rewrite lookup_insert_ne by apply joinpath_ne.
    by rewrite (Hdir1 backup_dir Hdirm). }
  assert (Hd2log : deleter.exists_ d2
                     (deleter.joinpath backup_dir "deletion_log.json") = true).
  { unfold deleter.exists_. subst d2. cbn [deleter.tree].
    by rewrite lookup_insert_eq. }
  assert (Hsrc : deleter.tree d2 !! deleter.joinpath backup_dir n
                 = Some (File true content)).
  { subst d2. cbn [deleter.tree]. rewrite lookup_insert_ne; [done|].
    unfold deleter.joinpath. intros Heq. by simplify_eq. }
  assert (Hdst : deleter.tree d2 !! p = None).
  { subst d2. cbn [deleter.tree]. rewrite lookup_insert_ne; [done|].
    intros Heq. apply Hlog. rewrite <- Hnp, <- Heq.
    by rewrite name_joinpath. }
  assert (Hwritable : p ∉ deleter.protected d2).
  { subst d2. cbn [deleter.protected]. by rewrite Hprot1. }
  destruct (restore_loop_restores entries (0, d2)
              (deleter.joinpath backup_dir n) n content)
    as [Hback Hcount]; try done.
  { by rewrite name_joinpath, name_of_component. }
  subst r. unfold deleter.restore_backup. rewrite Htyped, Hd2dir, Hd2log.
  cbn [negb].
  destruct (foldl deleter.restore (0, d2) entries) as [restored_count d3].
  cbn [fst snd] in *. split.
  - fold p in Hback. rewrite Hback. rewrite <- Hsame by done.
    by rewrite Hbefore.
  - exists restored_count. split; [done|lia].
Qed.

Lemma X16_delete_then_restore_witness :
  let p := deleter.joinpath deleter.original_dir "a.jpg" in
  let backup_dir := "backup_deletions_" +:+ "20240101_000000" in
  ∃ log d1,
    deleter.create_backup_and_delete (Some [p; "/other//b.png"])
      "20240101_000000" "2024-01-01T00:00:05" sample.originals
    = (Some log, d1)
    ∧ deleter.tree d1 !! p = None
    ∧ deleter.tree
        (deleter.restore_backup "backup_deletions_20240101_000000/"
           (Some (deleter.successfully_deleted log))
           (Some [deleter.joinpath backup_dir "a.jpg";
                  deleter.joinpath backup_dir "b.png";
                  deleter.joinpath backup_dir "deletion_log.json"])
           {| deleter.tree :=
                <[deleter.joinpath backup_dir "deletion_log.json"
                  := File true []]> (deleter.tree d1);
              deleter.protected := deleter.protected d1 |}).2 !! p
      = Some (File true sample.flat).
Proof.
  intros p backup_dir.
  destruct (deleter.create_backup_and_delete (Some [p; "/other//b.png"])
              "20240101_000000" "2024-01-01T00:00:05" sample.originals)
    as [[log|] d1] eqn:Hrun; [|vm_compute in Hrun; discriminate].
  assert (Hgone : deleter.tree d1 !! p = None).
  { replace d1
      with (deleter.create_backup_and_delete (Some [p; "/other//b.png"])
              "20240101_000000" "2024-01-01T00:00:05" sample.originals).2
      by (by rewrite Hrun).
    vm_compute. reflexivity. }
  assert (Hbefore : deleter.tree sample.originals !! p
                    = Some (File true sample.flat))
    by (vm_compute; reflexivity).
  assert (Hplain : Forall (λ f, pathlib.plain (pathlib.Path f))
                     [p; "/other//b.png"])
    by (repeat constructor).
  assert (Hnd : NoDup (deleter.name
                         <$> (pathlib.Path <$> [p; "/other//b.png"]))).
  { assert (deleter.name <$> (pathlib.Path <$> [p; "/other//b.png"])
            = ["a.jpg"; "b.png"]) as ->
      by (vm_compute; reflexivity).
    repeat (apply NoDup_cons_2;
            [intros Hin;
             repeat (apply elem_of_cons in Hin as [Hin|Hin]; [discriminate|]);
             by apply not_elem_of_nil in Hin|]).
    apply NoDup_nil_2. }
  assert (Hnodir : deleter.tree sample.originals
                     !! deleter.joinpath backup_dir "a.jpg" ≠ Some Dir)
    by (vm_compute; discriminate).
  assert (Hnames : NoDup (deleter.name
                            <$> [deleter.joinpath backup_dir "a.jpg";
                                 deleter.joinpath backup_dir "b.png";
                                 deleter.joinpath backup_dir
                                   "deletion_log.json"])).
  { assert (deleter.name <$> [deleter.joinpath backup_dir "a.jpg";
                              deleter.joinpath backup_dir "b.png";
                              deleter.joinpath backup_dir "deletion_log.json"]
            = ["a.jpg"; "b.png"; "deletion_log.json"]) as ->
      by (vm_compute; reflexivity).
    repeat (apply NoDup_cons_2;
            [intros Hin;
             repeat (apply elem_of_cons in Hin as [Hin|Hin]; [discriminate|]);
             by apply not_elem_of_nil in Hin|]).
    apply NoDup_nil_2. }
  destruct (X16_delete_then_restore [p; "/other//b.png"] "20240101_000000"
              "2024-01-01T00:00:05" "backup_deletions_20240101_000000/"
              sample.originals d1 log "a.jpg" []
              [deleter.joinpath backup_dir "a.jpg";
               deleter.joinpath backup_dir "b.png";
               deleter.joinpath backup_dir "deletion_log.json"]
              Hrun Hplain Hnd I I ltac:(discriminate)
              (ex_intro _ _ Hbefore) Hgone Hnodir eq_refl
              (list_elem_of_here _ _) Hnames)
    as [Hback _].
  exists log, d1.
  exact (conj eq_refl (conj Hgone (eq_trans Hback Hbefore))).
Defined.
